(** * squid-sql: the relational evaluation engine of [v1.py]

    A shallow embedding of [Table] (column resolution, cross merge, the two
    [where] evaluators, aliasing, projection) and of the [ColumnToLiteralWhere]
    constructor, with the properties of the specification stated over it.

    Conventions of the embedding:
    - a Python exception is a value of [exn]; every function that can raise
      returns a [result];
    - a cell of a table file is a JSON integer, string or null ([value]): the
      two column types of the engine and the one other scalar a file can
      hold, which [from_file] takes over unchecked; a row is a list;
    - [ColumnConfig.index] is a Python integer ([Z]) and [row[i]] follows
      Python's indexing, negative offsets included;
    - column types and operators are the strings of the source, looked up in
      the two module-level tables;
    - the dictionary [found_names_by_col] of [apply_select_queries] is a
      finite map keyed by [ColumnConfig]. *)

From stdpp Require Import base decidable option list strings gmap.
From stdpp Require Import pretty.
From Stdlib Require Import ZArith Lia.

Local Open Scope string_scope.
Local Open Scope list_scope.

(** ** Data model, exceptions and results *)

Record ColumnRef := mkColumnRef {
  ref_table : option string;   (* column_ref['table'] : None or a string *)
  ref_name : string            (* column_ref['name'] *)
}.

Record ColumnConfig := mkColumnConfig {
  table : string;
  name : string;
  type : string;
  index : Z
}.

(** A [where] term: [{column: ref}], [{lit_int: z}] or [{lit_str: s}]. *)
Inductive term :=
| TermColumn (column_ref : ColumnRef)
| TermLitInt (z : Z)
| TermLitStr (s : string).

(** One constructor per [raise SquidError(...)] site of the source. *)
Inductive squid_error :=
| ColumnNotFound (column_ref : ColumnRef)
| AmbiguousColumn (column_ref : ColumnRef) (found_table_names : string)
| TypeMismatchColumns (left_col right_col : ColumnConfig)
| TypeMismatchLiteral (col_config : ColumnConfig) (literal_term : term)
| UnsupportedOperator (op : string) (col_type : string)
| DuplicateSelectName (col_name : string)
| ColumnToColumnGiven
| MalformedWhere.

Inductive exn :=
| SquidError (e : squid_error)
| IndexError
| TypeError
| KeyError.

Inductive result (A : Type) :=
| Ok (a : A)
| Raise (e : exn).
Arguments Ok {A} a.
Arguments Raise {A} e.

Definition bind {A B} (m : result A) (k : A -> result B) : result B :=
  match m with
  | Ok a => k a
  | Raise e => Raise e
  end.

Notation "'let*' x ':=' m 'in' k" := (bind m (fun x => k))
  (at level 10, x name, m at level 100, k at level 200).

Definition is_ok {A} (m : result A) : bool :=
  match m with Ok _ => true | Raise _ => false end.

(** [holds m]: the test returned [True] (and did not raise). *)
Definition holds (m : result bool) : bool :=
  match m with Ok b => b | Raise _ => false end.

(** ** Values and the comparison functions *)

(** A cell, as [json.load] returns it: an [int], a [str] or [None]. *)
Inductive value :=
| VInt (z : Z)
| VStr (s : string)
| VNone.

Abbreviation row := (list value).

Definition value_eqb (l r : value) : bool :=
  match l, r with
  | VInt a, VInt b => (a =? b)%Z
  | VStr a, VStr b => String.eqb a b
  | VNone, VNone => true
  | _, _ => false
  end.

(** [left == right]: never raises; values of different types are unequal. *)
Definition equal_to (l r : value) : result bool := Ok (value_eqb l r).

Definition not_equal_to (l r : value) : result bool := Ok (negb (value_eqb l r)).

(** [left > right]: ints are ordered with ints and strs with strs; any other
    pair, [None] included, is a [TypeError]. *)
Definition greater_than (l r : value) : result bool :=
  match l, r with
  | VInt a, VInt b => Ok (b <? a)%Z
  | VStr a, VStr b => Ok (String.ltb b a)
  | _, _ => Raise TypeError
  end.

Definition less_than (l r : value) : result bool :=
  match l, r with
  | VInt a, VInt b => Ok (a <? b)%Z
  | VStr a, VStr b => Ok (String.ltb a b)
  | _, _ => Raise TypeError
  end.

(** [greater_than(l, r) or equal_to(l, r)], short-circuit. *)
Definition greater_than_or_equal_to (l r : value) : result bool :=
  let* g := greater_than l r in
  if g then Ok true else equal_to l r.

Definition less_than_or_equal_to (l r : value) : result bool :=
  let* g := less_than l r in
  if g then Ok true else equal_to l r.

Definition SUPPORTED_COLUMN_TYPES : list string := ["int"; "str"].

Definition SUPPORTED_OPS_BY_COLUMN_TYPE : list (string * list string) :=
  [ ("int", ["="; "!="; ">"; ">="; "<"; "<="]);
    ("str", ["="; "!="]) ].

Definition OPERATOR_FUNCS : list (string * (value -> value -> result bool)) :=
  [ ("=", equal_to);
    ("!=", not_equal_to);
    (">", greater_than);
    (">=", greater_than_or_equal_to);
    ("<", less_than);
    ("<=", less_than_or_equal_to) ].

(** [d[key]] on a module-level table: [KeyError] when the key is missing. *)
Fixpoint getitem {V} (d : list (string * V)) (key : string) : result V :=
  match d with
  | [] => Raise KeyError
  | (k, v) :: d' => if String.eqb k key then Ok v else getitem d' key
  end.

(** [x in xs] on a list of strings. *)
Definition str_in_list (x : string) (xs : list string) : bool :=
  existsb (String.eqb x) xs.

(** [needle in hay] on two strings: substring test. *)
Definition str_in_str (needle hay : string) : bool :=
  match String.index 0 needle hay with
  | Some _ => true
  | None => false
  end.

(** Python truthiness of [None]-or-string: [None] and [''] are false. *)
Definition truthy (o : option string) : bool :=
  match o with
  | Some s => negb (String.eqb s "")
  | None => false
  end.

(** [seq[i]] with Python's negative offsets. *)
Definition py_index {A} (l : list A) (i : Z) : result A :=
  let j := (if (i <? 0)%Z then i + Z.of_nat (length l) else i)%Z in
  if (j <? 0)%Z then Raise IndexError
  else match l !! Z.to_nat j with
       | Some x => Ok x
       | None => Raise IndexError
       end.

(** ** Table *)

Record Table := mkTable {
  columns : list ColumnConfig;
  rows : list row
}.

(** The [conditions] list built for one [col_config], then [all(conditions)]. *)
Definition conditions (column_ref : ColumnRef) (col_config : ColumnConfig) : list bool :=
  (if truthy (ref_table column_ref)
   then [String.eqb (table col_config) (default "" (ref_table column_ref))]
   else [])
  ++ [String.eqb (name col_config) (ref_name column_ref)].

Definition all (bs : list bool) : bool := forallb id bs.

(** The loop of [col_config_by_column_ref] that fills [found_columns]. *)
Fixpoint find_columns (column_ref : ColumnRef) (cols : list ColumnConfig)
    (found_columns : list ColumnConfig) : list ColumnConfig :=
  match cols with
  | [] => found_columns
  | col_config :: cols' =>
      find_columns column_ref cols'
        (if all (conditions column_ref col_config)
         then found_columns ++ [col_config]
         else found_columns)
  end.

Definition col_config_by_column_ref (self : Table) (column_ref : ColumnRef)
    : result ColumnConfig :=
  let found_columns := find_columns column_ref (columns self) [] in
  if (length found_columns <? 1)%nat then
    Raise (SquidError (ColumnNotFound column_ref))
  else if (1 <? length found_columns)%nat then
    let found_table_names := String.concat "|" (table <$> found_columns) in
    Raise (SquidError (AmbiguousColumn column_ref found_table_names))
  else py_index found_columns 0.

(** *** The where-query classes *)

(** The strings ['left'] and ['right'] of [column_side] and [literal_side];
    no other string is ever stored, so the evaluator's last [else] branch
    has no counterpart here. *)
Inductive side := Left | Right.

(** The namedtuple [ColumnToLiteralWhere(op, left, right, column_side,
    literal_side)]; the two fields [left] and [right] hold the terms. *)
Record ColumnToLiteralWhere := mkColumnToLiteralWhere {
  ctl_op : string;
  ctl_left : term;
  ctl_right : term;
  column_side : side;
  literal_side : side
}.

Record ColumnToColumnWhere := mkColumnToColumnWhere {
  ctc_op : string;
  ctc_left : term;
  ctc_right : term
}.

Inductive where_query :=
| IsColumnToLiteralWhere (q : ColumnToLiteralWhere)
| IsColumnToColumnWhere (q : ColumnToColumnWhere).

(** [key in term] and [term[key]] on the one-key dictionaries. *)
Definition term_key (t : term) : string :=
  match t with
  | TermColumn _ => "column"
  | TermLitInt _ => "lit_int"
  | TermLitStr _ => "lit_str"
  end.

Definition key_in (key : string) (t : term) : bool := String.eqb key (term_key t).

Definition term_column (t : term) : result ColumnRef :=
  match t with
  | TermColumn column_ref => Ok column_ref
  | _ => Raise KeyError
  end.

Definition term_literal (key : string) (t : term) : result value :=
  match t with
  | TermLitInt z => if String.eqb key "lit_int" then Ok (VInt z) else Raise KeyError
  | TermLitStr s => if String.eqb key "lit_str" then Ok (VStr s) else Raise KeyError
  | TermColumn _ => Raise KeyError
  end.

(** [getattr(self, side)] *)
Definition getattr (self : ColumnToLiteralWhere) (s : side) : term :=
  match s with
  | Left => ctl_left self
  | Right => ctl_right self
  end.

Definition column_term (self : ColumnToLiteralWhere) : term :=
  getattr self (column_side self).

Definition literal_term (self : ColumnToLiteralWhere) : term :=
  getattr self (literal_side self).

(** [ColumnToLiteralWhere.__new__(cls, op, left, right)].  The second and
    third tests of the source look for ['column'] in the string ['right'],
    not in the term [right]; they are embedded as written. *)
Definition ColumnToLiteralWhere_new (op : string) (l r : term)
    : result ColumnToLiteralWhere :=
  if key_in "column" l && key_in "column" r then
    Raise (SquidError ColumnToColumnGiven)
  else if key_in "column" l && negb (str_in_str "column" "right") then
    Ok (mkColumnToLiteralWhere op l r Left Right)
  else if negb (key_in "column" l) && str_in_str "column" "right" then
    Ok (mkColumnToLiteralWhere op l r Right Left)
  else
    Raise (SquidError MalformedWhere).

(** The [for row in self.rows: if test(row): new_rows.append(row)] loop;
    the first row whose test raises aborts the loop. *)
Fixpoint filter_rows (test : row -> result bool) (rs : list row) : result (list row) :=
  match rs with
  | [] => Ok []
  | r :: rs' =>
      let* keep := test r in
      let* new_rows := filter_rows test rs' in
      Ok (if keep then r :: new_rows else new_rows)
  end.

Definition apply_column_to_column_where_query (self : Table)
    (where_query : ColumnToColumnWhere) : result Table :=
  let* left_ref := term_column (ctc_left where_query) in
  let* left_col := col_config_by_column_ref self left_ref in
  let* right_ref := term_column (ctc_right where_query) in
  let* right_col := col_config_by_column_ref self right_ref in
  if negb (String.eqb (type left_col) (type right_col)) then
    Raise (SquidError (TypeMismatchColumns left_col right_col))
  else
    let* supported := getitem SUPPORTED_OPS_BY_COLUMN_TYPE (type left_col) in
    if negb (str_in_list (ctc_op where_query) supported) then
      Raise (SquidError (UnsupportedOperator (ctc_op where_query) (type left_col)))
    else
      let* operator_func := getitem OPERATOR_FUNCS (ctc_op where_query) in
      let* new_rows :=
        filter_rows (fun r =>
          let* a := py_index r (index left_col) in
          let* b := py_index r (index right_col) in
          operator_func a b) (rows self) in
      Ok (mkTable (columns self) new_rows).

Definition apply_column_to_literal_where_query (self : Table)
    (where_query : ColumnToLiteralWhere) : result Table :=
  let* column_ref := term_column (column_term where_query) in
  let* col_config := col_config_by_column_ref self column_ref in
  let literal_value_key := "lit_" +:+ type col_config in
  if negb (key_in literal_value_key (literal_term where_query)) then
    Raise (SquidError (TypeMismatchLiteral col_config (literal_term where_query)))
  else
    let* supported := getitem SUPPORTED_OPS_BY_COLUMN_TYPE (type col_config) in
    if negb (str_in_list (ctl_op where_query) supported) then
      Raise (SquidError (UnsupportedOperator (ctl_op where_query) (type col_config)))
    else
      let* operator_func := getitem OPERATOR_FUNCS (ctl_op where_query) in
      let* literal_value := term_literal literal_value_key (literal_term where_query) in
      let* new_rows :=
        match column_side where_query with
        | Left =>
            filter_rows (fun r =>
              let* a := py_index r (index col_config) in
              operator_func a literal_value) (rows self)
        | Right =>
            filter_rows (fun r =>
              let* b := py_index r (index col_config) in
              operator_func literal_value b) (rows self)
        end in
      Ok (mkTable (columns self) new_rows).

Definition apply_where_query (self : Table) (q : where_query) : result Table :=
  match q with
  | IsColumnToLiteralWhere q' => apply_column_to_literal_where_query self q'
  | IsColumnToColumnWhere q' => apply_column_to_column_where_query self q'
  end.

(** [col_config._replace(table=as_name)] over all columns. *)
Definition apply_as_exp (self : Table) (as_name : string) : Table :=
  let new_columns :=
    (fun col_config =>
       mkColumnConfig as_name (name col_config) (type col_config) (index col_config))
    <$> columns self in
  mkTable new_columns (rows self).

(** *** Projection *)

#[global] Instance ColumnConfig_eq_dec : EqDecision ColumnConfig.
Proof. solve_decision. Defined.

#[global] Instance ColumnConfig_countable : Countable ColumnConfig.
Proof.
  refine (inj_countable'
            (fun c => (table c, name c, type c, index c))
            (fun t => mkColumnConfig t.1.1.1 t.1.1.2 t.1.2 t.2) _).
  by intros [].
Defined.

(** One entry of the select list: [select_query['source']['column']] and
    [select_query['as']]. *)
Record select_query := mkSelectQuery {
  source_column : ColumnRef;
  select_as : option string
}.

(** [for x in xs: out.append(f(x))], aborted by the first exception. *)
Fixpoint for_each {A B} (f : A -> result B) (xs : list A) : result (list B) :=
  match xs with
  | [] => Ok []
  | x :: xs' =>
      let* y := f x in
      let* ys := for_each f xs' in
      Ok (y :: ys)
  end.

(** The first loop of [apply_select_queries], threading [found_columns] and
    the dictionary [found_names_by_col]. *)
Fixpoint select_loop (self : Table) (raw_select_queries : list select_query)
    (found_columns : list ColumnConfig)
    (found_names_by_col : gmap ColumnConfig string)
    : result (list ColumnConfig * gmap ColumnConfig string) :=
  match raw_select_queries with
  | [] => Ok (found_columns, found_names_by_col)
  | select_query :: rest =>
      let* col_config := col_config_by_column_ref self (source_column select_query) in
      let col_name :=
        if truthy (select_as select_query)
        then default "" (select_as select_query)
        else name col_config in
      if bool_decide (col_name ∈ (map_img found_names_by_col : gset string)) then
        Raise (SquidError (DuplicateSelectName col_name))
      else
        select_loop self rest (found_columns ++ [col_config])
          (<[col_config := col_name]> found_names_by_col)
  end.

Definition filter_rows_by_column_indexes (self : Table) (indexes_to_include : list Z)
    : result (list row) :=
  for_each (fun existing_row => for_each (py_index existing_row) indexes_to_include)
           (rows self).

(** [found_names_by_col[col_config]] *)
Definition dict_getitem (d : gmap ColumnConfig string) (k : ColumnConfig) : result string :=
  match d !! k with
  | Some v => Ok v
  | None => Raise KeyError
  end.

(** [col_config._replace(index=i, name=found_names_by_col[col_config])
     for i, col_config in enumerate(found_columns)], counting from [i]. *)
Fixpoint rename_columns (found_names_by_col : gmap ColumnConfig string) (i : Z)
    (found_columns : list ColumnConfig) : result (list ColumnConfig) :=
  match found_columns with
  | [] => Ok []
  | col_config :: rest =>
      let* new_name := dict_getitem found_names_by_col col_config in
      let* new_rest := rename_columns found_names_by_col (i + 1)%Z rest in
      Ok (mkColumnConfig (table col_config) new_name (type col_config) i :: new_rest)
  end.

Definition apply_select_queries (self : Table) (raw_select_queries : list select_query)
    : result Table :=
  let* found := select_loop self raw_select_queries [] ∅ in
  let found_columns := found.1 in
  let found_names_by_col := found.2 in
  let found_indexes := index <$> found_columns in
  let* new_rows := filter_rows_by_column_indexes self found_indexes in
  let* new_columns := rename_columns found_names_by_col 0 found_columns in
  Ok (mkTable new_columns new_rows).

(** *** Cross merge and loading *)

Definition merge_tables (one two : Table) : Table :=
  let to_add := Z.of_nat (length (columns one)) in
  let two_columns_fixed :=
    (fun col => mkColumnConfig (table col) (name col) (type col) (index col + to_add)%Z)
    <$> columns two in
  let new_columns := columns one ++ two_columns_fixed in
  let new_rows :=
    one_row ← rows one; two_row ← rows two; [one_row ++ two_row] in
  mkTable new_columns new_rows.

(** [enumerate(raw_columns)], counting from [index]. *)
Fixpoint construct_col_configs (table_name : string) (index : Z)
    (raw_columns : list (string * string)) : list ColumnConfig :=
  match raw_columns with
  | [] => []
  | (col_name, col_type) :: rest =>
      mkColumnConfig table_name col_name col_type index
        :: construct_col_configs table_name (index + 1)%Z rest
  end.

Definition validate_and_construct_col_configs (table_name : string)
    (raw_columns : list (string * string)) : list ColumnConfig :=
  construct_col_configs table_name 0 raw_columns.

(** [from_file]: the header record and the data rows of the file, already
    split ([raw_rows.pop(0)] and the rest). *)
Definition from_file (table_name : string) (raw_columns : list (string * string))
    (raw_rows : list row) : Table :=
  mkTable (validate_and_construct_col_configs table_name raw_columns) raw_rows.

(** *** Building the where queries of a parsed query *)

(** One entry of [raw_query['where']]: [{op, left, right}]. *)
Record raw_where_query := mkRawWhereQuery {
  raw_op : string;
  raw_left : term;
  raw_right : term
}.

Definition build_where_queries (raw_where_queries : list raw_where_query)
    : result (list where_query) :=
  for_each
    (fun q =>
       if key_in "column" (raw_left q) && key_in "column" (raw_right q) then
         Ok (IsColumnToColumnWhere
               (mkColumnToColumnWhere (raw_op q) (raw_left q) (raw_right q)))
       else
         let* built := ColumnToLiteralWhere_new (raw_op q) (raw_left q) (raw_right q) in
         Ok (IsColumnToLiteralWhere built))
    raw_where_queries.

(** ** Specification-side notions *)

(** The qualifier a reference carries, when one is present: the source tests
    [if column_ref['table']], so [None] and the empty string both count as
    no qualifier (the empty-string case is the subject of C10). *)
Definition qualifier (column_ref : ColumnRef) : option string :=
  match ref_table column_ref with
  | Some q => if String.eqb q "" then None else Some q
  | None => None
  end.

(** A column matches a reference: same name and, when a qualifier is
    present, same table qualifier. *)
Definition ref_matches (column_ref : ColumnRef) (c : ColumnConfig) : bool :=
  String.eqb (name c) (ref_name column_ref)
  && match qualifier column_ref with
     | Some q => String.eqb (table c) q
     | None => true
     end.

(** The outcome of a resolution, without the echoed reference. *)
Inductive outcome :=
| Resolved (c : ColumnConfig)
| NotFound
| Ambiguous (found_table_names : string)
| OtherFailure (e : exn).

Definition outcome_of (m : result ColumnConfig) : outcome :=
  match m with
  | Ok c => Resolved c
  | Raise (SquidError (ColumnNotFound _)) => NotFound
  | Raise (SquidError (AmbiguousColumn _ names)) => Ambiguous names
  | Raise e => OtherFailure e
  end.

(** The Relation invariant of the data model: the i-th column has position
    i (so positions are exactly 0..N-1 and unique) and every row has one
    value per column (so each position is the column's offset in the row). *)
Definition positions_ok (cols : list ColumnConfig) : Prop :=
  index <$> cols = seqZ 0 (Z.of_nat (length cols)).

Definition Relation_inv (R : Table) : Prop :=
  positions_ok (columns R)
  /\ Forall (fun r : row => length r = length (columns R)) (rows R).

(** What the resolver returns, by the list of matching columns. *)
Definition resolution (column_ref : ColumnRef) (matching : list ColumnConfig)
    : result ColumnConfig :=
  match matching with
  | [] => Raise (SquidError (ColumnNotFound column_ref))
  | [c] => Ok c
  | _ => Raise (SquidError
                  (AmbiguousColumn column_ref (String.concat "|" (table <$> matching))))
  end.

(** The per-row comparison a [where] query stands for: the validation of
    each evaluator followed by the comparison it runs on every row. *)
Definition column_to_literal_test (self : Table) (where_query : ColumnToLiteralWhere)
    : result (row -> result bool) :=
  let* column_ref := term_column (column_term where_query) in
  let* col_config := col_config_by_column_ref self column_ref in
  let literal_value_key := "lit_" +:+ type col_config in
  if negb (key_in literal_value_key (literal_term where_query)) then
    Raise (SquidError (TypeMismatchLiteral col_config (literal_term where_query)))
  else
    let* supported := getitem SUPPORTED_OPS_BY_COLUMN_TYPE (type col_config) in
    if negb (str_in_list (ctl_op where_query) supported) then
      Raise (SquidError (UnsupportedOperator (ctl_op where_query) (type col_config)))
    else
      let* operator_func := getitem OPERATOR_FUNCS (ctl_op where_query) in
      let* literal_value := term_literal literal_value_key (literal_term where_query) in
      Ok (fun r : row =>
            let* v := py_index r (index col_config) in
            match column_side where_query with
            | Left => operator_func v literal_value
            | Right => operator_func literal_value v
            end).

Definition column_to_column_test (self : Table) (where_query : ColumnToColumnWhere)
    : result (row -> result bool) :=
  let* left_ref := term_column (ctc_left where_query) in
  let* left_col := col_config_by_column_ref self left_ref in
  let* right_ref := term_column (ctc_right where_query) in
  let* right_col := col_config_by_column_ref self right_ref in
  if negb (String.eqb (type left_col) (type right_col)) then
    Raise (SquidError (TypeMismatchColumns left_col right_col))
  else
    let* supported := getitem SUPPORTED_OPS_BY_COLUMN_TYPE (type left_col) in
    if negb (str_in_list (ctc_op where_query) supported) then
      Raise (SquidError (UnsupportedOperator (ctc_op where_query) (type left_col)))
    else
      let* operator_func := getitem OPERATOR_FUNCS (ctc_op where_query) in
      Ok (fun r : row =>
            let* a := py_index r (index left_col) in
            let* b := py_index r (index right_col) in
            operator_func a b).

Definition where_test (self : Table) (q : where_query) : result (row -> result bool) :=
  match q with
  | IsColumnToLiteralWhere q' => column_to_literal_test self q'
  | IsColumnToColumnWhere q' => column_to_column_test self q'
  end.

(** Row [r] satisfies the comparison of [q] on relation [self]. *)
Definition satisfies (self : Table) (q : where_query) (r : row) : bool :=
  holds (let* test := where_test self q in test r).

(** The type tag a literal term carries ([lit_int], [lit_str]). *)
Definition literal_type (t : term) : option string :=
  match t with
  | TermLitInt _ => Some "int"
  | TermLitStr _ => Some "str"
  | TermColumn _ => None
  end.

Definition ordering_operators : list string := [">"; ">="; "<"; "<="].

(** The display name of a select entry that resolves to column [c]: its
    rename when one is present, else the column's own name.  The source
    tests [if select_query['as']], so [None] and the empty string both
    count as no rename. *)
Definition display_name (q : select_query) (c : ColumnConfig) : string :=
  match select_as q with
  | Some s => if String.eqb s "" then name c else s
  | None => name c
  end.

Definition resolves_to (R : Table) (q : select_query) (c : ColumnConfig) : Prop :=
  col_config_by_column_ref R (source_column q) = Ok c.

Definition display_names (qs : list select_query) (cs : list ColumnConfig) : list string :=
  zip_with display_name qs cs.

(** The catalog a projection should produce from the resolved columns [cs]
    and their display names [ds]: select-list order, fresh positions from
    [i], qualifier and declared type carried through. *)
Fixpoint projected_columns (i : Z) (cs : list ColumnConfig) (ds : list string)
    : list ColumnConfig :=
  match cs, ds with
  | c :: cs', d :: ds' =>
      mkColumnConfig (table c) d (type c) i :: projected_columns (i + 1)%Z cs' ds'
  | _, _ => []
  end.

(** ** Worked inputs *)

Definition t_table : Table :=
  from_file "t" [("id", "int"); ("label", "str")]
    [ [VInt 1; VStr "a"]; [VInt 2; VStr "b"]; [VInt 3; VStr "c"] ].

Definition unqualified (n : string) : ColumnRef := mkColumnRef None n.
Definition qualified (t n : string) : ColumnRef := mkColumnRef (Some t) n.

Definition select (column_ref : ColumnRef) (as_name : option string) : select_query :=
  mkSelectQuery column_ref as_name.

Definition id_gt_1 : where_query :=
  IsColumnToLiteralWhere
    (mkColumnToLiteralWhere ">" (TermColumn (unqualified "id")) (TermLitInt 1) Left Right).

Definition label_ne_c : where_query :=
  IsColumnToLiteralWhere
    (mkColumnToLiteralWhere "!=" (TermColumn (unqualified "label")) (TermLitStr "c") Left Right).

Definition two_ids : Table :=
  merge_tables (apply_as_exp t_table "a") (apply_as_exp t_table "b").

Definition s_table : Table :=
  from_file "s" [("first", "str"); ("last", "str"); ("age", "int")]
    [ [VStr "ada"; VStr "lovelace"; VInt 36] ].

Definition column_term_of (n : string) : term := TermColumn (unqualified n).

Definition first_gt_b : ColumnToLiteralWhere :=
  mkColumnToLiteralWhere ">" (column_term_of "first") (TermLitStr "b") Left Right.

Definition first_gt_1 : ColumnToLiteralWhere :=
  mkColumnToLiteralWhere ">" (column_term_of "first") (TermLitInt 1) Left Right.

Definition first_gt_last : ColumnToColumnWhere :=
  mkColumnToColumnWhere ">" (column_term_of "first") (column_term_of "last").

Definition age_eq_str : ColumnToLiteralWhere :=
  mkColumnToLiteralWhere "=" (column_term_of "age") (TermLitStr "36") Left Right.

Definition first_eq_age : ColumnToColumnWhere :=
  mkColumnToColumnWhere "=" (column_term_of "first") (column_term_of "age").

(** ** The rest of the program: printer, loader and query driver *)

(** *** Pretty printing *)

(** [str(value)]: the decimal numeral of an int, a str itself, the word
    [None]. *)
Definition str (v : value) : string :=
  match v with
  | VInt z => pretty z
  | VStr s => s
  | VNone => "None"
  end.

(** [s * n] *)
Fixpoint str_repeat (s : string) (n : nat) : string :=
  match n with
  | O => EmptyString
  | S n' => s +:+ str_repeat s n'
  end.

(** The format strings ['{:<w}'] and ['{:>w}']. *)
Inductive formatter :=
| LeftAligned (width : nat)
| RightAligned (width : nat).

(** The text of an int or a str padded with spaces up to the width, never
    cut. *)
Definition pad (f : formatter) (text : string) : string :=
  match f with
  | LeftAligned width => text +:+ str_repeat " " (width - String.length text)
  | RightAligned width => str_repeat " " (width - String.length text) +:+ text
  end.

(** [formatter.format(value)]: an int and a str accept the alignment and
    width of the format string; [None] takes no format specification and
    raises a [TypeError]. *)
Definition format (f : formatter) (v : value) : result string :=
  match v with
  | VInt _ | VStr _ => Ok (pad f (str v))
  | VNone => Raise TypeError
  end.

Definition printable_rows_with_column_headers (self : Table)
    : list string * list row :=
  (name <$> columns self, rows self).

(** The generator over [zip(formatters, row)] is consumed by [join], cell
    by cell from the left. *)
Definition stringify_row (divider : string) (formatters : list formatter) (r : row)
    : result string :=
  let* row_stringified := for_each (fun fv => format fv.1 fv.2) (zip formatters r) in
  Ok (String.concat divider row_stringified).

Definition create_col_formatters (col_max_widths : list nat) : result (list formatter) :=
  let all_but_last := LeftAligned <$> take (length col_max_widths - 1) col_max_widths in
  let* last_width := py_index col_max_widths (-1) in
  Ok (all_but_last ++ [RightAligned last_width]).

(** The inner loop of [find_col_max_widths], over [range(num_columns)]. *)
Fixpoint widths_of_row (r : row) (indexes : list nat) (col_max_widths : list nat)
    : result (list nat) :=
  match indexes with
  | [] => Ok col_max_widths
  | index :: rest =>
      let* cell := py_index r (Z.of_nat index) in
      let curr_len := String.length (str cell) in
      let* seen := py_index col_max_widths (Z.of_nat index) in
      widths_of_row r rest
        (if (seen <? curr_len)%nat
         then <[index := curr_len]> col_max_widths
         else col_max_widths)
  end.

(** The outer loop of [find_col_max_widths]. *)
Fixpoint widths_of_rows (all_rows : list row) (indexes : list nat)
    (col_max_widths : list nat) : result (list nat) :=
  match all_rows with
  | [] => Ok col_max_widths
  | r :: rest =>
      let* updated := widths_of_row r indexes col_max_widths in
      widths_of_rows rest indexes updated
  end.

Definition find_col_max_widths (all_rows : list row) : result (list nat) :=
  let* first := py_index all_rows 0 in
  let num_columns := length first in
  widths_of_rows all_rows (seq 0 num_columns) (replicate num_columns 0).

Definition newline : string := String (Ascii.ascii_of_nat 10) EmptyString.

(** The tuple of lines [pretty_print_table] joins: header, rule, rows.  The
    header tuple of column names is a row of strs. *)
Definition pretty_print_lines (query_table : Table) : result (list string) :=
  let printable := printable_rows_with_column_headers query_table in
  let header : row := VStr <$> printable.1 in
  let all_rows := printable.2 in
  let col_divider := " | " in
  let* col_max_widths := find_col_max_widths (header :: all_rows) in
  let* col_formatters := create_col_formatters col_max_widths in
  let divider_widths :=
    ((Z.of_nat (length col_max_widths) - 1) * Z.of_nat (String.length col_divider))%Z in
  let total_max_width := (Z.of_nat (sum_list col_max_widths) + divider_widths)%Z in
  let str_row_divider := str_repeat "-" (Z.to_nat total_max_width) in
  let* str_headers := stringify_row col_divider col_formatters header in
  let* str_rows := for_each (stringify_row col_divider col_formatters) all_rows in
  Ok (str_headers :: str_row_divider :: str_rows).

(** [pretty_print_table]: the text handed to [print]. *)
Definition pretty_print_table (query_table : Table) : result string :=
  let* lines := pretty_print_lines query_table in
  Ok (String.concat newline lines).

(** *** The table loader *)

(** A non-empty array of a table file: its first element, a list of
    entries that are lists of strings, and the data rows after it. *)
Record table_file := mkTableFile {
  file_header : list (list string);
  file_rows : list row
}.

(** The array of a table file: empty, or a header followed by data rows. *)
Inductive json_array :=
| EmptyArray
| TableArray (raw : table_file).

(** What [json.load] makes of a file that exists: it raises on text that is
    not JSON and returns the array otherwise.  Documents of other shapes (a
    top-level value that is no array, header entries that are not lists of
    strings, rows that are not lists, cells that are booleans, fractional
    numbers, arrays or objects) are not part of the model. *)
Inductive file_content :=
| NotJson
| Json (raw_rows : json_array).

(** [len(raw_rows)] *)
Definition len (raw_rows : json_array) : Z :=
  match raw_rows with
  | EmptyArray => 0
  | TableArray raw => Z.of_nat (S (length (file_rows raw)))
  end.

(** [TableLoader]; [table_class] is always [Table]. *)
Record TableLoader := mkTableLoader {
  filename_extra : string;
  table_cache : gmap string Table
}.

(** What a run changes: the loader's cache and the printed lines. *)
Record state := mkState {
  table_loader : TableLoader;
  printed : list string
}.

(** The SquidErrors of the loader and of [run_query] and the exceptions of
    reading a file, beside the exceptions of the table engine. *)
Inductive run_exn :=
| EngineError (e : exn)
| TableDoesNotExist (table_name : string)
| TableAlreadyDeclared (new_table_name : string)
| JSONDecodeError
| ValueError.

Definition io (A : Type) : Type := state -> (run_exn + A) * state.

Definition io_ret {A} (a : A) : io A := fun st => (inr a, st).

Definition io_raise {A} (e : run_exn) : io A := fun st => (inl e, st).

Definition io_bind {A B} (m : io A) (k : A -> io B) : io B :=
  fun st =>
    match m st with
    | (inr a, st') => k a st'
    | (inl e, st') => (inl e, st')
    end.

Notation "'let!' x ':=' m 'in' k" := (io_bind m (fun x => k))
  (at level 10, x name, m at level 100, k at level 200).

(** An engine call inside the driver. *)
Definition io_lift {A} (m : result A) : io A :=
  match m with
  | Ok a => io_ret a
  | Raise e => io_raise (EngineError e)
  end.

Definition print (line : string) : io unit :=
  fun st => (inr tt, mkState (table_loader st) (printed st ++ [line])).

Definition name_to_filename (self : TableLoader) (table_name : string) : string :=
  table_name +:+ filename_extra self.

Definition dquote : string := String (Ascii.ascii_of_nat 34) EmptyString.

(** The target [[col_name, col_type]] of the loop of
    [validate_and_construct_col_configs]: an entry unpacks when it has
    exactly two items. *)
Definition unpack_entry (entry : list string) : option (string * string) :=
  match entry with
  | [col_name; col_type] => Some (col_name, col_type)
  | _ => None
  end.

(** All entries of the header unpacked, or none if one of them does not. *)
Definition unpack_entries (raw_columns : list (list string))
    : option (list (string * string)) :=
  mapM unpack_entry raw_columns.

(** The line [load_table_from_file] prints. *)
Definition announcement (filename : string) (num_rows : Z) : string :=
  "- Loaded " +:+ dquote +:+ filename +:+ dquote +:+ ", " +:+ pretty num_rows +:+ " rows.".

(** [load_table_from_file] against the files on disk.  Only the missing
    file is turned into a SquidError; every other exception leaves the
    function as it is: the decoding error of [json.load] before anything is
    printed, and after the announcement the IndexError of [raw_rows.pop(0)]
    on an empty array and the ValueError of a header entry that does not
    unpack into a name and a type.  The table is cached only when it has
    been built. *)
Definition load_table_from_file (files : gmap string file_content) (table_name : string)
    : io Table :=
  fun st =>
    let filename := name_to_filename (table_loader st) table_name in
    match files !! filename with
    | None => (inl (TableDoesNotExist table_name), st)
    | Some NotJson => (inl JSONDecodeError, st)
    | Some (Json raw_rows) =>
        let num_rows := (len raw_rows - 1)%Z in
        let announced :=
          mkState (table_loader st) (printed st ++ [announcement filename num_rows]) in
        match raw_rows with
        | EmptyArray => (inl (EngineError IndexError), announced)
        | TableArray raw =>
            match unpack_entries (file_header raw) with
            | None => (inl ValueError, announced)
            | Some raw_columns =>
                let new_table := from_file table_name raw_columns (file_rows raw) in
                (inr new_table,
                 mkState
                   (mkTableLoader (filename_extra (table_loader st))
                      (<[table_name := new_table]> (table_cache (table_loader st))))
                   (printed announced))
            end
        end
    end.

Definition load_or_get_table (files : gmap string file_content) (table_name : string)
    : io Table :=
  fun st =>
    match table_cache (table_loader st) !! table_name with
    | Some cached => (inr cached, st)
    | None => load_table_from_file files table_name st
    end.

(** *** The query driver *)

Record from_query := mkFromQuery {
  source_file : string;        (* from_query['source']['file'] *)
  from_as : option string      (* from_query['as'] *)
}.

Record raw_query := mkRawQuery {
  query_from : list from_query;
  query_select : list select_query;
  query_where : list raw_where_query   (* raw_query.get('where', []) *)
}.

(** [from_query['as'] or source_table_name] *)
Definition working_name (q : from_query) : string :=
  if truthy (from_as q) then default EmptyString (from_as q) else source_file q.

(** The [from] loop of [run_query]. *)
Fixpoint from_loop (files : gmap string file_content) (raw_from_queries : list from_query)
    (tables : list Table) (used_table_names : list string) : io (list Table) :=
  match raw_from_queries with
  | [] => io_ret tables
  | q :: rest =>
      let source_table_name := source_file q in
      let! loaded := load_or_get_table files source_table_name in
      let new_table_name := working_name q in
      if str_in_list new_table_name used_table_names then
        io_raise (TableAlreadyDeclared new_table_name)
      else
        let new_table :=
          if negb (String.eqb new_table_name source_table_name)
          then apply_as_exp loaded (default EmptyString (from_as q))
          else loaded in
        from_loop files rest (tables ++ [new_table]) (used_table_names ++ [new_table_name])
  end.

(** [while tables: query_table = merge_tables(query_table, tables.pop(0))] *)
Fixpoint merge_loop (query_table : Table) (tables : list Table) : Table :=
  match tables with
  | [] => query_table
  | table_to_merge :: rest => merge_loop (merge_tables query_table table_to_merge) rest
  end.

(** [tables.pop(0)] followed by the merge loop. *)
Definition merge_all (tables : list Table) : result Table :=
  match tables with
  | [] => Raise IndexError
  | query_table :: rest => Ok (merge_loop query_table rest)
  end.

(** [for where_query in all_where_queries: query_table = ...] *)
Fixpoint apply_where_queries (query_table : Table) (all_where_queries : list where_query)
    : result Table :=
  match all_where_queries with
  | [] => Ok query_table
  | q :: rest =>
      let* filtered := apply_where_query query_table q in
      apply_where_queries filtered rest
  end.

(** [run_query] up to and including the projection: the relation that is
    handed to the printer. *)
Definition run_query_table (files : gmap string file_content) (q : raw_query) : io Table :=
  let! tables := from_loop files (query_from q) [] [] in
  let! merged := io_lift (merge_all tables) in
  let! filtered :=
    (match query_where q with
     | [] => io_ret merged
     | raw_where_queries =>
         let! all_where_queries := io_lift (build_where_queries raw_where_queries) in
         io_lift (apply_where_queries merged all_where_queries)
     end) in
  io_lift (apply_select_queries filtered (query_select q)).

Definition run_query (files : gmap string file_content) (q : raw_query) : io unit :=
  let! query_table := run_query_table files q in
  let! text := io_lift (pretty_print_table query_table) in
  print text.

(** A fresh run: [TableLoader(table_class=Table)], nothing printed yet. *)
Definition initial_state : state :=
  mkState (mkTableLoader ".table.json" ∅) [].

(** *** Further notions used in the statements *)

(** The runtime type of a value, by the name of its class: for an int and a
    str it is the column type string. *)
Definition value_type (v : value) : string :=
  match v with
  | VInt _ => "int"
  | VStr _ => "str"
  | VNone => "NoneType"
  end.

(** The values [format] accepts. *)
Definition formattable (v : value) : bool :=
  match v with
  | VInt _ | VStr _ => true
  | VNone => false
  end.

(** Every value of every row has the declared type of the column at its
    offset. *)
Definition well_typed (R : Table) : Prop :=
  Forall (fun r : row =>
            forall i c v, columns R !! i = Some c -> r !! i = Some v ->
                          value_type v = type c) (rows R).

(** [col] with its position moved by [k], as [merge_tables] does. *)
Definition shift_column (k : Z) (col : ColumnConfig) : ColumnConfig :=
  mkColumnConfig (table col) (name col) (type col) (index col + k)%Z.

(** A file the loader turns into a table: an array with a header whose
    entries all unpack into a name and a type. *)
Definition loadable (content : file_content) (raw : table_file)
    (raw_columns : list (string * string)) : Prop :=
  content = Json (TableArray raw)
  /\ unpack_entries (file_header raw) = Some raw_columns.

(** A well-formed table file: it is loadable, it declares only the two
    supported column types, and its data rows fit the header, with one
    value per header entry, each of the declared type. *)
Definition file_well_formed (content : file_content) : Prop :=
  exists raw raw_columns,
    loadable content raw raw_columns
    /\ Forall (fun h : string * string => h.2 ∈ SUPPORTED_COLUMN_TYPES) raw_columns
    /\ Forall (fun r : row =>
                 Forall2 (fun (v : value) (h : string * string) => value_type v = h.2)
                         r raw_columns)
              (file_rows raw).

(** Every column has one of the two supported types. *)
Definition supported_types (R : Table) : Prop :=
  Forall (fun c => type c ∈ SUPPORTED_COLUMN_TYPES) (columns R).

(** A relation that satisfies the invariant, is well typed and has columns
    of the supported types only. *)
Definition well_formed (R : Table) : Prop :=
  Relation_inv R /\ well_typed R /\ supported_types R.

(** The loader can produce the table: it is cached, or its file is
    loadable. *)
Definition available (files : gmap string file_content) (st : state) (table_name : string)
    : Prop :=
  is_Some (table_cache (table_loader st) !! table_name)
  \/ exists content raw raw_columns,
       files !! name_to_filename (table_loader st) table_name = Some content
       /\ loadable content raw raw_columns.

(** The relation has a shape the printer can lay out: at least one column,
    and in every row a cell for each column. *)
Definition printable_shape (R : Table) : Prop :=
  columns R <> []
  /\ Forall (fun r : row => length (columns R) <= length r) (rows R).

(** The cells the printer formats, the first [len(columns)] of each row,
    are all ints and strs. *)
Definition printable_cells (R : Table) : Prop :=
  Forall (fun r : row => Forall (fun v => formattable v = true)
                                (take (length (columns R)) r))
         (rows R).

(** The width a formatter pads to. *)
Definition formatter_width (f : formatter) : nat :=
  match f with
  | LeftAligned width => width
  | RightAligned width => width
  end.

(** The printed length of a cell. *)
Definition cell_length (v : value) : nat := String.length (str v).

(** The line of a row whose cells all format: their padded texts, joined by
    the divider. *)
Definition padded_row (divider : string) (formatters : list formatter) (r : row)
    : string :=
  String.concat divider (zip_with (fun f v => pad f (str v)) formatters r).

(** A worked disk and query. *)
Definition t_file : table_file :=
  mkTableFile [ ["id"; "int"]; ["label"; "str"] ]
    [ [VInt 1; VStr "a"]; [VInt 2; VStr "b"]; [VInt 3; VStr "c"] ].

Definition disk : gmap string file_content :=
  {[ "t.table.json" := Json (TableArray t_file) ]}.

(** A disk of files the loader cannot turn into tables: an empty array,
    text that is not JSON, and a header with an entry of one item. *)
Definition broken_disk : gmap string file_content :=
  {[ "e.table.json" := Json EmptyArray;
     "j.table.json" := NotJson;
     "h.table.json" := Json (TableArray (mkTableFile [ ["id"; "int"]; ["label"] ]
                                                     [ [VInt 1; VStr "a"] ])) ]}.

(** A table with a null cell, and one with a short row. *)
Definition n_table : Table :=
  from_file "n" [("id", "int"); ("label", "str")]
    [ [VInt 1; VStr "a"]; [VInt 2; VNone] ].

Definition short_table : Table :=
  from_file "n" [("id", "int"); ("label", "str")]
    [ [VInt 1; VStr "a"]; [VNone] ].

Definition self_join_query : raw_query :=
  mkRawQuery
    [mkFromQuery "t" (Some "a"); mkFromQuery "t" (Some "b")]
    [select (qualified "a" "id") None; select (qualified "b" "label") None]
    [mkRawWhereQuery "<" (TermColumn (qualified "a" "id")) (TermColumn (qualified "b" "id"))].

(** Every file on disk is well formed; every cached table is well formed. *)
Definition files_ok (files : gmap string file_content) : Prop :=
  map_Forall (fun _ f => file_well_formed f) files.

Definition cache_ok (st : state) : Prop :=
  map_Forall (fun _ T => well_formed T) (table_cache (table_loader st)).

Definition twice_t_query : raw_query :=
  mkRawQuery [mkFromQuery "t" None; mkFromQuery "t" (Some "t")]
             [select (unqualified "id") None] [].

Definition empty_select_query : raw_query :=
  mkRawQuery [mkFromQuery "t" None] [] [].

Definition f_table : Table :=
  from_file "f" [("x", "float"); ("y", "float")] [ [VInt 1; VInt 2] ].

Definition x_eq_y : ColumnToColumnWhere :=
  mkColumnToColumnWhere "=" (TermColumn (unqualified "x")) (TermColumn (unqualified "y")).

(** The column references a where query resolves. *)
Definition term_refs (t : term) : list ColumnRef :=
  match t with
  | TermColumn column_ref => [column_ref]
  | _ => []
  end.

Definition where_refs (q : where_query) : list ColumnRef :=
  match q with
  | IsColumnToLiteralWhere q' => term_refs (column_term q')
  | IsColumnToColumnWhere q' => term_refs (ctc_left q') ++ term_refs (ctc_right q')
  end.

(** Every cached table carries its cache key as the qualifier of all its
    columns, as [from_file] builds it. *)
Definition cache_names_ok (st : state) : Prop :=
  map_Forall (fun n T => Forall (fun c => table c = n) (columns T))
             (table_cache (table_loader st)).

(** ** Results and loops: basic facts *)

Lemma bind_Ok {A B} (m : result A) (k : A -> result B) (b : B) :
  bind m k = Ok b -> exists a, m = Ok a /\ k a = Ok b.
Proof. destruct m as [a|e]; simpl; [eauto | discriminate]. Qed.

Ltac bind_inv H :=
  let x := fresh "x" in
  let Hx := fresh "Hx" in
  apply bind_Ok in H; destruct H as (x & Hx & H).

Lemma filter_rows_Ok test rs out :
  filter_rows test rs = Ok out <->
  Forall (fun r => is_ok (test r) = true) rs
  /\ out = List.filter (fun r => holds (test r)) rs.
Proof.
  revert out. induction rs as [|r rs IH]; intros out; simpl.
  - split.
    + intros [= <-]. split; [constructor | reflexivity].
    + intros [_ ->]. reflexivity.
  - destruct (test r) as [b|e] eqn:Hr; simpl.
    + destruct (filter_rows test rs) as [new_rows|e] eqn:Hrs; simpl.
      * destruct (IH new_rows) as [IH1 _].
        destruct (IH1 eq_refl) as [Hall ->].
        split.
        -- intros [= <-]. split.
           ++ constructor; [by rewrite Hr | done].
           ++ by destruct b.
        -- intros [_ ->]. by destruct b.
      * split; [discriminate |].
        intros [Hall _]. apply Forall_cons in Hall as [_ Hall].
        destruct (IH (List.filter (fun r => holds (test r)) rs)) as [_ IH2].
        discriminate (IH2 (conj Hall eq_refl)).
    + split; [discriminate |].
      intros [Hall _]. apply Forall_cons in Hall as [Hbad _].
      rewrite Hr in Hbad. discriminate.
Qed.

Lemma list_filter_sublist {A} (f : A -> bool) (l : list A) :
  List.filter f l `sublist_of` l.
Proof.
  induction l as [|x l IH]; simpl; [constructor |].
  destruct (f x); by constructor.
Qed.

Lemma list_filter_filter {A} (f g : A -> bool) (l : list A) :
  List.filter g (List.filter f l) = List.filter (fun x => f x && g x) l.
Proof.
  induction l as [|x l IH]; simpl; [done |].
  destruct (f x) eqn:Hf; simpl; [destruct (g x) |]; by rewrite ?IH.
Qed.

Lemma list_filter_Forall {A} (P : A -> Prop) (f : A -> bool) (l : list A) :
  Forall P l -> Forall P (List.filter f l).
Proof.
  induction 1 as [|x l Hx Hl IH]; simpl; [constructor |].
  destruct (f x); [by constructor | done].
Qed.

Lemma py_index_position {A} (l : list A) (k : nat) (x : A) :
  l !! k = Some x -> py_index l (Z.of_nat k) = Ok x.
Proof.
  intros H. unfold py_index.
  destruct (Z.ltb_spec (Z.of_nat k) 0); [lia |].
  destruct (Z.ltb_spec (Z.of_nat k) 0); [lia |].
  by rewrite Nat2Z.id, H.
Qed.

Lemma py_index_raises {A} (l : list A) (i : Z) (e : exn) :
  py_index l i = Raise e -> e = IndexError.
Proof.
  unfold py_index. destruct (_ <? 0)%Z; [by intros [= <-] |].
  destruct (l !! _); [discriminate | by intros [= <-]].
Qed.

Lemma Forall2_impl_elem_of {A B} (P Q : A -> B -> Prop) (l : list A) (k : list B) :
  Forall2 P l k -> (forall x y, x ∈ l -> P x y -> Q x y) -> Forall2 Q l k.
Proof.
  induction 1 as [|x y l k Hxy HF IH]; intros HPQ; constructor.
  - apply HPQ; [by left | done].
  - apply IH. intros x' y' Hin. apply HPQ. by right.
Qed.

Section for_each_facts.
Context {A B : Type} (f : A -> result B).

Lemma for_each_length (xs : list A) (ys : list B) :
  for_each f xs = Ok ys -> length ys = length xs.
Proof.
  revert ys. induction xs as [|x xs IH]; intros ys; simpl.
  - by intros [= <-].
  - intros H. bind_inv H. bind_inv H. injection H as <-.
    simpl. f_equal. by apply IH.
Qed.

Lemma for_each_Forall2 (xs : list A) (ys : list B) :
  for_each f xs = Ok ys -> Forall2 (fun x y => f x = Ok y) xs ys.
Proof.
  revert ys. induction xs as [|x xs IH]; intros ys; simpl.
  - intros [= <-]. constructor.
  - intros H. bind_inv H. bind_inv H. injection H as <-. constructor; eauto.
Qed.

Lemma for_each_Forall (P : B -> Prop) (xs : list A) (ys : list B) :
  (forall x y, f x = Ok y -> P y) ->
  for_each f xs = Ok ys -> Forall P ys.
Proof.
  intros Hf H. apply for_each_Forall2 in H.
  induction H; constructor; eauto.
Qed.

Lemma for_each_total (xs : list A) :
  Forall (fun x => exists y, f x = Ok y) xs -> exists ys, for_each f xs = Ok ys.
Proof.
  induction 1 as [|x xs [y Hy] _ [ys Hys]]; simpl; [by eexists |].
  rewrite Hy, Hys. simpl. by eexists.
Qed.

Lemma for_each_raises (xs : list A) (e : exn) :
  for_each f xs = Raise e -> exists x, x ∈ xs /\ f x = Raise e.
Proof.
  induction xs as [|x xs IH]; simpl; [discriminate |].
  destruct (f x) as [y|e'] eqn:Hx; simpl.
  - destruct (for_each f xs) as [ys|e'] eqn:Hxs; simpl; [discriminate |].
    intros [= <-]. destruct (IH eq_refl) as (x' & Hin & Hx').
    exists x'. split; [by right | done].
  - intros [= <-]. exists x. split; [by left | done].
Qed.

End for_each_facts.

(** ** Column resolution *)

Lemma all_conditions column_ref c :
  all (conditions column_ref c) = ref_matches column_ref c.
Proof.
  unfold all, conditions, ref_matches, qualifier, truthy.
  destruct (ref_table column_ref) as [q|]; simpl.
  - destruct (String.eqb q ""); simpl;
      destruct (String.eqb (name c) (ref_name column_ref));
      destruct (String.eqb (table c) q); reflexivity.
  - by destruct (String.eqb (name c) (ref_name column_ref)).
Qed.

Lemma find_columns_filter column_ref cols found :
  find_columns column_ref cols found
  = found ++ List.filter (ref_matches column_ref) cols.
Proof.
  revert found. induction cols as [|c cols IH]; intros found; simpl.
  - by rewrite app_nil_r.
  - rewrite IH, all_conditions.
    destruct (ref_matches column_ref c); [by rewrite <- app_assoc | done].
Qed.

Lemma col_config_by_column_ref_resolution self column_ref :
  col_config_by_column_ref self column_ref
  = resolution column_ref (List.filter (ref_matches column_ref) (columns self)).
Proof.
  unfold col_config_by_column_ref. rewrite find_columns_filter. simpl.
  destruct (List.filter (ref_matches column_ref) (columns self)) as [|c [|c' l]];
    reflexivity.
Qed.

Lemma col_config_by_column_ref_columns self self' column_ref :
  columns self = columns self' ->
  col_config_by_column_ref self column_ref = col_config_by_column_ref self' column_ref.
Proof. intros H. unfold col_config_by_column_ref. by rewrite H. Qed.

Lemma ref_matches_spec column_ref c :
  ref_matches column_ref c = true <->
  name c = ref_name column_ref
  /\ (forall q, qualifier column_ref = Some q -> table c = q).
Proof.
  unfold ref_matches. rewrite andb_true_iff, String.eqb_eq.
  destruct (qualifier column_ref) as [q|].
  - rewrite String.eqb_eq. split.
    + intros [Hn Ht]. split; [done |]. by intros ? [= <-].
    + intros [Hn Ht]. split; [done |]. by apply Ht.
  - split; intros [Hn _]; (split; [done |]); [intros ?; discriminate | done].
Qed.

(** ** The Relation invariant *)

(** [positions_ok] says what the data model asks of positions: the column
    at offset i has position i, and positions are pairwise distinct. *)
Lemma positions_ok_spec (cols : list ColumnConfig) :
  positions_ok cols ->
  (forall i c, cols !! i = Some c -> index c = Z.of_nat i)
  /\ NoDup (index <$> cols).
Proof.
  unfold positions_ok. intros H. split.
  - intros i c Hc.
    assert ((index <$> cols) !! i = Some (index c)) as Hi
      by (by rewrite list_lookup_fmap, Hc).
    rewrite H in Hi. apply lookup_seqZ in Hi as [-> _]. lia.
  - rewrite H. apply NoDup_seqZ.
Qed.

Lemma t_table_inv : Relation_inv t_table.
Proof. split; [reflexivity | repeat constructor]. Qed.

(** ** The where evaluators as validation followed by a stable filter *)

Lemma apply_column_to_literal_where_query_test self q :
  apply_column_to_literal_where_query self q
  = (let* test := column_to_literal_test self q in
     let* new_rows := filter_rows test (rows self) in
     Ok (mkTable (columns self) new_rows)).
Proof.
  unfold apply_column_to_literal_where_query, column_to_literal_test.
  destruct (term_column (column_term q)) as [column_ref|]; cbn [bind]; [|done].
  destruct (col_config_by_column_ref self column_ref) as [col_config|]; cbn [bind]; [|done].
  destruct (negb _); [done |].
  destruct (getitem SUPPORTED_OPS_BY_COLUMN_TYPE _) as [supported|]; cbn [bind]; [|done].
  destruct (negb _); [done |].
  destruct (getitem OPERATOR_FUNCS _) as [operator_func|]; cbn [bind]; [|done].
  destruct (term_literal _ _) as [literal_value|]; cbn [bind]; [|done].
  by destruct (column_side q).
Qed.

Lemma apply_column_to_column_where_query_test self q :
  apply_column_to_column_where_query self q
  = (let* test := column_to_column_test self q in
     let* new_rows := filter_rows test (rows self) in
     Ok (mkTable (columns self) new_rows)).
Proof.
  unfold apply_column_to_column_where_query, column_to_column_test.
  destruct (term_column (ctc_left q)) as [left_ref|]; cbn [bind]; [|done].
  destruct (col_config_by_column_ref self left_ref) as [left_col|]; cbn [bind]; [|done].
  destruct (term_column (ctc_right q)) as [right_ref|]; cbn [bind]; [|done].
  destruct (col_config_by_column_ref self right_ref) as [right_col|]; cbn [bind]; [|done].
  destruct (negb _); [done |].
  destruct (getitem SUPPORTED_OPS_BY_COLUMN_TYPE _) as [supported|]; cbn [bind]; [|done].
  destruct (negb _); [done |].
  by destruct (getitem OPERATOR_FUNCS _) as [operator_func|].
Qed.

Lemma apply_where_query_test self q :
  apply_where_query self q
  = (let* test := where_test self q in
     let* new_rows := filter_rows test (rows self) in
     Ok (mkTable (columns self) new_rows)).
Proof.
  destruct q; cbn [apply_where_query where_test];
    [apply apply_column_to_literal_where_query_test
    | apply apply_column_to_column_where_query_test].
Qed.

Lemma where_test_columns self self' q :
  columns self = columns self' -> where_test self q = where_test self' q.
Proof.
  intros H. destruct q as [q|q]; cbn [where_test].
  - unfold column_to_literal_test.
    destruct (term_column (column_term q)) as [column_ref|]; cbn [bind]; [|done].
    by rewrite (col_config_by_column_ref_columns self self' column_ref H).
  - unfold column_to_column_test.
    destruct (term_column (ctc_left q)) as [left_ref|]; cbn [bind]; [|done].
    rewrite (col_config_by_column_ref_columns self self' left_ref H).
    destruct (col_config_by_column_ref self' left_ref) as [left_col|]; cbn [bind]; [|done].
    destruct (term_column (ctc_right q)) as [right_ref|]; cbn [bind]; [|done].
    by rewrite (col_config_by_column_ref_columns self self' right_ref H).
Qed.

(** A successful evaluation, decomposed. *)
Lemma apply_where_query_Ok self q out :
  apply_where_query self q = Ok out <->
  exists test,
    where_test self q = Ok test
    /\ Forall (fun r => is_ok (test r) = true) (rows self)
    /\ out = mkTable (columns self) (List.filter (fun r => holds (test r)) (rows self)).
Proof.
  rewrite apply_where_query_test. split.
  - intros H. bind_inv H. rename x into test. bind_inv H. injection H as <-.
    apply filter_rows_Ok in Hx0 as [Hall ->]. eauto.
  - intros (test & Ht & Hall & ->). rewrite Ht. cbn [bind].
    assert (filter_rows test (rows self)
            = Ok (List.filter (fun r => holds (test r)) (rows self))) as ->
      by (by apply filter_rows_Ok).
    reflexivity.
Qed.

Lemma satisfies_test self q test r :
  where_test self q = Ok test -> satisfies self q r = holds (test r).
Proof. intros H. unfold satisfies. by rewrite H. Qed.

(** ** Worked where queries on [t_table] *)

Example id_gt_1_built :
  ColumnToLiteralWhere_new ">" (TermColumn (unqualified "id")) (TermLitInt 1)
  = Ok (mkColumnToLiteralWhere ">" (TermColumn (unqualified "id")) (TermLitInt 1) Left Right).
Proof. reflexivity. Qed.

Example where_id_gt_1 :
  apply_where_query t_table id_gt_1
  = Ok (mkTable (columns t_table) [ [VInt 2; VStr "b"]; [VInt 3; VStr "c"] ]).
Proof. vm_compute. reflexivity. Qed.

(** ** C1: the column-to-literal constructor *)

(** The constructor, case by case on the two terms. *)
Lemma ColumnToLiteralWhere_new_cases (op : string) (l r : term) :
  ColumnToLiteralWhere_new op l r
  = match l, r with
    | TermColumn _, TermColumn _ => Raise (SquidError ColumnToColumnGiven)
    | TermColumn _, _ => Ok (mkColumnToLiteralWhere op l r Left Right)
    | _, _ => Raise (SquidError MalformedWhere)
    end.
Proof. destruct l, r; reflexivity. Qed.

(** C1 (behaviour of the code).  For every operator, every literal term on
    the left and every column term on the right, the constructor raises
    "malformed where expression": no predicate with column_side = Right is
    ever built. *)
Theorem literal_left_column_right_is_rejected (op : string) (column_ref : ColumnRef) :
  (forall z, ColumnToLiteralWhere_new op (TermLitInt z) (TermColumn column_ref)
             = Raise (SquidError MalformedWhere))
  /\ (forall s, ColumnToLiteralWhere_new op (TermLitStr s) (TermColumn column_ref)
                = Raise (SquidError MalformedWhere)).
Proof. split; reflexivity. Qed.

(** The same input reaches the constructor from a parsed query: a where
    entry [1 < id] aborts the query, while [id > 1] is accepted. *)
Example build_where_queries_literal_left :
  build_where_queries
    [mkRawWhereQuery "<" (TermLitInt 1) (TermColumn (unqualified "id"))]
  = Raise (SquidError MalformedWhere)
  /\ build_where_queries
       [mkRawWhereQuery ">" (TermColumn (unqualified "id")) (TermLitInt 1)]
     = Ok [id_gt_1].
Proof. split; reflexivity. Qed.

(** The evaluator itself handles a predicate whose column is on the right:
    it keeps the rows where [compare(literal, row[col.index])] holds. *)
Lemma column_on_the_right_evaluation :
  apply_column_to_literal_where_query t_table
    (mkColumnToLiteralWhere "<" (TermLitInt 1) (TermColumn (unqualified "id")) Right Left)
  = Ok (mkTable (columns t_table) [ [VInt 2; VStr "b"]; [VInt 3; VStr "c"] ]).
Proof. vm_compute. reflexivity. Qed.

(** ** C2, C3: projection when one column is selected twice *)

(** C2 (behaviour of the code).  [select id as x, id as y] on [t_table]: both
    entries resolve uniquely and the display names x and y are distinct, yet
    both output columns are named y, because the names are kept in a
    dictionary keyed by the resolved column. *)
Theorem select_same_column_twice_loses_first_name :
  apply_select_queries t_table
    [select (unqualified "id") (Some "x"); select (unqualified "id") (Some "y")]
  = Ok (mkTable
          [mkColumnConfig "t" "y" "int" 0; mkColumnConfig "t" "y" "int" 1]
          [ [VInt 1; VInt 1]; [VInt 2; VInt 2]; [VInt 3; VInt 3] ]).
Proof. vm_compute. reflexivity. Qed.

(** C3 (behaviour of the code).  [select id as x, id as y, label as x] on
    [t_table]: the first and third entries produce the same display name x,
    yet projection returns a relation instead of failing with
    DuplicateSelectName, because the second entry overwrote the name kept
    for [id]. *)
Theorem select_duplicate_name_goes_undetected :
  apply_select_queries t_table
    [select (unqualified "id") (Some "x"); select (unqualified "id") (Some "y");
     select (unqualified "label") (Some "x")]
  = Ok (mkTable
          [mkColumnConfig "t" "y" "int" 0; mkColumnConfig "t" "y" "int" 1;
           mkColumnConfig "t" "x" "str" 2]
          [ [VInt 1; VInt 1; VStr "a"]; [VInt 2; VInt 2; VStr "b"];
            [VInt 3; VInt 3; VStr "c"] ]).
Proof. vm_compute. reflexivity. Qed.

(** The check does fire when the repeated name belongs to distinct columns
    selected once each. *)
Example select_duplicate_name_detected :
  apply_select_queries t_table
    [select (unqualified "id") (Some "x"); select (unqualified "label") (Some "x")]
  = Raise (SquidError (DuplicateSelectName "x")).
Proof. vm_compute. reflexivity. Qed.

(** ** Projection: what holds when every column is selected once *)

Lemma col_name_display_name (q : select_query) (c : ColumnConfig) :
  (if truthy (select_as q) then default "" (select_as q) else name c)
  = display_name q c.
Proof.
  unfold display_name, truthy. destruct (select_as q) as [s|]; [|done].
  simpl. by destruct (String.eqb s "").
Qed.

Lemma resolves_to_column (R : Table) (q : select_query) (c : ColumnConfig) :
  resolves_to R q c -> c ∈ columns R.
Proof.
  unfold resolves_to. rewrite col_config_by_column_ref_resolution.
  destruct (List.filter _ _) as [|c0 [|c1 l]] eqn:Hf; simpl; try discriminate.
  intros [= <-].
  assert (In c0 (List.filter (ref_matches (source_column q)) (columns R))) as Hin
    by (rewrite Hf; by left).
  apply List.filter_In in Hin as [Hin _]. by apply list_elem_of_In.
Qed.

Lemma select_loop_selected_once (R : Table) (qs : list select_query)
    (cs : list ColumnConfig) (found : list ColumnConfig)
    (names : gmap ColumnConfig string) :
  Forall2 (resolves_to R) qs cs ->
  NoDup cs ->
  NoDup (display_names qs cs) ->
  (forall d, d ∈ display_names qs cs -> d ∉ (map_img names : gset string)) ->
  exists names',
    select_loop R qs found names = Ok (found ++ cs, names')
    /\ Forall2 (fun c d => names' !! c = Some d) cs (display_names qs cs)
    /\ (forall c, c ∉ cs -> names' !! c = names !! c).
Proof.
  intros HF. revert found names.
  induction HF as [|q c qs cs Hqc HF IH]; intros found names Hcs Hds Hfresh.
  - exists names. simpl. rewrite app_nil_r. repeat split. constructor.
  - unfold display_names in *. cbn [zip_with] in *.
    apply NoDup_cons in Hcs as [Hc Hcs]. apply NoDup_cons in Hds as [Hd Hds].
    cbn [select_loop]. unfold resolves_to in Hqc. rewrite Hqc. cbn [bind].
    rewrite col_name_display_name.
    rewrite bool_decide_eq_false_2 by (apply Hfresh; left).
    destruct (IH (found ++ [c]) (<[c:=display_name q c]> names) Hcs Hds)
      as (names' & Hloop & Hnames & Hframe).
    { intros d Hin Himg. apply elem_of_map_img in Himg as [k Hk].
      apply lookup_insert_Some in Hk as [[_ <-] | [_ Hk]]; [done |].
      apply (Hfresh d); [by right | by apply (elem_of_map_img_2 _ k)]. }
    exists names'. rewrite Hloop, <- app_assoc. split; [done |]. split.
    + constructor; [|done]. rewrite Hframe by done. apply lookup_insert_eq.
    + intros c' Hc'. apply not_elem_of_cons in Hc' as [Hne Hc'].
      rewrite Hframe by done. by apply lookup_insert_ne.
Qed.

Lemma rename_columns_projected names (i : Z) (cs : list ColumnConfig) (ds : list string) :
  Forall2 (fun c d => names !! c = Some d) cs ds ->
  rename_columns names i cs = Ok (projected_columns i cs ds).
Proof.
  intros HF. revert i. induction HF as [|c d cs ds Hcd HF IH]; intros i; [done |].
  cbn [rename_columns projected_columns]. unfold dict_getitem. rewrite Hcd.
  cbn [bind]. by rewrite IH.
Qed.

Lemma projected_columns_lookup (i : Z) cs ds (k : nat) c d :
  cs !! k = Some c -> ds !! k = Some d ->
  projected_columns i cs ds !! k
  = Some (mkColumnConfig (table c) d (type c) (i + Z.of_nat k)).
Proof.
  revert i ds k. induction cs as [|c0 cs IH]; intros i ds k Hc Hd; [done |].
  destruct ds as [|d0 ds]; [done |]. destruct k as [|k]; simpl in *.
  - injection Hc as ->. injection Hd as ->. do 2 f_equal. lia.
  - rewrite (IH (i + 1)%Z ds k) by done. do 2 f_equal. lia.
Qed.

Lemma projected_columns_length (i : Z) cs ds :
  length cs = length ds -> length (projected_columns i cs ds) = length cs.
Proof.
  revert i ds. induction cs as [|c cs IH]; intros i [|d ds]; simpl; try done.
  intros [= H]. f_equal. by apply IH.
Qed.

(** The value an input row holds for a column of a relation that satisfies
    the invariant is found by [row[col.index]]. *)
Lemma extraction_in_range (R : Table) (r : row) (c : ColumnConfig) :
  Relation_inv R -> r ∈ rows R -> c ∈ columns R ->
  exists v, py_index r (index c) = Ok v /\ r !! Z.to_nat (index c) = Some v.
Proof.
  intros [Hp Hr] Hin Hc.
  apply list_elem_of_lookup in Hc as [k Hk].
  destruct (positions_ok_spec _ Hp) as [Hpos _].
  rewrite (Hpos k c Hk), Nat2Z.id.
  rewrite Forall_forall in Hr. specialize (Hr r Hin).
  destruct (lookup_lt_is_Some_2 r k) as [v Hv].
  { rewrite Hr. by eapply lookup_lt_Some. }
  exists v. split; [by apply py_index_position | done].
Qed.

(** Projection when no column is selected by two entries: on a relation
    that satisfies the invariant, with every entry resolving and all display
    names distinct, projection returns the relation whose columns are the
    resolved columns in select-list order, renamed to their display names and
    repositioned 0..k-1, and whose rows are, one per input row and in the
    same order, the values of that row at the resolved columns' positions. *)
Theorem projection_of_columns_selected_once (R : Table) (qs : list select_query)
    (cs : list ColumnConfig) :
  Relation_inv R ->
  Forall2 (resolves_to R) qs cs ->
  NoDup cs ->
  NoDup (display_names qs cs) ->
  exists R',
    apply_select_queries R qs = Ok R'
    /\ columns R' = projected_columns 0 cs (display_names qs cs)
    /\ length (columns R') = length qs
    /\ (forall k q c, qs !! k = Some q -> cs !! k = Some c ->
          columns R' !! k
          = Some (mkColumnConfig (table c) (display_name q c) (type c) (Z.of_nat k)))
    /\ length (rows R') = length (rows R)
    /\ Forall2 (fun r r' =>
                  Forall2 (fun c v => r !! Z.to_nat (index c) = Some v) cs r')
               (rows R) (rows R').
Proof.
  intros Hinv HF Hcs Hds.
  destruct (select_loop_selected_once R qs cs [] ∅ HF Hcs Hds)
    as (names' & Hloop & Hnames & _).
  { intros d _ Himg. apply elem_of_map_img in Himg as [k Hk].
    by rewrite lookup_empty in Hk. }
  assert (Forall (fun c => c ∈ columns R) cs) as Hcols.
  { clear -HF. induction HF; constructor; eauto using resolves_to_column. }
  destruct (for_each_total
              (fun existing_row => for_each (py_index existing_row) (index <$> cs))
              (rows R)) as [new_rows Hrows].
  { apply Forall_forall. intros r Hr. apply for_each_total.
    apply Forall_fmap. eapply Forall_impl; [exact Hcols |].
    intros c Hc. simpl. destruct (extraction_in_range R r c) as (v & Hv & _); eauto. }
  exists (mkTable (projected_columns 0 cs (display_names qs cs)) new_rows).
  assert (length cs = length (display_names qs cs)) as Hlen
    by (by eapply Forall2_length).
  split; [|split; [done | split; [|split; [|split]]]].
  - unfold apply_select_queries. rewrite Hloop. cbn [bind fst snd app].
    unfold filter_rows_by_column_indexes. rewrite Hrows. cbn [bind].
    by rewrite (rename_columns_projected names' 0 cs (display_names qs cs)).
  - cbn [columns]. rewrite projected_columns_length by done.
    symmetry. by eapply Forall2_length.
  - intros k q c Hq Hc. cbn [columns].
    rewrite (projected_columns_lookup 0 cs _ k c (display_name q c)); [done | done |].
    unfold display_names. by rewrite lookup_zip_with, Hq, Hc.
  - cbn [rows]. by apply for_each_length in Hrows.
  - cbn [rows]. apply for_each_Forall2 in Hrows.
    eapply Forall2_impl_elem_of; [exact Hrows |].
    intros r r' Hin Hr. cbn beta in Hr. apply for_each_Forall2 in Hr.
    apply Forall2_fmap_l in Hr.
    cut (Forall (fun c => c ∈ columns R) cs); [| exact Hcols].
    clear -Hr Hinv Hin. induction Hr as [|c v cs r' Hcv Hr IH]; [constructor |].
    intros Hall. apply Forall_cons in Hall as [Hc Hall].
    constructor; [|by apply IH].
    destruct (extraction_in_range R r c) as (v' & Hv' & Hlook); [done.. |].
    simpl in Hcv. congruence.
Qed.

Lemma projection_of_columns_selected_once_witness :
  exists R',
    apply_select_queries t_table
      [select (unqualified "id") (Some "x"); select (unqualified "label") None] = Ok R'
    /\ columns R' = [mkColumnConfig "t" "x" "int" 0; mkColumnConfig "t" "label" "str" 1].
Proof.
  destruct (projection_of_columns_selected_once t_table
              [select (unqualified "id") (Some "x"); select (unqualified "label") None]
              (columns t_table))
    as (R' & Happ & Hcols & _).
  - exact t_table_inv.
  - repeat constructor.
  - compute_done.
  - compute_done.
  - exists R'. split; [exact Happ | exact Hcols].
Defined.

(** ** Projection: the duplicate-name check *)

(** The check never fires without cause: a DuplicateSelectName failure
    names a display name produced by two entries. *)
Lemma select_loop_duplicate_sound (R : Table) (qs : list select_query)
    (cs : list ColumnConfig) (found : list ColumnConfig)
    (names : gmap ColumnConfig string) (d : string) :
  Forall2 (resolves_to R) qs cs ->
  select_loop R qs found names = Raise (SquidError (DuplicateSelectName d)) ->
  (d ∈ (map_img names : gset string) /\ d ∈ display_names qs cs)
  \/ (exists i j, i < j
        /\ display_names qs cs !! i = Some d
        /\ display_names qs cs !! j = Some d).
Proof.
  intros HF. revert found names.
  induction HF as [|q c qs cs Hqc HF IH]; intros found names; [discriminate |].
  unfold display_names in *. cbn [zip_with select_loop].
  unfold resolves_to in Hqc. rewrite Hqc. cbn [bind].
  rewrite col_name_display_name.
  destruct (bool_decide_reflect
              (display_name q c ∈ (map_img names : gset string))) as [Hin | Hnin].
  - intros [= <-]. left. split; [done | by left].
  - intros H. apply IH in H as [[Himg Hd] | (i & j & Hij & Hi & Hj)].
    + apply elem_of_map_img in Himg as [k Hk].
      apply lookup_insert_Some in Hk as [[_ <-] | [_ Hk]].
      * right. apply list_elem_of_lookup in Hd as [j Hj].
        exists 0, (S j). repeat split; [lia | done].
      * left. split; [by apply (elem_of_map_img_2 _ k) | by right].
    + right. exists (S i), (S j). repeat split; [lia | done | done].
Qed.

Lemma rename_columns_raises names (i : Z) cs (e : exn) :
  rename_columns names i cs = Raise e -> e = KeyError.
Proof.
  revert i. induction cs as [|c cs IH]; intros i; simpl; [discriminate |].
  unfold dict_getitem. destruct (names !! c); simpl; [|by intros [= <-]].
  destruct (rename_columns names (i + 1) cs) eqn:Hr; simpl; [discriminate |].
  intros [= <-]. by eapply IH.
Qed.

Lemma apply_select_queries_duplicate (R : Table) (qs : list select_query) (d : string) :
  apply_select_queries R qs = Raise (SquidError (DuplicateSelectName d)) ->
  select_loop R qs [] ∅ = Raise (SquidError (DuplicateSelectName d)).
Proof.
  unfold apply_select_queries.
  destruct (select_loop R qs [] ∅) as [[found names]|e]; cbn [bind fst snd];
    [|by intros [= ->]].
  intros H. exfalso.
  destruct (filter_rows_by_column_indexes _ _) as [new_rows|e] eqn:Hrows; cbn [bind] in H.
  - destruct (rename_columns names 0 found) as [new_columns|e] eqn:Hren;
      cbn [bind] in H; [discriminate |].
    injection H as ->. by apply rename_columns_raises in Hren.
  - injection H as ->. unfold filter_rows_by_column_indexes in Hrows.
    apply for_each_raises in Hrows as (r & _ & Hr).
    apply for_each_raises in Hr as (i & _ & Hi).
    by apply py_index_raises in Hi.
Qed.

(** With every column selected once the check is complete: a repeated
    display name, or one already kept in the dictionary, is reported. *)
Lemma select_loop_duplicate_complete (R : Table) (qs : list select_query)
    (cs : list ColumnConfig) (found : list ColumnConfig)
    (names : gmap ColumnConfig string) :
  Forall2 (resolves_to R) qs cs ->
  NoDup cs ->
  (forall c, c ∈ cs -> names !! c = None) ->
  ~ (NoDup (display_names qs cs)
     /\ forall d, d ∈ display_names qs cs -> d ∉ (map_img names : gset string)) ->
  exists d, d ∈ display_names qs cs
            /\ select_loop R qs found names = Raise (SquidError (DuplicateSelectName d)).
Proof.
  intros HF. revert found names.
  induction HF as [|q c qs cs Hqc HF IH]; intros found names Hcs Hnone Hbad.
  - exfalso. apply Hbad. split; [constructor |]. intros d Hd. inversion Hd.
  - unfold display_names in *. cbn [zip_with select_loop] in *.
    unfold resolves_to in Hqc. rewrite Hqc. cbn [bind].
    rewrite col_name_display_name.
    apply NoDup_cons in Hcs as [Hc Hcs].
    destruct (bool_decide_reflect
                (display_name q c ∈ (map_img names : gset string))) as [Hin | Hnin].
    + exists (display_name q c). split; [by left | done].
    + destruct (IH (found ++ [c]) (<[c:=display_name q c]> names) Hcs)
        as (d & Hd & Hloop).
      * intros c' Hc'. rewrite lookup_insert_ne by (intros ->; done).
        apply Hnone. by right.
      * intros [Hnd Hfresh]. apply Hbad. split.
        -- apply NoDup_cons. split; [|done].
           intros Hd. apply (Hfresh _ Hd).
           apply (elem_of_map_img_2 _ c). apply lookup_insert_eq.
        -- intros d Hd. apply elem_of_cons in Hd as [-> | Hd]; [done |].
           intros Himg. apply elem_of_map_img in Himg as [k Hk].
           apply (Hfresh d Hd). apply (elem_of_map_img_2 _ k).
           rewrite lookup_insert_ne; [done |].
           intros <-. rewrite Hnone in Hk by (by left). discriminate.
      * exists d. split; [by right | done].
Qed.

(** Duplicate detection when no column is selected by two entries: with
    every entry resolving, projection fails with DuplicateSelectName exactly
    when two entries produce the same display name.  The implication from the
    failure to the repeated name holds for every select list. *)
Theorem duplicate_detection_of_columns_selected_once (R : Table)
    (qs : list select_query) (cs : list ColumnConfig) :
  Forall2 (resolves_to R) qs cs ->
  (forall d,
     apply_select_queries R qs = Raise (SquidError (DuplicateSelectName d)) ->
     exists i j, i < j
       /\ display_names qs cs !! i = Some d
       /\ display_names qs cs !! j = Some d)
  /\ (NoDup cs ->
      ~ NoDup (display_names qs cs) ->
      exists d, apply_select_queries R qs = Raise (SquidError (DuplicateSelectName d))).
Proof.
  intros HF. split.
  - intros d H. apply apply_select_queries_duplicate in H.
    apply (select_loop_duplicate_sound R qs cs) in H as [[Himg _] | H]; [|done..].
    apply elem_of_map_img in Himg as [k Hk]. by rewrite lookup_empty in Hk.
  - intros Hcs Hdup.
    destruct (select_loop_duplicate_complete R qs cs [] ∅ HF Hcs) as (d & _ & Hloop).
    + intros c _. apply lookup_empty.
    + intros [Hnd _]. by apply Hdup.
    + exists d. unfold apply_select_queries. by rewrite Hloop.
Qed.

Lemma duplicate_detection_of_columns_selected_once_witness :
  exists d,
    apply_select_queries t_table
      [select (unqualified "id") (Some "x"); select (unqualified "label") (Some "x")]
    = Raise (SquidError (DuplicateSelectName d)).
Proof.
  destruct (duplicate_detection_of_columns_selected_once t_table
              [select (unqualified "id") (Some "x");
               select (unqualified "label") (Some "x")]
              (columns t_table)) as [_ H].
  - repeat constructor.
  - apply H.
    + compute_done.
    + vm_compute. intros Hnd. apply NoDup_cons in Hnd as [Hx _].
      apply Hx. by left.
Defined.

(** ** C4: cross merge *)

Lemma bind_singleton_fmap {A B} (g : A -> B) (l : list A) :
  (x ← l; [g x]) = g <$> l.
Proof. induction l as [|a l IH]; [done |]. rewrite bind_cons, IH. done. Qed.

Lemma merged_rows_length (ra rb : list row) :
  length (a ← ra; b ← rb; [a ++ b]) = length ra * length rb.
Proof.
  induction ra as [|a ra IH]; [done |].
  rewrite bind_cons, length_app, IH, bind_singleton_fmap, length_fmap.
  reflexivity.
Qed.

Lemma merged_rows_lookup (ra rb : list row) (i j : nat) (a b : row) :
  ra !! i = Some a -> rb !! j = Some b ->
  (a ← ra; b ← rb; [a ++ b]) !! (i * length rb + j) = Some (a ++ b).
Proof.
  revert i. induction ra as [|a0 ra IH]; intros i Ha Hb; [done |].
  rewrite bind_cons, bind_singleton_fmap.
  destruct i as [|i]; simpl in Ha.
  - injection Ha as ->. simpl.
    rewrite lookup_app_l by (rewrite length_fmap; by eapply lookup_lt_Some).
    by rewrite list_lookup_fmap, Hb.
  - rewrite lookup_app_r by (rewrite length_fmap; simpl; lia).
    rewrite length_fmap.
    replace (S i * length rb + j - length rb) with (i * length rb + j)
      by (simpl; lia).
    by apply IH.
Qed.

(** C4.  [merge(A, B)] has [m*n] rows and [len(A.columns)+len(B.columns)]
    columns; its columns are A's columns followed by B's columns with names,
    table qualifiers and declared types copied and positions shifted by
    [len(A.columns)]; and the row built from the i-th row of A and the j-th
    row of B is their concatenation, found at offset [i*n + j] (all rows of
    A in order, and for each of them all rows of B in order). *)
Theorem merge_tables_cross_product (A B : Table) :
  length (rows (merge_tables A B)) = length (rows A) * length (rows B)
  /\ length (columns (merge_tables A B))
     = length (columns A) + length (columns B)
  /\ (exists shifted,
        columns (merge_tables A B) = columns A ++ shifted
        /\ name <$> shifted = name <$> columns B
        /\ table <$> shifted = table <$> columns B
        /\ type <$> shifted = type <$> columns B
        /\ index <$> shifted
           = (fun c => index c + Z.of_nat (length (columns A)))%Z <$> columns B)
  /\ (forall i j a b,
        rows A !! i = Some a -> rows B !! j = Some b ->
        rows (merge_tables A B) !! (i * length (rows B) + j) = Some (a ++ b)).
Proof.
  unfold merge_tables. cbn [columns rows].
  split; [apply merged_rows_length |].
  split; [by rewrite length_app, length_fmap |].
  split.
  - eexists. split; [reflexivity |].
    repeat split; by rewrite <- list_fmap_compose.
  - intros i j a b. apply merged_rows_lookup.
Qed.

Lemma merge_tables_cross_product_witness :
  rows (merge_tables t_table (apply_as_exp t_table "u")) !! (1 * 3 + 2)
  = Some ([VInt 2; VStr "b"] ++ [VInt 3; VStr "c"]).
Proof.
  destruct (merge_tables_cross_product t_table (apply_as_exp t_table "u"))
    as (_ & _ & _ & H).
  apply (H 1 2); reflexivity.
Defined.

(** ** C5: filters are stable and commute *)

(** C5.  When predicates P1 and P2 both evaluate successfully on relation R,
    each filtered relation keeps exactly the rows of R that satisfy its
    comparison, as a subsequence of R's rows in their original order; and
    applying P1 then P2, or P2 then P1, succeeds with one and the same
    relation, whose rows are exactly the rows of R satisfying both
    comparisons. *)
Theorem filter_stable_and_commutes (R : Table) (P1 P2 : where_query) (R1 R2 : Table) :
  apply_where_query R P1 = Ok R1 ->
  apply_where_query R P2 = Ok R2 ->
  rows R1 `sublist_of` rows R
  /\ rows R2 `sublist_of` rows R
  /\ rows R1 = List.filter (satisfies R P1) (rows R)
  /\ rows R2 = List.filter (satisfies R P2) (rows R)
  /\ exists R12,
       apply_where_query R1 P2 = Ok R12
       /\ apply_where_query R2 P1 = Ok R12
       /\ columns R12 = columns R
       /\ rows R12
          = List.filter (fun r => satisfies R P1 r && satisfies R P2 r) (rows R).
Proof.
  intros H1 H2.
  apply apply_where_query_Ok in H1 as (t1 & Ht1 & Hall1 & ->).
  apply apply_where_query_Ok in H2 as (t2 & Ht2 & Hall2 & ->).
  cbn [rows columns].
  split; [apply list_filter_sublist |].
  split; [apply list_filter_sublist |].
  split; [apply List.filter_ext; intros r; symmetry; by apply satisfies_test |].
  split; [apply List.filter_ext; intros r; symmetry; by apply satisfies_test |].
  exists (mkTable (columns R)
            (List.filter (fun r => holds (t1 r) && holds (t2 r)) (rows R))).
  repeat split.
  - apply apply_where_query_Ok. exists t2. split; [|split].
    + by rewrite (where_test_columns _ R).
    + by apply list_filter_Forall.
    + cbn [rows columns]. by rewrite list_filter_filter.
  - apply apply_where_query_Ok. exists t1. split; [|split].
    + by rewrite (where_test_columns _ R).
    + by apply list_filter_Forall.
    + cbn [rows columns]. rewrite list_filter_filter. f_equal.
      apply List.filter_ext. intros r. apply andb_comm.
  - cbn [rows]. apply List.filter_ext. intros r.
    by rewrite (satisfies_test R P1 t1), (satisfies_test R P2 t2).
Qed.

Lemma filter_stable_and_commutes_witness :
  let R1 := mkTable (columns t_table) [ [VInt 2; VStr "b"]; [VInt 3; VStr "c"] ] in
  let R2 := mkTable (columns t_table) [ [VInt 1; VStr "a"]; [VInt 2; VStr "b"] ] in
  rows R1 `sublist_of` rows t_table
  /\ rows R2 `sublist_of` rows t_table
  /\ rows R1 = List.filter (satisfies t_table id_gt_1) (rows t_table)
  /\ rows R2 = List.filter (satisfies t_table label_ne_c) (rows t_table)
  /\ exists R12,
       apply_where_query R1 label_ne_c = Ok R12
       /\ apply_where_query R2 id_gt_1 = Ok R12
       /\ columns R12 = columns t_table
       /\ rows R12
          = List.filter (fun r => satisfies t_table id_gt_1 r
                                  && satisfies t_table label_ne_c r) (rows t_table).
Proof.
  apply (filter_stable_and_commutes t_table id_gt_1 label_ne_c);
    vm_compute; reflexivity.
Defined.

(** ** C6: column resolution *)

(** C6.  Resolution is decided by the columns that match the reference: a
    column matches when its name equals the reference's name and, when the
    reference carries a qualifier (a non-empty string, see [qualifier]; the
    empty string is the subject of C10), its table qualifier equals it.  With no
    match the resolver fails with ColumnNotFound; with exactly one it returns
    that column; with more than one it fails with AmbiguousColumn, whose
    message lists the table qualifier of every matching column, joined by
    "|".  The result is a function of the column list alone. *)
Theorem resolve_by_matching_columns (R : Table) (column_ref : ColumnRef) :
  let matching := List.filter (ref_matches column_ref) (columns R) in
  (forall c, c ∈ matching <->
     c ∈ columns R
     /\ name c = ref_name column_ref
     /\ (forall q, qualifier column_ref = Some q -> table c = q))
  /\ (matching = [] ->
      col_config_by_column_ref R column_ref
      = Raise (SquidError (ColumnNotFound column_ref)))
  /\ (forall c, matching = [c] -> col_config_by_column_ref R column_ref = Ok c)
  /\ (1 < length matching ->
      col_config_by_column_ref R column_ref
      = Raise (SquidError
                 (AmbiguousColumn column_ref (String.concat "|" (table <$> matching)))))
  /\ (forall R', columns R' = columns R ->
      col_config_by_column_ref R' column_ref = col_config_by_column_ref R column_ref).
Proof.
  intros matching. rewrite col_config_by_column_ref_resolution. fold matching.
  split; [|split; [|split; [|split]]].
  - intros c. unfold matching.
    rewrite !list_elem_of_In, List.filter_In, ref_matches_spec. tauto.
  - by intros ->.
  - by intros c ->.
  - destruct matching as [|c [|c' l]]; simpl; [lia | lia | done].
  - intros R' H. rewrite col_config_by_column_ref_resolution. unfold matching.
    by rewrite H.
Qed.

Lemma resolve_by_matching_columns_witness :
  col_config_by_column_ref two_ids (unqualified "nope")
  = Raise (SquidError (ColumnNotFound (unqualified "nope")))
  /\ col_config_by_column_ref two_ids (qualified "b" "id")
     = Ok (mkColumnConfig "b" "id" "int" 2)
  /\ col_config_by_column_ref two_ids (unqualified "id")
     = Raise (SquidError (AmbiguousColumn (unqualified "id") "a|b")).
Proof.
  split; [|split].
  - destruct (resolve_by_matching_columns two_ids (unqualified "nope"))
      as (_ & H & _).
    apply H. reflexivity.
  - destruct (resolve_by_matching_columns two_ids (qualified "b" "id"))
      as (_ & _ & H & _).
    apply H. reflexivity.
  - destruct (resolve_by_matching_columns two_ids (unqualified "id"))
      as (_ & _ & _ & H & _).
    apply H. vm_compute. lia.
Defined.

(** ** C7: type and operator guards *)

Lemma key_in_literal (col_type : string) (t : term) (ty : string) :
  literal_type t = Some ty ->
  key_in ("lit_" +:+ col_type) t = String.eqb col_type ty.
Proof.
  destruct t as [column_ref|z|s]; simpl; [discriminate | |];
    intros [= <-]; reflexivity.
Qed.

Lemma ordering_not_supported_for_str (op : string) :
  In op ordering_operators ->
  getitem SUPPORTED_OPS_BY_COLUMN_TYPE "str" = Ok ["="; "!="]
  /\ str_in_list op ["="; "!="] = false.
Proof.
  intros Hop. split; [reflexivity |].
  repeat (destruct Hop as [<- | Hop]; [reflexivity |]). destruct Hop.
Qed.

(** C7, with the order of the two guards made explicit.  The evaluators
    check type agreement first and the operator second, so the operator
    error is raised only for operands whose types agree.
    (1) A column-to-literal predicate on a Str column with a Str literal and
        one of >, >=, <, <= fails with UnsupportedOperator.
    (2) A column-to-column predicate on two Str columns with one of these
        operators fails with UnsupportedOperator.
    (3) A column-to-literal predicate whose literal's type tag differs from
        the resolved column's declared type fails with TypeMismatch.
    (4) A column-to-column predicate whose resolved columns have different
        declared types fails with TypeMismatch.
    In each case the evaluator raises: no relation is returned. *)
Theorem type_operator_guards (R : Table) :
  (forall q column_ref col_config,
     column_term q = TermColumn column_ref ->
     col_config_by_column_ref R column_ref = Ok col_config ->
     type col_config = "str" ->
     literal_type (literal_term q) = Some "str" ->
     In (ctl_op q) ordering_operators ->
     apply_where_query R (IsColumnToLiteralWhere q)
     = Raise (SquidError (UnsupportedOperator (ctl_op q) "str")))
  /\ (forall q left_ref right_ref left_col right_col,
        ctc_left q = TermColumn left_ref ->
        ctc_right q = TermColumn right_ref ->
        col_config_by_column_ref R left_ref = Ok left_col ->
        col_config_by_column_ref R right_ref = Ok right_col ->
        type left_col = "str" ->
        type right_col = "str" ->
        In (ctc_op q) ordering_operators ->
        apply_where_query R (IsColumnToColumnWhere q)
        = Raise (SquidError (UnsupportedOperator (ctc_op q) "str")))
  /\ (forall q column_ref col_config literal_ty,
        column_term q = TermColumn column_ref ->
        col_config_by_column_ref R column_ref = Ok col_config ->
        literal_type (literal_term q) = Some literal_ty ->
        literal_ty <> type col_config ->
        apply_where_query R (IsColumnToLiteralWhere q)
        = Raise (SquidError (TypeMismatchLiteral col_config (literal_term q))))
  /\ (forall q left_ref right_ref left_col right_col,
        ctc_left q = TermColumn left_ref ->
        ctc_right q = TermColumn right_ref ->
        col_config_by_column_ref R left_ref = Ok left_col ->
        col_config_by_column_ref R right_ref = Ok right_col ->
        type left_col <> type right_col ->
        apply_where_query R (IsColumnToColumnWhere q)
        = Raise (SquidError (TypeMismatchColumns left_col right_col))).
Proof.
  split; [|split; [|split]].
  - intros q column_ref col_config Hterm Hcol Hty Hlit Hop.
    cbn [apply_where_query]. unfold apply_column_to_literal_where_query.
    rewrite Hterm. cbn [term_column bind]. rewrite Hcol. cbn [bind].
    rewrite (key_in_literal _ _ _ Hlit), Hty. cbn [String.eqb Ascii.eqb Bool.eqb negb].
    destruct (ordering_not_supported_for_str _ Hop) as [Hops Hin].
    rewrite Hops. cbn [bind]. rewrite Hin. reflexivity.
  - intros q left_ref right_ref left_col right_col Hl Hr Hlc Hrc Htl Htr Hop.
    cbn [apply_where_query]. unfold apply_column_to_column_where_query.
    rewrite Hl, Hr. cbn [term_column bind]. rewrite Hlc. cbn [bind].
    rewrite Hrc. cbn [bind]. rewrite Htl, Htr.
    cbn [String.eqb Ascii.eqb Bool.eqb negb].
    destruct (ordering_not_supported_for_str _ Hop) as [Hops Hin].
    rewrite Hops. cbn [bind]. rewrite Hin. reflexivity.
  - intros q column_ref col_config literal_ty Hterm Hcol Hlit Hne.
    cbn [apply_where_query]. unfold apply_column_to_literal_where_query.
    rewrite Hterm. cbn [term_column bind]. rewrite Hcol. cbn [bind].
    rewrite (key_in_literal _ _ _ Hlit).
    assert (String.eqb (type col_config) literal_ty = false) as ->
      by (apply String.eqb_neq; congruence).
    reflexivity.
  - intros q left_ref right_ref left_col right_col Hl Hr Hlc Hrc Hne.
    cbn [apply_where_query]. unfold apply_column_to_column_where_query.
    rewrite Hl, Hr. cbn [term_column bind]. rewrite Hlc. cbn [bind].
    rewrite Hrc. cbn [bind].
    assert (String.eqb (type left_col) (type right_col) = false) as ->
      by (by apply String.eqb_neq).
    reflexivity.
Qed.

Lemma type_operator_guards_witness :
  apply_where_query s_table (IsColumnToLiteralWhere first_gt_b)
  = Raise (SquidError (UnsupportedOperator ">" "str"))
  /\ apply_where_query s_table (IsColumnToColumnWhere first_gt_last)
     = Raise (SquidError (UnsupportedOperator ">" "str"))
  /\ apply_where_query s_table (IsColumnToLiteralWhere age_eq_str)
     = Raise (SquidError
                (TypeMismatchLiteral (mkColumnConfig "s" "age" "int" 2) (TermLitStr "36")))
  /\ apply_where_query s_table (IsColumnToColumnWhere first_eq_age)
     = Raise (SquidError
                (TypeMismatchColumns (mkColumnConfig "s" "first" "str" 0)
                                     (mkColumnConfig "s" "age" "int" 2))).
Proof.
  destruct (type_operator_guards s_table) as (H1 & H2 & H3 & H4).
  split; [|split; [|split]].
  - apply (H1 first_gt_b (unqualified "first") (mkColumnConfig "s" "first" "str" 0));
      try reflexivity. simpl. tauto.
  - apply (H2 first_gt_last (unqualified "first") (unqualified "last")
              (mkColumnConfig "s" "first" "str" 0) (mkColumnConfig "s" "last" "str" 1));
      try reflexivity. simpl. tauto.
  - apply (H3 age_eq_str (unqualified "age") (mkColumnConfig "s" "age" "int" 2) "str");
      try reflexivity. discriminate.
  - apply (H4 first_eq_age (unqualified "first") (unqualified "age")
              (mkColumnConfig "s" "first" "str" 0) (mkColumnConfig "s" "age" "int" 2));
      try reflexivity. discriminate.
Defined.

(** C7, the clause on ordering operators as it is written.  The predicate
    [first > 1] is accepted by the builder and by the constructor, its column
    resolves to the Str column [first] of [s_table] and its operator is one
    of >, >=, <, <=; evaluating it fails, but with the type-mismatch error
    of the first guard, not with UnsupportedOperator: the operator guard is
    only reached once the types agree. *)
Lemma ordering_on_str_column_against_int_literal :
  build_where_queries [mkRawWhereQuery ">" (column_term_of "first") (TermLitInt 1)]
  = Ok [IsColumnToLiteralWhere first_gt_1]
  /\ column_term first_gt_1 = column_term_of "first"
  /\ col_config_by_column_ref s_table (unqualified "first")
     = Ok (mkColumnConfig "s" "first" "str" 0)
  /\ In (ctl_op first_gt_1) ordering_operators
  /\ apply_where_query s_table (IsColumnToLiteralWhere first_gt_1)
     = Raise (SquidError
                (TypeMismatchLiteral (mkColumnConfig "s" "first" "str" 0) (TermLitInt 1)))
  /\ apply_where_query s_table (IsColumnToLiteralWhere first_gt_1)
     <> Raise (SquidError (UnsupportedOperator ">" "str")).
Proof.
  split; [reflexivity |]. split; [reflexivity |]. split; [reflexivity |].
  split; [simpl; tauto |]. split; [reflexivity | discriminate].
Qed.

(** ** C8: aliasing *)

(** C8.  [alias(relation, new_qualifier)] returns a relation in which every
    column's table qualifier is [new_qualifier], while the names, declared
    types and positions of the columns (in order) and the whole row sequence
    are those of the input. *)
Theorem apply_as_exp_frame (R : Table) (new_qualifier : string) :
  Forall (fun c => table c = new_qualifier) (columns (apply_as_exp R new_qualifier))
  /\ name <$> columns (apply_as_exp R new_qualifier) = name <$> columns R
  /\ type <$> columns (apply_as_exp R new_qualifier) = type <$> columns R
  /\ index <$> columns (apply_as_exp R new_qualifier) = index <$> columns R
  /\ rows (apply_as_exp R new_qualifier) = rows R.
Proof.
  unfold apply_as_exp. cbn [columns rows].
  split; [|repeat split].
  - apply Forall_fmap, Forall_true. done.
  - by rewrite <- list_fmap_compose.
  - by rewrite <- list_fmap_compose.
  - by rewrite <- list_fmap_compose.
Qed.

(** ** C9: the Relation invariant *)

Lemma merge_tables_inv (A B : Table) :
  Relation_inv A -> Relation_inv B -> Relation_inv (merge_tables A B).
Proof.
  intros [HpA HrA] [HpB HrB]. unfold Relation_inv, positions_ok in *.
  unfold merge_tables. cbn [columns rows]. split.
  - rewrite fmap_app, length_app, length_fmap, <- list_fmap_compose.
    rewrite Nat2Z.inj_add, seqZ_app by lia.
    rewrite HpA. f_equal.
    replace (0 + Z.of_nat (length (columns A)))%Z
      with (Z.of_nat (length (columns A)) + 0)%Z by lia.
    rewrite <- fmap_add_seqZ, <- HpB, <- list_fmap_compose.
    apply list_fmap_ext. intros _ c _. simpl. lia.
  - apply Forall_bind. eapply Forall_impl; [exact HrA |].
    intros a Ha. simpl. apply Forall_bind.
    eapply Forall_impl; [exact HrB |].
    intros b Hb. simpl. constructor; [|constructor].
    by rewrite !length_app, length_fmap, Ha, Hb.
Qed.

Lemma apply_where_query_inv (R : Table) (q : where_query) (R' : Table) :
  Relation_inv R -> apply_where_query R q = Ok R' -> Relation_inv R'.
Proof.
  intros [Hp Hr] H.
  apply apply_where_query_Ok in H as (test & _ & _ & ->).
  split; cbn [columns rows]; [done |]. by apply list_filter_Forall.
Qed.

Lemma apply_as_exp_inv (R : Table) (as_name : string) :
  Relation_inv R -> Relation_inv (apply_as_exp R as_name).
Proof.
  intros [Hp Hr]. unfold Relation_inv, positions_ok, apply_as_exp in *.
  cbn [columns rows]. rewrite length_fmap, <- list_fmap_compose. done.
Qed.

Lemma rename_columns_positions d (i : Z) found_columns cols :
  rename_columns d i found_columns = Ok cols ->
  length cols = length found_columns
  /\ index <$> cols = seqZ i (Z.of_nat (length found_columns)).
Proof.
  revert i cols. induction found_columns as [|c found IH]; intros i cols; simpl.
  - by intros [= <-].
  - intros H. bind_inv H. bind_inv H. injection H as <-.
    destruct (IH _ _ Hx0) as [Hlen Hidx]. split; [simpl; by f_equal |].
    rewrite fmap_cons, Hidx. cbn [index].
    rewrite (seqZ_cons i) by lia. do 2 f_equal. lia.
Qed.

Lemma apply_select_queries_inv (R : Table) (qs : list select_query) (R' : Table) :
  apply_select_queries R qs = Ok R' -> Relation_inv R'.
Proof.
  unfold apply_select_queries. intros H.
  bind_inv H. destruct x as [found_columns found_names_by_col]. cbn [fst snd] in H.
  bind_inv H. rename x into new_rows. bind_inv H. rename x into new_columns.
  injection H as <-.
  apply rename_columns_positions in Hx1 as [Hlen Hidx].
  split; cbn [columns rows].
  - unfold positions_ok. by rewrite Hlen.
  - unfold filter_rows_by_column_indexes in Hx0.
    eapply for_each_Forall; [|exact Hx0].
    intros r r' Hr. cbn beta in Hr. apply for_each_length in Hr.
    by rewrite Hr, length_fmap, Hlen.
Qed.

(** C9.  Every algebra operation preserves the Relation invariant
    (positions exactly 0..N-1 in column order, every row as long as the
    column list): merge of two relations, the column-to-literal and
    column-to-column filters, projection and alias return, whenever they
    return a relation, one that satisfies the invariant if their inputs
    do. *)
Theorem operations_preserve_invariant :
  (forall A B, Relation_inv A -> Relation_inv B -> Relation_inv (merge_tables A B))
  /\ (forall R q R', Relation_inv R ->
        apply_column_to_literal_where_query R q = Ok R' -> Relation_inv R')
  /\ (forall R q R', Relation_inv R ->
        apply_column_to_column_where_query R q = Ok R' -> Relation_inv R')
  /\ (forall R qs R', Relation_inv R ->
        apply_select_queries R qs = Ok R' -> Relation_inv R')
  /\ (forall R as_name, Relation_inv R -> Relation_inv (apply_as_exp R as_name)).
Proof.
  split; [exact merge_tables_inv |].
  split; [intros R q R' HR; apply (apply_where_query_inv R (IsColumnToLiteralWhere q)), HR |].
  split; [intros R q R' HR; apply (apply_where_query_inv R (IsColumnToColumnWhere q)), HR |].
  split; [intros R qs R' _; apply apply_select_queries_inv |].
  exact apply_as_exp_inv.
Qed.

Lemma operations_preserve_invariant_witness :
  Relation_inv (merge_tables t_table (apply_as_exp t_table "u"))
  /\ Relation_inv
       (mkTable [mkColumnConfig "t" "x" "int" 0; mkColumnConfig "t" "label" "str" 1]
                (rows t_table)).
Proof.
  destruct operations_preserve_invariant as (Hm & _ & _ & Hs & Ha).
  split.
  - apply Hm; [|apply Ha]; (split; [reflexivity | repeat constructor]).
  - apply (Hs t_table [select (unqualified "id") (Some "x");
                       select (unqualified "label") None]).
    + split; [reflexivity | repeat constructor].
    + vm_compute. reflexivity.
Defined.

(** ** C10: the empty-string qualifier *)

(** C10.  A reference whose table qualifier is the empty string resolves
    exactly like the reference with no qualifier: both are decided by the
    columns whose name equals the reference's name, with no condition on the
    table qualifier, and have the same outcome (the same column, not found,
    or ambiguous with the same list of table qualifiers). *)
Theorem empty_qualifier_is_unqualified (R : Table) (n : string) :
  let by_name := List.filter (fun c => String.eqb (name c) n) (columns R) in
  col_config_by_column_ref R (mkColumnRef (Some "") n)
  = resolution (mkColumnRef (Some "") n) by_name
  /\ col_config_by_column_ref R (mkColumnRef None n)
     = resolution (mkColumnRef None n) by_name
  /\ outcome_of (col_config_by_column_ref R (mkColumnRef (Some "") n))
     = outcome_of (col_config_by_column_ref R (mkColumnRef None n)).
Proof.
  intros by_name.
  assert (forall t, t = Some "" \/ t = None ->
            List.filter (ref_matches (mkColumnRef t n)) (columns R) = by_name) as Hm.
  { intros t Ht. apply List.filter_ext. intros c. unfold ref_matches, qualifier.
    destruct Ht as [-> | ->]; simpl; apply andb_true_r. }
  rewrite !col_config_by_column_ref_resolution, !Hm by auto.
  repeat split. by destruct by_name as [|c [|c' l]].
Qed.

(** ** The worked examples of the specification *)

(** [from t; where id > 1; select id as x, label] yields columns [x, label]
    and rows [[2,"b"],[3,"c"]]. *)
Example end_to_end_filter_and_rename :
  (let* filtered := apply_where_query t_table id_gt_1 in
   apply_select_queries filtered
     [select (unqualified "id") (Some "x"); select (unqualified "label") None])
  = Ok (mkTable
          [mkColumnConfig "t" "x" "int" 0; mkColumnConfig "t" "label" "str" 1]
          [ [VInt 2; VStr "b"]; [VInt 3; VStr "c"] ]).
Proof. vm_compute. reflexivity. Qed.

(** Two single-row sources merged, then filtered by [left.v < right.v]
    (the combined row [1,2]) and by [left.v > right.v] (no row); resolving
    the unqualified [v] on the merge is ambiguous. *)
Example end_to_end_merge_and_compare :
  let merged :=
    merge_tables (from_file "left" [("v", "int")] [ [VInt 1] ])
                 (from_file "right" [("v", "int")] [ [VInt 2] ]) in
  let compare op :=
    IsColumnToColumnWhere
      (mkColumnToColumnWhere op (TermColumn (qualified "left" "v"))
                                (TermColumn (qualified "right" "v"))) in
  apply_where_query merged (compare "<")
  = Ok (mkTable (columns merged) [ [VInt 1; VInt 2] ])
  /\ apply_where_query merged (compare ">") = Ok (mkTable (columns merged) [])
  /\ col_config_by_column_ref merged (unqualified "v")
     = Raise (SquidError (AmbiguousColumn (unqualified "v") "left|right")).
Proof. vm_compute. repeat split. Qed.


(** ** Further properties: the comparison functions *)

Lemma supported_column_type (ty : string) :
  ty ∈ SUPPORTED_COLUMN_TYPES <-> ty = "int" \/ ty = "str".
Proof.
  unfold SUPPORTED_COLUMN_TYPES. rewrite !elem_of_cons, elem_of_nil. tauto.
Qed.

Lemma supported_value_formattable (v : value) :
  value_type v ∈ SUPPORTED_COLUMN_TYPES -> formattable v = true.
Proof. rewrite supported_column_type. by destruct v; intros [|]. Qed.

(** On two values of the same type, both ints or both strs, the six
    operators of [OPERATOR_FUNCS] never raise and agree with one order:
    exactly one of [<], [=], [>] holds, [!=] negates [=], [<=] negates [>]
    and [>=] negates [<]. *)
Theorem comparisons_on_one_type (l r : value) :
  value_type l = value_type r ->
  value_type l ∈ SUPPORTED_COLUMN_TYPES ->
  exists lt eq gt : bool,
    less_than l r = Ok lt
    /\ equal_to l r = Ok eq
    /\ greater_than l r = Ok gt
    /\ not_equal_to l r = Ok (negb eq)
    /\ less_than_or_equal_to l r = Ok (negb gt)
    /\ greater_than_or_equal_to l r = Ok (negb lt)
    /\ (lt = true /\ eq = false /\ gt = false
        \/ lt = false /\ eq = true /\ gt = false
        \/ lt = false /\ eq = false /\ gt = true).
Proof.
  destruct l as [a|a|], r as [b|b|]; simpl; try discriminate; intros _ Hty;
    [| | by apply supported_column_type in Hty as [|]].
  - exists (a <? b)%Z, (a =? b)%Z, (b <? a)%Z.
    unfold less_than_or_equal_to, greater_than_or_equal_to, equal_to, not_equal_to.
    simpl.
    destruct (Z.ltb_spec a b), (Z.eqb_spec a b), (Z.ltb_spec b a);
      simpl; repeat split; try lia; auto.
  - exists (String.ltb a b), (String.eqb a b), (String.ltb b a).
    unfold less_than_or_equal_to, greater_than_or_equal_to, equal_to, not_equal_to.
    simpl. unfold String.ltb. rewrite (String.compare_antisym b a).
    destruct (String.eqb_spec a b) as [-> | Hne].
    + assert (String.compare b b = Eq) as ->.
      { destruct (String.compare b b) eqn:Hc; [done | |];
          pose proof (String.compare_antisym b b) as Ha; rewrite Hc in Ha;
          discriminate. }
      simpl. repeat split; auto.
    + destruct (String.compare a b) eqn:Hc; simpl.
      * apply String.compare_eq_iff in Hc. done.
      * repeat split; auto.
      * repeat split; auto.
Qed.

Lemma comparisons_on_one_type_witness :
  exists lt eq gt : bool,
    less_than (VStr "ab") (VStr "b") = Ok lt
    /\ equal_to (VStr "ab") (VStr "b") = Ok eq
    /\ greater_than (VStr "ab") (VStr "b") = Ok gt
    /\ not_equal_to (VStr "ab") (VStr "b") = Ok (negb eq)
    /\ less_than_or_equal_to (VStr "ab") (VStr "b") = Ok (negb gt)
    /\ greater_than_or_equal_to (VStr "ab") (VStr "b") = Ok (negb lt)
    /\ (lt = true /\ eq = false /\ gt = false
        \/ lt = false /\ eq = true /\ gt = false
        \/ lt = false /\ eq = false /\ gt = true).
Proof.
  apply (comparisons_on_one_type (VStr "ab") (VStr "b")); [reflexivity |].
  right. left.
Defined.

(** Between values of two different types, as an int and a str, [=] is false
    and [!=] true, and each of the four ordering operators raises
    TypeError. *)
Theorem comparisons_across_types (l r : value) :
  value_type l <> value_type r ->
  equal_to l r = Ok false
  /\ not_equal_to l r = Ok true
  /\ less_than l r = Raise TypeError
  /\ greater_than l r = Raise TypeError
  /\ less_than_or_equal_to l r = Raise TypeError
  /\ greater_than_or_equal_to l r = Raise TypeError.
Proof. destruct l, r; simpl; intros H; try done; repeat split. Qed.

Lemma comparisons_across_types_witness :
  equal_to (VInt 1) (VStr "1") = Ok false
  /\ not_equal_to (VInt 1) (VStr "1") = Ok true
  /\ less_than (VInt 1) (VStr "1") = Raise TypeError
  /\ greater_than (VInt 1) (VStr "1") = Raise TypeError
  /\ less_than_or_equal_to (VInt 1) (VStr "1") = Raise TypeError
  /\ greater_than_or_equal_to (VInt 1) (VStr "1") = Raise TypeError.
Proof. apply (comparisons_across_types (VInt 1) (VStr "1")). discriminate. Defined.

(** ** Further properties: merge, alias and resolution together *)

Lemma merge_tables_columns (A B : Table) :
  columns (merge_tables A B)
  = columns A ++ (shift_column (Z.of_nat (length (columns A))) <$> columns B).
Proof. reflexivity. Qed.

Lemma merged_rows_assoc_inner (a b : row) (rc : list row) :
  (c ← rc; [(a ++ b) ++ c]) = (c ← rc; [b ++ c]) ≫= (fun bc => [a ++ bc]).
Proof.
  induction rc as [|c rc IH]; [done |].
  rewrite !bind_cons, bind_app, <- IH. simpl. by rewrite <- app_assoc.
Qed.

Lemma merged_rows_assoc_middle (a : row) (rb rc : list row) :
  (b ← rb; [a ++ b]) ≫= (fun ab => c ← rc; [ab ++ c])
  = (b ← rb; c ← rc; [b ++ c]) ≫= (fun bc => [a ++ bc]).
Proof.
  induction rb as [|b rb IH]; [done |].
  rewrite !bind_cons, !bind_app, IH. f_equal.
  simpl. rewrite app_nil_r. apply merged_rows_assoc_inner.
Qed.

(** The cross merge is associative: merging [A] with [B] and then with [C]
    gives the same relation (columns, positions and row order) as merging
    [A] with the merge of [B] and [C]. *)
Theorem merge_tables_assoc (A B C : Table) :
  merge_tables (merge_tables A B) C = merge_tables A (merge_tables B C).
Proof.
  unfold merge_tables. cbn [columns rows]. f_equal.
  - rewrite <- app_assoc. f_equal. rewrite fmap_app. f_equal.
    rewrite <- list_fmap_compose. apply list_fmap_ext. intros _ c _. simpl.
    f_equal. rewrite length_app, length_fmap. lia.
  - induction (rows A) as [|a ra IH]; [done |].
    rewrite !bind_cons, bind_app, IH. f_equal.
    apply merged_rows_assoc_middle.
Qed.

(** Resolution on a merge looks at the matching columns of the left
    relation followed by those of the right one, shifted: a reference that
    matches on one side only resolves there (to the shifted column on the
    right), and one that matches on both sides is ambiguous. *)
Theorem resolution_on_merge (A B : Table) (column_ref : ColumnRef) :
  let in_A := List.filter (ref_matches column_ref) (columns A) in
  let in_B := List.filter (ref_matches column_ref) (columns B) in
  let k := Z.of_nat (length (columns A)) in
  col_config_by_column_ref (merge_tables A B) column_ref
  = resolution column_ref (in_A ++ (shift_column k <$> in_B))
  /\ (forall c, in_A = [c] -> in_B = [] ->
        col_config_by_column_ref (merge_tables A B) column_ref = Ok c)
  /\ (forall c, in_A = [] -> in_B = [c] ->
        col_config_by_column_ref (merge_tables A B) column_ref = Ok (shift_column k c))
  /\ (in_A <> [] -> in_B <> [] ->
        col_config_by_column_ref (merge_tables A B) column_ref
        = Raise (SquidError
                   (AmbiguousColumn column_ref
                      (String.concat "|" ((table <$> in_A) ++ (table <$> in_B)))))).
Proof.
  intros in_A in_B k.
  assert (col_config_by_column_ref (merge_tables A B) column_ref
          = resolution column_ref (in_A ++ (shift_column k <$> in_B))) as Hres.
  { rewrite col_config_by_column_ref_resolution, merge_tables_columns.
    rewrite List.filter_app. fold in_A. do 2 f_equal. unfold in_B. fold k.
    induction (columns B) as [|c cols IH]; [done |].
    rewrite fmap_cons. simpl List.filter.
    replace (ref_matches column_ref (shift_column k c))
      with (ref_matches column_ref c) by done.
    destruct (ref_matches column_ref c); by rewrite IH. }
  split; [exact Hres |]. rewrite Hres. split; [|split].
  - by intros c -> ->.
  - by intros c -> ->.
  - intros HA HB. destruct in_A as [|a in_A]; [done |].
    destruct in_B as [|b in_B]; [done |].
    assert (table <$> (a :: in_A) ++ (shift_column k <$> b :: in_B)
            = (table <$> a :: in_A) ++ (table <$> b :: in_B)) as <-.
    { rewrite fmap_app. f_equal. by rewrite <- list_fmap_compose. }
    destruct in_A; reflexivity.
Qed.

Lemma resolution_on_merge_witness :
  col_config_by_column_ref two_ids (qualified "b" "label")
  = Ok (mkColumnConfig "b" "label" "str" 3)
  /\ col_config_by_column_ref two_ids (unqualified "label")
     = Raise (SquidError (AmbiguousColumn (unqualified "label") "a|b")).
Proof.
  split.
  - destruct (resolution_on_merge (apply_as_exp t_table "a") (apply_as_exp t_table "b")
                (qualified "b" "label")) as (_ & _ & H & _).
    apply (H (mkColumnConfig "b" "label" "str" 1)); reflexivity.
  - destruct (resolution_on_merge (apply_as_exp t_table "a") (apply_as_exp t_table "b")
                (unqualified "label")) as (_ & _ & _ & H).
    apply H; discriminate.
Defined.

Lemma ref_matches_qualified (b n : string) (c : ColumnConfig) :
  b <> EmptyString ->
  ref_matches (qualified b n) c = String.eqb (name c) n && String.eqb (table c) b.
Proof.
  intros Hb. unfold ref_matches, qualifier, qualified. cbn [ref_table ref_name].
  by destruct (String.eqb_spec b EmptyString).
Qed.

(** Aliasing replaces the qualifier for good: a second alias overrides the
    first; under the alias [a] a reference [a.n] matches exactly the columns
    named [n]; and a reference with any other qualifier is not found, the
    source table's own name included. *)
Theorem alias_replaces_qualifier (R : Table) (a : string) :
  (forall b, apply_as_exp (apply_as_exp R a) b = apply_as_exp R b)
  /\ (forall n, a <> EmptyString ->
        List.filter (ref_matches (qualified a n)) (columns (apply_as_exp R a))
        = columns (apply_as_exp
                     (mkTable (List.filter (fun c => String.eqb (name c) n) (columns R))
                              (rows R)) a))
  /\ (forall b n, b <> EmptyString -> b <> a ->
        col_config_by_column_ref (apply_as_exp R a) (qualified b n)
        = Raise (SquidError (ColumnNotFound (qualified b n)))).
Proof.
  split; [|split].
  - intros b. unfold apply_as_exp. cbn [columns rows]. f_equal.
    by rewrite <- list_fmap_compose.
  - intros n Ha. unfold apply_as_exp. cbn [columns rows].
    induction (columns R) as [|c cols IH]; [done |].
    rewrite fmap_cons. cbn [List.filter].
    rewrite ref_matches_qualified by done.
    cbn [name table]. rewrite String.eqb_refl, andb_true_r.
    destruct (String.eqb (name c) n); [rewrite fmap_cons |]; by rewrite IH.
  - intros b n Hb Hne. rewrite col_config_by_column_ref_resolution.
    assert (List.filter (ref_matches (qualified b n)) (columns (apply_as_exp R a)) = [])
      as ->; [|done].
    unfold apply_as_exp. cbn [columns].
    induction (columns R) as [|c cols IH]; [done |].
    rewrite fmap_cons. cbn [List.filter].
    rewrite ref_matches_qualified by done. cbn [name table].
    assert (String.eqb a b = false) as -> by (apply String.eqb_neq; congruence).
    by rewrite andb_false_r.
Qed.

Lemma alias_replaces_qualifier_witness :
  col_config_by_column_ref (apply_as_exp t_table "a") (qualified "t" "id")
  = Raise (SquidError (ColumnNotFound (qualified "t" "id"))).
Proof.
  destruct (alias_replaces_qualifier t_table "a") as (_ & _ & H).
  apply H; discriminate.
Defined.

(** ** Further properties: a chain of where queries *)

Lemma list_filter_true {A} (l : list A) : List.filter (fun _ => true) l = l.
Proof. induction l as [|x l IH]; simpl; by rewrite ?IH. Qed.

Lemma apply_where_queries_Ok (R : Table) (qs : list where_query) (R' : Table) :
  apply_where_queries R qs = Ok R' ->
  columns R' = columns R
  /\ rows R' = List.filter (fun r => forallb (fun q => satisfies R q r) qs) (rows R).
Proof.
  revert R. induction qs as [|q qs IH]; intros R; simpl.
  - intros [= <-]. by rewrite list_filter_true.
  - intros H. bind_inv H. rename x into R1.
    apply IH in H as [Hcols Hrows].
    apply apply_where_query_Ok in Hx as (test & Htest & _ & ->).
    cbn [columns rows] in *. split; [done |].
    rewrite Hrows, list_filter_filter. apply List.filter_ext. intros r.
    by rewrite (satisfies_test R q test r Htest).
Qed.

Lemma apply_where_query_on_fewer_rows (R R1 : Table) (q : where_query) (f : row -> bool) :
  columns R1 = columns R ->
  rows R1 = List.filter f (rows R) ->
  (exists Rq, apply_where_query R q = Ok Rq) ->
  exists Rq, apply_where_query R1 q = Ok Rq.
Proof.
  intros Hcols Hrows [Rq HRq].
  apply apply_where_query_Ok in HRq as (test & Htest & Hall & _).
  eexists. apply apply_where_query_Ok. exists test. split; [|split; [|done]].
  - by rewrite (where_test_columns R1 R q Hcols).
  - rewrite Hrows. by apply list_filter_Forall.
Qed.

Lemma forallb_Permutation {A} (f : A -> bool) (l l' : list A) :
  l ≡ₚ l' -> forallb f l = forallb f l'.
Proof.
  induction 1 as [|x l l' _ IH|x y l|l l' l'' _ IH1 _ IH2]; simpl.
  - done.
  - by rewrite IH.
  - by rewrite !andb_assoc, (andb_comm (f y)).
  - by rewrite IH1.
Qed.

(** A chain of where queries is one filter by their conjunction: when the
    chain succeeds it keeps the columns and exactly the rows that satisfy
    every query; it succeeds whenever each query succeeds on its own; and
    any two orders of the same queries that both succeed return the same
    relation. *)
Theorem where_chain_is_conjunction (R : Table) (qs : list where_query) :
  (forall R', apply_where_queries R qs = Ok R' ->
     columns R' = columns R
     /\ rows R' = List.filter (fun r => forallb (fun q => satisfies R q r) qs) (rows R)
     /\ rows R' `sublist_of` rows R)
  /\ (Forall (fun q => exists Rq, apply_where_query R q = Ok Rq) qs ->
      exists R', apply_where_queries R qs = Ok R')
  /\ (forall qs' R1 R2, qs ≡ₚ qs' ->
        apply_where_queries R qs = Ok R1 ->
        apply_where_queries R qs' = Ok R2 ->
        R1 = R2).
Proof.
  split; [|split].
  - intros R' H. apply apply_where_queries_Ok in H as [Hc Hr].
    split; [done |]. split; [done |]. rewrite Hr. apply list_filter_sublist.
  - revert R. induction qs as [|q qs IH]; intros R Hall; simpl; [by eexists |].
    apply Forall_cons in Hall as [[R1 HR1] Hall]. rewrite HR1. cbn [bind].
    apply IH. eapply Forall_impl; [exact Hall |]. intros q' Hq'. cbn beta.
    apply apply_where_query_Ok in HR1 as (test & _ & _ & ->).
    by eapply (apply_where_query_on_fewer_rows R).
  - intros qs' R1 R2 Hperm H1 H2.
    apply apply_where_queries_Ok in H1 as [Hc1 Hr1].
    apply apply_where_queries_Ok in H2 as [Hc2 Hr2].
    destruct R1 as [c1 r1], R2 as [c2 r2]. cbn [columns rows] in *. subst.
    f_equal. apply List.filter_ext. intros r. by apply forallb_Permutation.
Qed.

Lemma where_chain_is_conjunction_witness :
  exists R', apply_where_queries t_table [id_gt_1; label_ne_c] = Ok R'.
Proof.
  destruct (where_chain_is_conjunction t_table [id_gt_1; label_ne_c]) as (_ & H & _).
  apply H. repeat constructor; eexists; vm_compute; reflexivity.
Defined.

(** ** Further properties: well-typed relations *)

Lemma resolved_in_columns (R : Table) (column_ref : ColumnRef) (c : ColumnConfig) :
  col_config_by_column_ref R column_ref = Ok c -> c ∈ columns R.
Proof.
  intros H. apply (resolves_to_column R (mkSelectQuery column_ref None)). exact H.
Qed.

Lemma col_config_by_column_ref_raises (R : Table) (column_ref : ColumnRef) (e : exn) :
  col_config_by_column_ref R column_ref = Raise e -> exists se, e = SquidError se.
Proof.
  rewrite col_config_by_column_ref_resolution.
  destruct (List.filter _ _) as [|c [|c' l]]; simpl; [|done |];
    intros [= <-]; by eexists.
Qed.

Lemma getitem_raises {V} (d : list (string * V)) (key : string) (e : exn) :
  getitem d key = Raise e -> e = KeyError.
Proof.
  induction d as [|[k v] d IH]; simpl; [by intros [= <-] |].
  destruct (String.eqb k key); [done | exact IH].
Qed.

Lemma term_column_raises (t : term) (e : exn) :
  term_column t = Raise e -> e = KeyError.
Proof. destruct t; simpl; congruence. Qed.

Lemma term_literal_type (ty : string) (t : term) (v : value) :
  term_literal ("lit_" +:+ ty) t = Ok v -> value_type v = ty.
Proof.
  destruct t as [column_ref|z|s]; simpl; [done | |];
    change (EmptyString +:+ ty) with ty.
  - destruct (String.eqb_spec ty "int") as [-> | _]; [by intros [= <-] | done].
  - destruct (String.eqb_spec ty "str") as [-> | _]; [by intros [= <-] | done].
Qed.

Lemma term_literal_supported (key : string) (t : term) (v : value) :
  term_literal key t = Ok v -> value_type v ∈ SUPPORTED_COLUMN_TYPES.
Proof.
  rewrite supported_column_type.
  destruct t as [column_ref|z|s]; simpl; [done | |];
    destruct (String.eqb key _); intros [= <-]; auto.
Qed.

Lemma supported_ops_type (ty : string) (ops : list string) :
  getitem SUPPORTED_OPS_BY_COLUMN_TYPE ty = Ok ops -> ty ∈ SUPPORTED_COLUMN_TYPES.
Proof.
  rewrite supported_column_type. cbn [getitem SUPPORTED_OPS_BY_COLUMN_TYPE].
  destruct (String.eqb_spec "int" ty) as [<- | _]; [auto |].
  destruct (String.eqb_spec "str" ty) as [<- | _]; [auto | done].
Qed.

Lemma operator_func_on_one_type (op : string) (f : value -> value -> result bool)
    (l r : value) :
  getitem OPERATOR_FUNCS op = Ok f ->
  value_type l = value_type r ->
  value_type l ∈ SUPPORTED_COLUMN_TYPES ->
  exists b, f l r = Ok b.
Proof.
  intros Hf Hty Hsup. apply supported_column_type in Hsup.
  cbn [getitem OPERATOR_FUNCS] in Hf.
  repeat (destruct (String.eqb _ op);
          [injection Hf as <-; destruct l, r; try discriminate; try (by destruct Hsup);
           cbv [greater_than_or_equal_to less_than_or_equal_to greater_than less_than
                equal_to not_equal_to bind];
           repeat (destruct (_ <? _)%Z || destruct (String.ltb _ _)); by eexists |]).
  discriminate.
Qed.

Lemma typed_cell (R : Table) (r : row) (c : ColumnConfig) :
  Relation_inv R -> well_typed R -> r ∈ rows R -> c ∈ columns R ->
  exists v, py_index r (index c) = Ok v
            /\ r !! Z.to_nat (index c) = Some v
            /\ value_type v = type c.
Proof.
  intros Hinv Hty Hr Hc.
  destruct (extraction_in_range R r c Hinv Hr Hc) as (v & Hv & Hlook).
  exists v. split; [done |]. split; [done |].
  destruct Hinv as [Hp _]. destruct (positions_ok_spec _ Hp) as [Hpos _].
  apply list_elem_of_lookup in Hc as [k Hk].
  rewrite (Hpos k c Hk), Nat2Z.id in Hlook.
  unfold well_typed in Hty. rewrite Forall_forall in Hty.
  by apply (Hty r Hr k c v).
Qed.

Lemma where_test_raises (R : Table) (q : where_query) (e : exn) :
  where_test R q = Raise e -> (exists se, e = SquidError se) \/ e = KeyError.
Proof.
  destruct q as [q|q]; cbn [where_test].
  - unfold column_to_literal_test.
    destruct (term_column (column_term q)) as [column_ref|e0] eqn:Hterm; cbn [bind].
    2: { intros [= <-]. right. by eapply term_column_raises. }
    destruct (col_config_by_column_ref R column_ref) as [c|e0] eqn:Hcol; cbn [bind].
    2: { intros [= <-]. left. by eapply col_config_by_column_ref_raises. }
    destruct (negb _); [intros [= <-]; left; by eexists |].
    destruct (getitem SUPPORTED_OPS_BY_COLUMN_TYPE _) as [supported|e0] eqn:Hs; cbn [bind].
    2: { intros [= <-]. right. by eapply getitem_raises. }
    destruct (negb _); [intros [= <-]; left; by eexists |].
    destruct (getitem OPERATOR_FUNCS _) as [f|e0] eqn:Hf; cbn [bind].
    2: { intros [= <-]. right. by eapply getitem_raises. }
    destruct (term_literal _ _) as [lv|e0] eqn:Hlit; cbn [bind]; [done |].
    intros [= <-]. right. destruct (literal_term q); simpl in Hlit;
      repeat (destruct (String.eqb _ _)); congruence.
  - unfold column_to_column_test.
    destruct (term_column (ctc_left q)) as [left_ref|e0] eqn:Hl; cbn [bind].
    2: { intros [= <-]. right. by eapply term_column_raises. }
    destruct (col_config_by_column_ref R left_ref) as [lc|e0] eqn:Hlc; cbn [bind].
    2: { intros [= <-]. left. by eapply col_config_by_column_ref_raises. }
    destruct (term_column (ctc_right q)) as [right_ref|e0] eqn:Hr; cbn [bind].
    2: { intros [= <-]. right. by eapply term_column_raises. }
    destruct (col_config_by_column_ref R right_ref) as [rc|e0] eqn:Hrc; cbn [bind].
    2: { intros [= <-]. left. by eapply col_config_by_column_ref_raises. }
    destruct (negb _); [intros [= <-]; left; by eexists |].
    destruct (getitem SUPPORTED_OPS_BY_COLUMN_TYPE _) as [supported|e0] eqn:Hs; cbn [bind].
    2: { intros [= <-]. right. by eapply getitem_raises. }
    destruct (negb _); [intros [= <-]; left; by eexists |].
    destruct (getitem OPERATOR_FUNCS _) as [f|e0] eqn:Hf; cbn [bind]; [done |].
    intros [= <-]. right. by eapply getitem_raises.
Qed.

Lemma where_test_total_on_rows (R : Table) (q : where_query) (test : row -> result bool) :
  Relation_inv R -> well_typed R ->
  where_test R q = Ok test ->
  Forall (fun r => is_ok (test r) = true) (rows R).
Proof.
  intros Hinv Hty Htest. apply Forall_forall. intros r Hr.
  destruct q as [q|q]; cbn [where_test] in Htest.
  - unfold column_to_literal_test in Htest.
    bind_inv Htest. rename x into column_ref. bind_inv Htest. rename x into c.
    destruct (negb _); [discriminate |].
    bind_inv Htest. destruct (negb _); [discriminate |].
    bind_inv Htest. rename x0 into f. bind_inv Htest. rename x0 into lv.
    injection Htest as <-.
    destruct (typed_cell R r c Hinv Hty Hr) as (v & Hv & _ & Hvt);
      [by eapply resolved_in_columns |].
    rewrite Hv. cbn [bind]. pose proof (term_literal_supported _ _ _ Hx3) as Hsup.
    apply term_literal_type in Hx3.
    destruct (column_side q).
    + destruct (operator_func_on_one_type _ f v lv Hx2) as [b ->];
        [congruence | congruence | done].
    + destruct (operator_func_on_one_type _ f lv v Hx2) as [b ->];
        [congruence | done | done].
  - unfold column_to_column_test in Htest.
    bind_inv Htest. bind_inv Htest. rename x0 into lc.
    bind_inv Htest. bind_inv Htest. rename x1 into rc.
    destruct (String.eqb_spec (type lc) (type rc)) as [Heq | _]; [|discriminate].
    cbn [negb] in Htest.
    bind_inv Htest. destruct (negb _); [discriminate |].
    bind_inv Htest. rename x2 into f. injection Htest as <-.
    destruct (typed_cell R r lc Hinv Hty Hr) as (a & Ha & _ & Hat);
      [by eapply resolved_in_columns |].
    destruct (typed_cell R r rc Hinv Hty Hr) as (b & Hb & _ & Hbt);
      [by eapply resolved_in_columns |].
    rewrite Ha, Hb. cbn [bind]. apply supported_ops_type in Hx3.
    destruct (operator_func_on_one_type _ f a b Hx4) as [res ->];
      [congruence | congruence | done].
Qed.

(** On a relation that satisfies the invariant and is well typed, a where
    query never fails on a row: whatever it raises is a SquidError of the
    validation (resolution, type mismatch, unsupported operator) or the
    KeyError of a term or type missing from the tables, never an IndexError
    or a TypeError; and once the validation passes the filter succeeds. *)
Theorem where_fails_only_in_validation (R : Table) (q : where_query) :
  Relation_inv R -> well_typed R ->
  (forall e, apply_where_query R q = Raise e ->
             (exists se, e = SquidError se) \/ e = KeyError)
  /\ (forall test, where_test R q = Ok test ->
        exists R', apply_where_query R q = Ok R').
Proof.
  intros Hinv Hty.
  assert (forall test, where_test R q = Ok test ->
            exists R', apply_where_query R q = Ok R') as Hok.
  { intros test Htest. eexists. apply apply_where_query_Ok. exists test.
    split; [done |]. split; [|done]. by eapply where_test_total_on_rows. }
  split; [|exact Hok].
  intros e He. destruct (where_test R q) as [test|e'] eqn:Htest.
  - destruct (Hok test eq_refl) as [R' HR']. congruence.
  - rewrite apply_where_query_test, Htest in He. cbn [bind] in He.
    injection He as <-. by eapply where_test_raises.
Qed.

Lemma t_table_well_typed : well_typed t_table.
Proof.
  unfold well_typed. cbn.
  repeat (apply List.Forall_cons); [.. | apply List.Forall_nil];
    intros [|[|i]] c v Hc Hv; cbn in Hc, Hv; try discriminate;
    injection Hc as <-; injection Hv as <-; reflexivity.
Qed.

Lemma where_fails_only_in_validation_witness :
  exists R', apply_where_query t_table id_gt_1 = Ok R'.
Proof.
  destruct (where_fails_only_in_validation t_table id_gt_1 t_table_inv t_table_well_typed)
    as [_ H].
  destruct (where_test t_table id_gt_1) as [test|e] eqn:Htest.
  - by apply (H test).
  - vm_compute in Htest. discriminate.
Defined.

Lemma merge_tables_well_typed (A B : Table) :
  Relation_inv A -> well_typed A -> well_typed B -> well_typed (merge_tables A B).
Proof.
  intros [_ HlenA] HA HB. unfold well_typed in *.
  rewrite Forall_forall in HlenA, HA, HB. apply Forall_forall. intros r Hr.
  unfold merge_tables in *. cbn [columns rows] in *.
  apply list_elem_of_bind in Hr as (a & Hr & Ha).
  apply list_elem_of_bind in Hr as (b & Hr & Hb).
  apply list_elem_of_singleton in Hr as ->.
  intros i c v Hc Hv.
  destruct (decide (i < length (columns A))) as [Hlt | Hge].
  - rewrite lookup_app_l in Hc by done.
    rewrite lookup_app_l in Hv by (by rewrite (HlenA a Ha)).
    by apply (HA a Ha i).
  - rewrite lookup_app_r in Hc by lia.
    rewrite lookup_app_r in Hv by (rewrite (HlenA a Ha); lia).
    rewrite (HlenA a Ha) in Hv.
    rewrite list_lookup_fmap in Hc.
    destruct (columns B !! (i - length (columns A))) as [c0|] eqn:Hc0; [|done].
    injection Hc as <-. cbn [type]. by apply (HB b Hb (i - length (columns A))).
Qed.

Lemma apply_where_query_well_typed (R : Table) (q : where_query) (R' : Table) :
  well_typed R -> apply_where_query R q = Ok R' -> well_typed R'.
Proof.
  intros Hty H. apply apply_where_query_Ok in H as (test & _ & _ & ->).
  unfold well_typed in *. cbn [columns rows]. by apply list_filter_Forall.
Qed.

Lemma apply_as_exp_well_typed (R : Table) (as_name : string) :
  well_typed R -> well_typed (apply_as_exp R as_name).
Proof.
  unfold well_typed, apply_as_exp. cbn [columns rows]. intros Hty.
  eapply Forall_impl; [exact Hty |]. intros r Hr i c v Hc Hv.
  rewrite list_lookup_fmap in Hc.
  destruct (columns R !! i) as [c0|] eqn:Hc0; [|done].
  injection Hc as <-. cbn [type]. by apply (Hr i).
Qed.

Lemma select_loop_found (R : Table) (qs : list select_query)
    (found : list ColumnConfig) (names : gmap ColumnConfig string)
    (found' : list ColumnConfig) (names' : gmap ColumnConfig string) :
  select_loop R qs found names = Ok (found', names') ->
  exists cs, found' = found ++ cs /\ Forall2 (resolves_to R) qs cs.
Proof.
  revert found names. induction qs as [|q qs IH]; intros found names; cbn [select_loop].
  - intros [= <- <-]. exists []. split; [by rewrite app_nil_r | constructor].
  - intros H. bind_inv H. rename x into c.
    destruct (bool_decide _); [discriminate |].
    apply IH in H as (cs & -> & HF). exists (c :: cs).
    split; [by rewrite <- app_assoc | by constructor].
Qed.

Lemma rename_columns_types names (i : Z) (found cols : list ColumnConfig) :
  rename_columns names i found = Ok cols ->
  Forall2 (fun c c' => type c' = type c /\ table c' = table c) found cols.
Proof.
  revert i cols. induction found as [|c found IH]; intros i cols; simpl.
  - intros [= <-]. constructor.
  - intros H. bind_inv H. bind_inv H. injection H as <-.
    constructor; [done | by eapply IH].
Qed.

Lemma apply_select_queries_well_typed (R : Table) (qs : list select_query) (R' : Table) :
  Relation_inv R -> well_typed R ->
  apply_select_queries R qs = Ok R' -> well_typed R'.
Proof.
  intros Hinv Hty H. unfold apply_select_queries in H.
  bind_inv H. destruct x as [found names]. cbn [fst snd] in H.
  bind_inv H. rename x into new_rows. bind_inv H. rename x into new_columns.
  injection H as <-.
  apply select_loop_found in Hx as (cs & Hfound & HF). cbn [app] in Hfound. subst found.
  assert (Forall (fun c => c ∈ columns R) cs) as Hcols.
  { clear -HF. induction HF; constructor; eauto using resolves_to_column. }
  apply rename_columns_types in Hx1.
  unfold filter_rows_by_column_indexes in Hx0. apply for_each_Forall2 in Hx0.
  unfold well_typed. cbn [columns rows]. apply Forall_forall. intros r' Hr'.
  apply list_elem_of_lookup in Hr' as [j Hj].
  destruct (Forall2_lookup_r _ _ _ _ _ Hx0 Hj) as (r & Hr & Hextract).
  cbn beta in Hextract. apply for_each_Forall2 in Hextract.
  intros i c' v Hc' Hv.
  destruct (Forall2_lookup_r _ _ _ _ _ Hx1 Hc') as (c & Hc & Htype & _).
  destruct (Forall2_lookup_r _ _ _ _ _ Hextract Hv) as (idx & Hidx & Hpy).
  rewrite list_lookup_fmap, Hc in Hidx. injection Hidx as <-.
  destruct (typed_cell R r c Hinv Hty) as (v0 & Hv0 & _ & Hvt).
  - apply list_elem_of_lookup. eauto.
  - rewrite Forall_forall in Hcols. apply Hcols. apply list_elem_of_lookup. eauto.
  - congruence.
Qed.

(** Declared types are kept: on relations that satisfy the invariant, merge,
    both filters, projection and alias return well-typed relations from
    well-typed ones (every value has the declared type of the column at its
    offset). *)
Theorem operations_preserve_types :
  (forall A B, Relation_inv A -> well_typed A -> well_typed B ->
     well_typed (merge_tables A B))
  /\ (forall R q R', well_typed R -> apply_where_query R q = Ok R' -> well_typed R')
  /\ (forall R qs R', Relation_inv R -> well_typed R ->
        apply_select_queries R qs = Ok R' -> well_typed R')
  /\ (forall R as_name, well_typed R -> well_typed (apply_as_exp R as_name)).
Proof.
  split; [exact merge_tables_well_typed |].
  split; [exact apply_where_query_well_typed |].
  split; [exact apply_select_queries_well_typed |].
  exact apply_as_exp_well_typed.
Qed.

Lemma operations_preserve_types_witness :
  well_typed two_ids
  /\ well_typed (mkTable [mkColumnConfig "t" "label" "str" 0]
                         [ [VStr "a"]; [VStr "b"]; [VStr "c"] ]).
Proof.
  destruct operations_preserve_types as (Hm & _ & Hs & Ha).
  split.
  - apply Hm; [apply apply_as_exp_inv, t_table_inv | |];
      apply Ha, t_table_well_typed.
  - apply (Hs t_table [select (unqualified "label") None]);
      [exact t_table_inv | exact t_table_well_typed | vm_compute; reflexivity].
Defined.

Lemma merge_tables_supported (A B : Table) :
  supported_types A -> supported_types B -> supported_types (merge_tables A B).
Proof.
  unfold supported_types, merge_tables. cbn [columns]. intros HA HB.
  apply Forall_app. split; [done |]. apply Forall_fmap.
  eapply Forall_impl; [exact HB | done].
Qed.

Lemma apply_where_query_supported (R : Table) (q : where_query) (R' : Table) :
  supported_types R -> apply_where_query R q = Ok R' -> supported_types R'.
Proof. intros Hs H. by apply apply_where_query_Ok in H as (test & _ & _ & ->). Qed.

Lemma apply_as_exp_supported (R : Table) (as_name : string) :
  supported_types R -> supported_types (apply_as_exp R as_name).
Proof.
  unfold supported_types, apply_as_exp. cbn [columns]. intros Hs.
  apply Forall_fmap. eapply Forall_impl; [exact Hs | done].
Qed.

Lemma apply_select_queries_supported (R : Table) (qs : list select_query) (R' : Table) :
  supported_types R -> apply_select_queries R qs = Ok R' -> supported_types R'.
Proof.
  intros Hs H. unfold apply_select_queries in H.
  bind_inv H. destruct x as [found names]. cbn [fst snd] in H.
  bind_inv H. bind_inv H. rename x0 into new_columns. injection H as <-.
  apply select_loop_found in Hx as (cs & Hfound & HF). cbn [app] in Hfound. subst found.
  assert (Forall (fun c => c ∈ columns R) cs) as Hcols.
  { clear -HF. induction HF; constructor; eauto using resolves_to_column. }
  apply rename_columns_types in Hx1.
  unfold supported_types in *. cbn [columns]. apply Forall_forall. intros c' Hc'.
  apply list_elem_of_lookup in Hc' as [i Hi].
  destruct (Forall2_lookup_r _ _ _ _ _ Hx1 Hi) as (c & Hc & -> & _).
  rewrite Forall_forall in Hs, Hcols. apply Hs, Hcols.
  apply list_elem_of_lookup. eauto.
Qed.

(** On a well-formed relation every cell is an int or a str. *)
Lemma well_formed_cells (R : Table) :
  well_formed R -> Forall (Forall (fun v => formattable v = true)) (rows R).
Proof.
  intros ([Hpos Hlen] & Hty & Hs). unfold well_typed, supported_types in *.
  rewrite Forall_forall in Hlen, Hty. rewrite Forall_forall in Hs.
  apply Forall_forall. intros r Hr. apply Forall_forall. intros v Hv.
  apply list_elem_of_lookup in Hv as [i Hi].
  destruct (lookup_lt_is_Some_2 (columns R) i) as [c Hc].
  { rewrite <- (Hlen r Hr). by eapply lookup_lt_Some. }
  apply supported_value_formattable. rewrite (Hty r Hr i c v Hc Hi).
  apply Hs. apply list_elem_of_lookup. eauto.
Qed.

(** ** Further properties: loading tables *)

Lemma construct_col_configs_spec (table_name : string) (i : Z)
    (raw_columns : list (string * string)) :
  index <$> construct_col_configs table_name i raw_columns
  = seqZ i (Z.of_nat (length raw_columns))
  /\ length (construct_col_configs table_name i raw_columns) = length raw_columns
  /\ Forall (fun c => table c = table_name)
            (construct_col_configs table_name i raw_columns)
  /\ name <$> construct_col_configs table_name i raw_columns = raw_columns.*1
  /\ type <$> construct_col_configs table_name i raw_columns = raw_columns.*2.
Proof.
  revert i. induction raw_columns as [|[n ty] raw IH]; intros i.
  - repeat split. constructor.
  - destruct (IH (i + 1)%Z) as (Hi & Hl & Ht & Hn & Hty).
    cbn [construct_col_configs]. rewrite !fmap_cons. cbn [index name type length].
    rewrite Hi, Hl, Hn, Hty. repeat split.
    + rewrite (seqZ_cons i) by lia. do 2 f_equal; lia.
    + by constructor.
Qed.

Lemma from_file_spec (table_name : string) (raw_columns : list (string * string))
    (raw_rows : list row) :
  let T := from_file table_name raw_columns raw_rows in
  positions_ok (columns T)
  /\ Forall (fun c => table c = table_name) (columns T)
  /\ name <$> columns T = raw_columns.*1
  /\ type <$> columns T = raw_columns.*2
  /\ rows T = raw_rows
  /\ (Relation_inv T <-> Forall (fun r => length r = length raw_columns) raw_rows).
Proof.
  intros T. subst T. unfold from_file, validate_and_construct_col_configs.
  cbn [columns rows].
  destruct (construct_col_configs_spec table_name 0 raw_columns)
    as (Hi & Hl & Ht & Hn & Hty).
  assert (positions_ok (construct_col_configs table_name 0 raw_columns)) as Hp
    by (unfold positions_ok; by rewrite Hi, Hl).
  repeat split; try done.
  - intros [_ H]. cbn [columns rows] in H. by rewrite Hl in H.
  - cbn [columns rows]. by rewrite Hl.
Qed.

(** What [from_file] builds: the columns of the header in order, qualified
    by the table name and positioned 0..N-1, over the data rows as they are.
    Neither the rows nor the type names are checked: the result satisfies
    the Relation invariant exactly when every data row has one value per
    header entry. *)
Theorem from_file_catalog (table_name : string) (raw_columns : list (string * string))
    (raw_rows : list row) :
  let T := from_file table_name raw_columns raw_rows in
  positions_ok (columns T)
  /\ Forall (fun c => table c = table_name) (columns T)
  /\ name <$> columns T = raw_columns.*1
  /\ type <$> columns T = raw_columns.*2
  /\ rows T = raw_rows
  /\ (Relation_inv T <-> Forall (fun r => length r = length raw_columns) raw_rows).
Proof. apply from_file_spec. Qed.

Lemma from_file_well_formed (table_name : string) (content : file_content)
    (raw : table_file) (raw_columns : list (string * string)) :
  file_well_formed content ->
  loadable content raw raw_columns ->
  well_formed (from_file table_name raw_columns (file_rows raw)).
Proof.
  intros (raw' & raw_columns' & [-> Hu'] & Hsup & Hf) [[= ->] Hu].
  assert (raw_columns' = raw_columns) as -> by congruence.
  destruct (from_file_spec table_name raw_columns (file_rows raw))
    as (Hp & _ & _ & Hty & _ & Hinv).
  split; [|split].
  - apply Hinv. eapply Forall_impl; [exact Hf |]. intros r Hr. cbn beta in *.
    exact (Forall2_length _ _ _ Hr).
  - unfold well_typed. cbn [rows from_file].
    eapply Forall_impl; [exact Hf |]. intros r Hr i c v Hc Hv.
    destruct (Forall2_lookup_l _ _ _ _ _ Hr Hv) as (h & Hh & Hvh).
    assert ((type <$> columns (from_file table_name raw_columns (file_rows raw))) !! i
            = Some (type c)) as Hci by (by rewrite list_lookup_fmap, Hc).
    rewrite Hty, list_lookup_fmap, Hh in Hci. injection Hci as Hci. congruence.
  - unfold supported_types. apply Forall_forall. intros c Hc.
    assert (type c ∈ type <$> columns (from_file table_name raw_columns (file_rows raw)))
      as Hin by (by apply list_elem_of_fmap_2).
    rewrite Hty in Hin. apply list_elem_of_fmap in Hin as (h & -> & Hh).
    rewrite Forall_forall in Hsup. by apply Hsup.
Qed.

Lemma num_rows_of_array (n : nat) : (Z.of_nat (S n) - 1)%Z = Z.of_nat n.
Proof. lia. Qed.

Lemma load_or_get_table_inr (files : gmap string file_content) (table_name : string)
    (st : state) (T : Table) (st1 : state) :
  load_or_get_table files table_name st = (inr T, st1) ->
  (table_cache (table_loader st) !! table_name = Some T /\ st1 = st)
  \/ (table_cache (table_loader st) !! table_name = None
      /\ exists content raw raw_columns,
           files !! name_to_filename (table_loader st) table_name = Some content
           /\ loadable content raw raw_columns
           /\ T = from_file table_name raw_columns (file_rows raw)
           /\ table_loader st1
              = mkTableLoader (filename_extra (table_loader st))
                  (<[table_name := T]> (table_cache (table_loader st)))
           /\ printed st1
              = printed st
                ++ [announcement (name_to_filename (table_loader st) table_name)
                      (Z.of_nat (length (file_rows raw)))]).
Proof.
  unfold load_or_get_table, load_table_from_file.
  destruct (table_cache (table_loader st) !! table_name) as [cached|] eqn:Hc.
  - intros [= <- <-]. by left.
  - destruct (files !! _) as [[|[|raw]]|] eqn:Hf; [done | done | | done].
    destruct (unpack_entries (file_header raw)) as [raw_columns|] eqn:Hu; [|done].
    intros [= <- <-]. right. split; [done |].
    exists (Json (TableArray raw)), raw, raw_columns.
    split; [done |]. split; [done |]. split; [done |]. split; [done |].
    cbn [printed len]. by rewrite num_rows_of_array.
Qed.

(** What a load that fails leaves behind, cause by cause. *)
Lemma load_or_get_table_inl (files : gmap string file_content) (table_name : string)
    (st : state) (e : run_exn) (st1 : state) :
  let filename := name_to_filename (table_loader st) table_name in
  load_or_get_table files table_name st = (inl e, st1) ->
  table_cache (table_loader st) !! table_name = None
  /\ table_loader st1 = table_loader st
  /\ (files !! filename = None /\ e = TableDoesNotExist table_name /\ st1 = st
      \/ files !! filename = Some NotJson /\ e = JSONDecodeError /\ st1 = st
      \/ files !! filename = Some (Json EmptyArray) /\ e = EngineError IndexError
         /\ printed st1 = printed st ++ [announcement filename (-1)]
      \/ exists raw,
           files !! filename = Some (Json (TableArray raw))
           /\ unpack_entries (file_header raw) = None /\ e = ValueError
           /\ printed st1
              = printed st ++ [announcement filename (Z.of_nat (length (file_rows raw)))]).
Proof.
  intros filename. subst filename. unfold load_or_get_table, load_table_from_file.
  destruct (table_cache (table_loader st) !! table_name) eqn:Hc; [discriminate |].
  destruct (files !! _) as [[|[|raw]]|] eqn:Hf.
  - intros [= <- <-]. split; [done |]. split; [done |]. right. by left.
  - intros [= <- <-]. split; [done |]. split; [done |]. right. right. by left.
  - destruct (unpack_entries (file_header raw)) as [raw_columns|] eqn:Hu; [discriminate |].
    intros [= <- <-]. split; [done |]. split; [done |]. right. right. right.
    exists raw. split; [done |]. split; [done |]. split; [done |].
    cbn [printed len]. by rewrite num_rows_of_array.
  - intros [= <- <-]. split; [done |]. split; [done |]. by left.
Qed.

(** The loader reads a table once, and only a table it has built is cached.
    (1) After a successful [load_or_get_table] the table is in the cache
        under its name, the other entries are as before, and asking again
        returns the same table without reading any file or printing
        anything, whatever is on disk by then; a table that was already
        cached is returned with the state untouched.
    (2) Only a table that is not cached can fail to load, and a load that
        fails leaves the loader and its cache as they were.
    (3) For a table that is not cached, a missing file fails the load with
        the table-does-not-exist SquidError and text that is not JSON with
        the decoding error, both with the state untouched; an empty array
        fails it with the IndexError of [pop(0)], after an announcement of
        -1 rows has been printed; and a header entry that does not unpack
        into a name and a type with a ValueError, after the announcement of
        the file's rows.  Only the missing file becomes a SquidError.
    (4) A failure is not remembered: asking again with the same files fails
        with the same error. *)
Theorem load_or_get_table_caches (files files' : gmap string file_content)
    (table_name : string) (st : state) :
  let filename := name_to_filename (table_loader st) table_name in
  let announced num_rows :=
    mkState (table_loader st) (printed st ++ [announcement filename num_rows]) in
  (forall T st1,
     load_or_get_table files table_name st = (inr T, st1) ->
     table_cache (table_loader st1) !! table_name = Some T
     /\ load_or_get_table files' table_name st1 = (inr T, st1)
     /\ (forall other, other <> table_name ->
           table_cache (table_loader st1) !! other
           = table_cache (table_loader st) !! other)
     /\ (is_Some (table_cache (table_loader st) !! table_name) -> st1 = st))
  /\ (forall e st1,
        load_or_get_table files table_name st = (inl e, st1) ->
        table_loader st1 = table_loader st
        /\ table_cache (table_loader st) !! table_name = None)
  /\ (table_cache (table_loader st) !! table_name = None ->
      (files !! filename = None ->
       load_or_get_table files table_name st = (inl (TableDoesNotExist table_name), st))
      /\ (files !! filename = Some NotJson ->
          load_or_get_table files table_name st = (inl JSONDecodeError, st))
      /\ (files !! filename = Some (Json EmptyArray) ->
          load_or_get_table files table_name st
          = (inl (EngineError IndexError), announced (-1)%Z))
      /\ (forall raw,
            files !! filename = Some (Json (TableArray raw)) ->
            unpack_entries (file_header raw) = None ->
            load_or_get_table files table_name st
            = (inl ValueError, announced (Z.of_nat (length (file_rows raw))))))
  /\ (forall e st1,
        load_or_get_table files table_name st = (inl e, st1) ->
        exists st2, load_or_get_table files table_name st1 = (inl e, st2)).
Proof.
  intros filename announced. split; [|split; [|split]].
  - intros T st1 H.
    assert (table_cache (table_loader st1) !! table_name = Some T) as Hcached.
    { apply load_or_get_table_inr in H
        as [[Hc ->] | (_ & content & raw & cols & _ & _ & _ & -> & _)];
        [done | apply lookup_insert_eq]. }
    split; [done |]. split; [|split].
    + unfold load_or_get_table. by rewrite Hcached.
    + intros other Hne.
      apply load_or_get_table_inr in H
        as [[_ ->] | (_ & content & raw & cols & _ & _ & _ & -> & _)];
        [done | by apply lookup_insert_ne].
    + intros [T0 HT0].
      apply load_or_get_table_inr in H as [[_ ->] | (Hnone & _)]; [done | congruence].
  - intros e st1 H. by apply load_or_get_table_inl in H as (Hc & Hl & _).
  - intros Hc. unfold load_or_get_table, load_table_from_file. rewrite Hc.
    fold filename. split; [by intros -> |]. split; [by intros -> |].
    split; [by intros -> |]. intros raw -> ->. unfold announced. cbn [len].
    by rewrite num_rows_of_array.
  - intros e st1 H. pose proof H as H'.
    apply load_or_get_table_inl in H' as (Hc & Hl & _).
    revert H. unfold load_or_get_table, load_table_from_file. rewrite Hl, Hc.
    destruct (files !! _) as [[|[|raw]]|].
    + intros [= <- _]. by eexists.
    + intros [= <- _]. by eexists.
    + destruct (unpack_entries (file_header raw)); [discriminate |].
      intros [= <- _]. by eexists.
    + intros [= <- _]. by eexists.
Qed.

Lemma load_or_get_table_caches_witness :
  (exists T st1,
     load_or_get_table disk "t" initial_state = (inr T, st1)
     /\ load_or_get_table broken_disk "t" st1 = (inr T, st1))
  /\ load_or_get_table broken_disk "t" initial_state
     = (inl (TableDoesNotExist "t"), initial_state)
  /\ load_or_get_table broken_disk "j" initial_state
     = (inl JSONDecodeError, initial_state)
  /\ load_or_get_table broken_disk "e" initial_state
     = (inl (EngineError IndexError),
        mkState (table_loader initial_state)
          [announcement "e.table.json" (-1)])
  /\ load_or_get_table broken_disk "h" initial_state
     = (inl ValueError,
        mkState (table_loader initial_state)
          [announcement "h.table.json" 1]).
Proof.
  split; [|split; [|split; [|split]]].
  - destruct (load_or_get_table disk "t" initial_state) as [[e|T] st1] eqn:H.
    + vm_compute in H. discriminate.
    + exists T, st1. split; [reflexivity |].
      by apply (load_or_get_table_caches disk broken_disk "t" initial_state).
  - destruct (load_or_get_table_caches broken_disk ∅ "t" initial_state)
      as (_ & _ & H & _).
    destruct H as (H & _); [reflexivity |]. apply H. reflexivity.
  - destruct (load_or_get_table_caches broken_disk ∅ "j" initial_state)
      as (_ & _ & H & _).
    destruct H as (_ & H & _); [reflexivity |]. apply H. reflexivity.
  - destruct (load_or_get_table_caches broken_disk ∅ "e" initial_state)
      as (_ & _ & H & _).
    destruct H as (_ & _ & H & _); [reflexivity |]. apply H. reflexivity.
  - destruct (load_or_get_table_caches broken_disk ∅ "h" initial_state)
      as (_ & _ & H & _).
    destruct H as (_ & _ & _ & H); [reflexivity |].
    apply (H (mkTableFile [ ["id"; "int"]; ["label"] ] [ [VInt 1; VStr "a"] ]));
      reflexivity.
Defined.

(** ** Further properties: the printer *)

Lemma string_length_app (a b : string) :
  String.length (a +:+ b) = String.length a + String.length b.
Proof. induction a as [|ch a IH]; simpl; [done | by rewrite IH]. Qed.

Lemma str_repeat_length (s : string) (n : nat) :
  String.length (str_repeat s n) = n * String.length s.
Proof.
  induction n as [|n IH]; simpl; [done |]. by rewrite string_length_app, IH.
Qed.

Lemma pad_length (f : formatter) (text : string) :
  String.length (pad f text) = formatter_width f `max` String.length text.
Proof.
  destruct f; simpl; rewrite string_length_app, str_repeat_length; simpl; lia.
Qed.

Lemma format_formattable (f : formatter) (v : value) :
  formattable v = true -> format f v = Ok (pad f (str v)).
Proof. by destruct v. Qed.

Lemma format_not_formattable (f : formatter) (v : value) :
  formattable v = false -> format f v = Raise TypeError.
Proof. by destruct v. Qed.

(** [zip] stops at the shorter list: of a row, the cells up to the number
    of formatters are formatted, from the left, and the first one that is
    not formattable raises. *)
Lemma format_cells_spec (fs : list formatter) (r : row) :
  Forall (fun v => formattable v = true) (take (length fs) r)
  /\ for_each (fun fv : formatter * value => format fv.1 fv.2) (zip fs r)
     = Ok (zip_with (fun f v => pad f (str v)) fs r)
  \/ Exists (fun v => formattable v = false) (take (length fs) r)
     /\ for_each (fun fv : formatter * value => format fv.1 fv.2) (zip fs r)
        = Raise TypeError.
Proof.
  revert r. induction fs as [|f fs IH]; intros r.
  { left. by split; [constructor |]. }
  destruct r as [|v r].
  { left. by split; [constructor |]. }
  change (take (length (f :: fs)) (v :: r)) with (v :: take (length fs) r).
  cbn [zip_with for_each fst snd].
  destruct (formattable v) eqn:Hv.
  - rewrite (format_formattable f v Hv). cbn [bind].
    destruct (IH r) as [[HF ->] | [HE ->]]; cbn [bind].
    + left. by split; [constructor |].
    + right. by split; [apply Exists_cons_tl |].
  - rewrite (format_not_formattable f v Hv). cbn [bind].
    right. by split; [apply Exists_cons_hd |].
Qed.

Lemma stringify_row_spec (divider : string) (fs : list formatter) (r : row) :
  Forall (fun v => formattable v = true) (take (length fs) r)
  /\ stringify_row divider fs r = Ok (padded_row divider fs r)
  \/ Exists (fun v => formattable v = false) (take (length fs) r)
     /\ stringify_row divider fs r = Raise TypeError.
Proof.
  unfold stringify_row, padded_row.
  destruct (format_cells_spec fs r) as [[H ->] | [H ->]]; [by left | by right].
Qed.

Lemma stringify_rows_spec (divider : string) (fs : list formatter) (rs : list row) :
  Forall (fun r : row => Forall (fun v => formattable v = true) (take (length fs) r)) rs
  /\ for_each (stringify_row divider fs) rs = Ok (padded_row divider fs <$> rs)
  \/ Exists (fun r : row => Exists (fun v => formattable v = false)
                                   (take (length fs) r)) rs
     /\ for_each (stringify_row divider fs) rs = Raise TypeError.
Proof.
  induction rs as [|r rs IH].
  { left. by split; [constructor |]. }
  cbn [for_each].
  destruct (stringify_row_spec divider fs r) as [[Hr ->] | [Hr ->]]; cbn [bind].
  - destruct IH as [[HF ->] | [HE ->]]; cbn [bind].
    + left. by split; [constructor |].
    + right. by split; [apply Exists_cons_tl |].
  - right. by split; [apply Exists_cons_hd |].
Qed.

Lemma not_formattable_Forall (l : list value) :
  Exists (fun v => formattable v = false) l ->
  ~ Forall (fun v => formattable v = true) l.
Proof.
  intros HE HF. apply Exists_exists in HE as (v & Hv & Hf).
  rewrite Forall_forall in HF. specialize (HF v Hv). congruence.
Qed.

Lemma concat_length (d : string) (l : list string) :
  String.length (String.concat d l)
  = sum_list (String.length <$> l) + String.length d * (length l - 1).
Proof.
  induction l as [|x l IH]; [by rewrite Nat.mul_0_r |].
  destruct l as [|y l].
  - simpl. lia.
  - change (String.concat d (x :: y :: l)) with (x +:+ d +:+ String.concat d (y :: l)).
    rewrite !string_length_app, IH. simpl. lia.
Qed.

Lemma py_index_nat_Ok {A} (l : list A) (k : nat) (x : A) :
  py_index l (Z.of_nat k) = Ok x -> l !! k = Some x.
Proof.
  unfold py_index.
  destruct (Z.ltb_spec (Z.of_nat k) 0); [lia |].
  destruct (Z.ltb_spec (Z.of_nat k) 0); [lia |].
  rewrite Nat2Z.id. destruct (l !! k); [by intros [= <-] | done].
Qed.

Lemma py_index_last {A} (l : list A) (x : A) :
  py_index l (-1) = Ok x -> l !! (length l - 1) = Some x /\ l <> [].
Proof.
  unfold py_index. cbn [Z.ltb Z.compare].
  destruct (Z.ltb_spec (-1 + Z.of_nat (length l)) 0) as [Hlt | Hge]; [done |].
  replace (Z.to_nat (-1 + Z.of_nat (length l))) with (length l - 1) by lia.
  destruct (l !! (length l - 1)) eqn:Hl; [|done].
  intros [= <-]. split; [done |]. intros ->. simpl in Hge. lia.
Qed.

Lemma create_col_formatters_widths (col_max_widths : list nat) (fs : list formatter) :
  create_col_formatters col_max_widths = Ok fs ->
  formatter_width <$> fs = col_max_widths /\ col_max_widths <> [].
Proof.
  unfold create_col_formatters. intros H. bind_inv H. injection H as <-.
  apply py_index_last in Hx as [Hlast Hne]. split; [|done].
  rewrite fmap_app, <- list_fmap_compose. cbn [fmap list_fmap formatter_width].
  change (formatter_width ∘ LeftAligned) with (@id nat).
  rewrite list_fmap_id, <- (take_S_r _ _ _ Hlast).
  apply take_ge. lia.
Qed.

Lemma widths_of_row_spec (r : row) (indexes : list nat) (w w' : list nat) :
  widths_of_row r indexes w = Ok w' ->
  length w' = length w
  /\ forall i wi, w !! i = Some wi ->
       exists wi', w' !! i = Some wi' /\ wi <= wi'
         /\ (i ∈ indexes -> exists cell, r !! i = Some cell /\ cell_length cell <= wi')
         /\ (wi' = wi \/ exists cell, r !! i = Some cell /\ cell_length cell = wi').
Proof.
  revert w. induction indexes as [|index rest IH]; intros w; cbn [widths_of_row].
  - intros [= <-]. split; [done |]. intros i wi Hi. exists wi.
    split; [done |]. split; [lia |]. split; [|by left].
    intros Hin. inversion Hin.
  - intros H. bind_inv H. rename x into cell. bind_inv H. rename x into seen.
    apply py_index_nat_Ok in Hx, Hx0. fold (cell_length cell) in H.
    destruct (IH _ H) as [Hlen Hall]. clear IH H.
    assert (index < length w) as Hindex by (by eapply lookup_lt_Some).
    split.
    { rewrite Hlen. destruct (seen <? cell_length cell)%nat; [apply length_insert | done]. }
    intros i wi Hi.
    assert (exists wi1,
              (if (seen <? cell_length cell)%nat
               then <[index := cell_length cell]> w else w) !! i = Some wi1
              /\ wi <= wi1
              /\ (i = index -> cell_length cell <= wi1)
              /\ (wi1 = wi \/ i = index /\ wi1 = cell_length cell)) as (wi1 & H1 & Hle & Hcell & Hatt).
    { destruct (Nat.ltb_spec seen (cell_length cell)) as [Hlt | Hge].
      - destruct (decide (i = index)) as [-> | Hne].
        + exists (cell_length cell). rewrite list_lookup_insert_eq by done.
          assert (wi = seen) as -> by congruence.
          repeat split; [lia | done | by right].
        + exists wi. rewrite list_lookup_insert_ne by done.
          repeat split; [done | lia | done | by left].
      - exists wi. repeat split; [done | lia | | by left].
        intros ->. assert (wi = seen) as -> by congruence. lia. }
    destruct (Hall i wi1 H1) as (wi' & H' & Hle' & Hin' & Hatt').
    exists wi'. split; [done |]. split; [lia |]. split.
    + intros Hin. apply elem_of_cons in Hin as [-> | Hin]; [|by apply Hin'].
      exists cell. split; [done |]. specialize (Hcell eq_refl). lia.
    + destruct Hatt' as [-> | Hatt']; [|by right].
      destruct Hatt as [-> | [-> ->]]; [by left |]. right. by exists cell.
Qed.

Lemma widths_of_rows_spec (rs : list row) (indexes : list nat) (w w' : list nat) :
  widths_of_rows rs indexes w = Ok w' ->
  length w' = length w
  /\ forall i wi, w !! i = Some wi ->
       exists wi', w' !! i = Some wi' /\ wi <= wi'
         /\ (i ∈ indexes -> forall r, r ∈ rs ->
               exists cell, r !! i = Some cell /\ cell_length cell <= wi')
         /\ (wi' = wi
             \/ exists r cell, r ∈ rs /\ r !! i = Some cell /\ cell_length cell = wi').
Proof.
  revert w. induction rs as [|r rs IH]; intros w; cbn [widths_of_rows].
  - intros [= <-]. split; [done |]. intros i wi Hi. exists wi.
    split; [done |]. split; [lia |]. split; [|by left].
    intros _ r Hr. inversion Hr.
  - intros H. bind_inv H. rename x into w1.
    apply widths_of_row_spec in Hx as [Hlen1 Hall1].
    destruct (IH _ H) as [Hlen Hall]. clear IH H.
    split; [congruence |]. intros i wi Hi.
    destruct (Hall1 i wi Hi) as (wi1 & H1 & Hle1 & Hin1 & Hatt1).
    destruct (Hall i wi1 H1) as (wi' & H' & Hle' & Hin' & Hatt').
    exists wi'. split; [done |]. split; [lia |]. split.
    + intros Hin r0 Hr0. apply elem_of_cons in Hr0 as [-> | Hr0]; [|by apply Hin'].
      destruct (Hin1 Hin) as (cell & Hcell & Hc). exists cell. split; [done | lia].
    + destruct Hatt' as [-> | (r0 & cell & Hr0 & Hcell & Hc)].
      * destruct Hatt1 as [-> | (cell & Hcell & Hc)]; [by left |].
        right. exists r, cell. split; [by left | done].
      * right. exists r0, cell. split; [by right | done].
Qed.

Lemma find_col_max_widths_spec (all_rows : list row) (w : list nat) :
  find_col_max_widths all_rows = Ok w ->
  exists first,
    all_rows !! 0 = Some first
    /\ length w = length first
    /\ forall i, i < length first ->
         exists wi, w !! i = Some wi
           /\ (forall r, r ∈ all_rows ->
                 exists cell, r !! i = Some cell /\ cell_length cell <= wi)
           /\ (exists r cell, r ∈ all_rows /\ r !! i = Some cell /\ cell_length cell = wi).
Proof.
  unfold find_col_max_widths. intros H. bind_inv H. rename x into first.
  apply (py_index_nat_Ok all_rows 0) in Hx.
  apply widths_of_rows_spec in H as [Hlen Hall].
  rewrite length_replicate in Hlen.
  exists first. split; [done |]. split; [done |]. intros i Hi.
  destruct (Hall i 0) as (wi & Hwi & _ & Hin & Hatt).
  { by apply lookup_replicate_2. }
  exists wi. split; [done |].
  assert (forall r, r ∈ all_rows ->
            exists cell, r !! i = Some cell /\ cell_length cell <= wi) as Hfit.
  { apply Hin. apply elem_of_seq. lia. }
  split; [exact Hfit |].
  destruct Hatt as [-> | Hatt]; [|exact Hatt].
  destruct (Hfit first) as (cell & Hcell & Hc).
  { apply list_elem_of_lookup. by exists 0. }
  exists first, cell. split; [apply list_elem_of_lookup; by exists 0 |].
  split; [done | lia].
Qed.

(** The widths [find_col_max_widths] returns, one per cell of the first
    row: each is the greatest printed length found in its column.  Every row
    has a cell there that fits the width, and the width is the length of one
    of them (rows longer than the first are read up to its length only; a
    shorter row makes the function fail). *)
Theorem find_col_max_widths_are_maxima (all_rows : list row) (w : list nat) :
  find_col_max_widths all_rows = Ok w ->
  exists first,
    all_rows !! 0 = Some first
    /\ length w = length first
    /\ forall i, i < length first ->
         exists wi, w !! i = Some wi
           /\ (forall r, r ∈ all_rows ->
                 exists cell, r !! i = Some cell /\ cell_length cell <= wi)
           /\ (exists r cell, r ∈ all_rows /\ r !! i = Some cell /\ cell_length cell = wi).
Proof. apply find_col_max_widths_spec. Qed.

Lemma find_col_max_widths_are_maxima_witness :
  exists first,
    [ [VStr "id"; VStr "label"]; [VInt (-100); VStr "a"] ] !! 0 = Some first
    /\ length [4; 5] = length first
    /\ forall i, i < length first ->
         exists wi, [4; 5] !! i = Some wi
           /\ (forall r, r ∈ [ [VStr "id"; VStr "label"]; [VInt (-100); VStr "a"] ] ->
                 exists cell, r !! i = Some cell /\ cell_length cell <= wi)
           /\ (exists r cell,
                 r ∈ [ [VStr "id"; VStr "label"]; [VInt (-100); VStr "a"] ]
                 /\ r !! i = Some cell /\ cell_length cell = wi).
Proof.
  apply (find_col_max_widths_are_maxima
           [ [VStr "id"; VStr "label"]; [VInt (-100); VStr "a"] ] [4; 5]).
  vm_compute. reflexivity.
Defined.

Lemma py_index_head {A} (x : A) (l : list A) : py_index (x :: l) 0 = Ok x.
Proof. reflexivity. Qed.

Lemma padded_lengths (fs : list formatter) (r : row) :
  (forall i f, fs !! i = Some f ->
     exists cell, r !! i = Some cell /\ cell_length cell <= formatter_width f) ->
  String.length <$> zip_with (fun f v => pad f (str v)) fs r = formatter_width <$> fs.
Proof.
  revert r. induction fs as [|f fs IH]; intros r Hfit; [done |].
  destruct (Hfit 0 f eq_refl) as (cell & Hcell & Hle).
  destruct r as [|cell0 r]; [done |]. injection Hcell as ->.
  cbn [zip_with]. rewrite !fmap_cons, pad_length. unfold cell_length in Hle.
  f_equal; [lia |].
  apply IH. intros i f' Hf'. apply (Hfit (S i) f' Hf').
Qed.

Lemma padded_row_length (divider : string) (fs : list formatter) (r : row) :
  (forall i f, fs !! i = Some f ->
     exists cell, r !! i = Some cell /\ cell_length cell <= formatter_width f) ->
  String.length (padded_row divider fs r)
  = sum_list (formatter_width <$> fs) + String.length divider * (length fs - 1).
Proof.
  intros Hfit. unfold padded_row.
  rewrite concat_length, (padded_lengths fs r Hfit).
  do 2 f_equal.
  rewrite <- (length_fmap String.length), (padded_lengths fs r Hfit).
  by rewrite length_fmap.
Qed.

Lemma widths_of_row_total (r : row) (indexes : list nat) (w : list nat) :
  Forall (fun i => i < length r /\ i < length w) indexes ->
  exists w', widths_of_row r indexes w = Ok w'.
Proof.
  intros H. revert w H. induction indexes as [|index rest IH]; intros w H.
  - by eexists.
  - apply Forall_cons in H as [[Hr Hw] H]. cbn [widths_of_row].
    destruct (lookup_lt_is_Some_2 r index Hr) as [cell Hcell].
    destruct (lookup_lt_is_Some_2 w index Hw) as [seen Hseen].
    rewrite (py_index_position r index cell Hcell). cbn [bind].
    rewrite (py_index_position w index seen Hseen). cbn [bind].
    apply IH. eapply Forall_impl; [exact H |]. intros i [Hi1 Hi2]. split; [done |].
    destruct (_ <? _)%nat; [by rewrite length_insert | done].
Qed.

Lemma widths_of_rows_total (rs : list row) (indexes : list nat) (w : list nat) :
  Forall (fun i => i < length w) indexes ->
  Forall (fun r : row => Forall (fun i => i < length r) indexes) rs ->
  exists w', widths_of_rows rs indexes w = Ok w'.
Proof.
  intros Hw Hrs. revert w Hw. induction Hrs as [|r rs Hr Hrs IH]; intros w Hw.
  - by eexists.
  - cbn [widths_of_rows].
    destruct (widths_of_row_total r indexes w) as [w1 Hw1].
    { apply Forall_forall. intros i Hi. rewrite Forall_forall in Hr, Hw. eauto. }
    rewrite Hw1. cbn [bind]. apply IH.
    apply widths_of_row_spec in Hw1 as [Hlen _]. by rewrite Hlen.
Qed.

Lemma header_formattable (names : list string) (n : nat) :
  Forall (fun v => formattable v = true) (take n (VStr <$> names)).
Proof. apply Forall_take, Forall_fmap, Forall_forall. done. Qed.

Lemma pretty_print_lines_Ok (T : Table) (lines : list string) :
  pretty_print_lines T = Ok lines ->
  exists w fs,
    find_col_max_widths ((VStr <$> (name <$> columns T)) :: rows T) = Ok w
    /\ create_col_formatters w = Ok fs
    /\ Forall (fun r : row => Forall (fun v => formattable v = true)
                                     (take (length fs) r)) (rows T)
    /\ lines
       = padded_row " | " fs (VStr <$> (name <$> columns T))
         :: str_repeat "-"
              (Z.to_nat (Z.of_nat (sum_list w) + (Z.of_nat (length w) - 1) * 3))
         :: (padded_row " | " fs <$> rows T).
Proof.
  unfold pretty_print_lines, printable_rows_with_column_headers. cbn [fst snd].
  intros H. bind_inv H. rename x into w. bind_inv H. rename x into fs.
  bind_inv H. rename x into str_headers. bind_inv H. rename x into str_rows.
  injection H as <-. exists w, fs. split; [done |]. split; [done |].
  destruct (stringify_row_spec " | " fs (VStr <$> (name <$> columns T)))
    as [[_ Hh] | [_ Hh]]; [|congruence].
  destruct (stringify_rows_spec " | " fs (rows T)) as [[HF Hr] | [_ Hr]]; [|congruence].
  split; [done |]. rewrite Hh in Hx1. rewrite Hr in Hx2.
  injection Hx1 as <-. injection Hx2 as <-. reflexivity.
Qed.

(** The printed table is a rectangle: when [pretty_print_table] succeeds it
    prints the header, the rule and one line per row, every one of them
    exactly as wide as the column widths plus three characters for each
    divider; there is one width per column and at least one column. *)
Theorem printed_table_is_rectangular (T : Table) (lines : list string) :
  pretty_print_lines T = Ok lines ->
  exists w,
    find_col_max_widths ((VStr <$> (name <$> columns T)) :: rows T) = Ok w
    /\ length w = length (columns T)
    /\ columns T <> []
    /\ length lines = 2 + length (rows T)
    /\ Forall (fun line => String.length line = sum_list w + 3 * (length w - 1)) lines
    /\ pretty_print_table T = Ok (String.concat newline lines).
Proof.
  intros Hlines.
  destruct (pretty_print_lines_Ok T lines Hlines) as (w & fs & Hw & Hfs & _ & ->).
  exists w. split; [done |].
  destruct (find_col_max_widths_spec _ _ Hw) as (first & Hfirst & Hlen & Hcols).
  cbn [lookup list_lookup] in Hfirst. injection Hfirst as <-.
  rewrite !length_fmap in Hlen, Hcols.
  destruct (create_col_formatters_widths _ _ Hfs) as [Hwidths Hne].
  assert (length fs = length w) as Hfslen by (by rewrite <- Hwidths, length_fmap).
  assert (forall r, r ∈ (VStr <$> (name <$> columns T)) :: rows T ->
            String.length (padded_row " | " fs r)
            = sum_list w + 3 * (length w - 1)) as Hrow.
  { intros r Hr. rewrite padded_row_length, Hwidths, Hfslen; [done |].
    intros i f Hf.
    assert (w !! i = Some (formatter_width f)) as Hwi
      by (by rewrite <- Hwidths, list_lookup_fmap, Hf).
    destruct (Hcols i) as (wi & Hwi' & Hfit & _).
    { rewrite <- Hlen. by eapply lookup_lt_Some. }
    destruct (Hfit r Hr) as (cell & Hcell & Hle).
    exists cell. split; [done |]. congruence. }
  split; [done |]. split.
  { intros Hnil. apply Hne. apply length_zero_iff_nil. by rewrite Hlen, Hnil. }
  split; [cbn [length]; by rewrite length_fmap |]. split.
  - constructor; [apply Hrow; by left |]. constructor.
    + rewrite str_repeat_length. cbn [String.length].
      assert (0 < length w) by (destruct w; [done | simpl; lia]). lia.
    + apply Forall_fmap, Forall_forall. intros r Hr. apply Hrow. by right.
  - unfold pretty_print_table. by rewrite Hlines.
Qed.

Lemma printed_table_is_rectangular_witness :
  exists w,
    find_col_max_widths ((VStr <$> (name <$> columns t_table)) :: rows t_table) = Ok w
    /\ length w = length (columns t_table)
    /\ columns t_table <> []
    /\ length ["id | label"; "----------"; "1  |     a"; "2  |     b"; "3  |     c"]
       = 2 + length (rows t_table)
    /\ Forall (fun line => String.length line = sum_list w + 3 * (length w - 1))
              ["id | label"; "----------"; "1  |     a"; "2  |     b"; "3  |     c"]
    /\ pretty_print_table t_table
       = Ok (String.concat newline
               ["id | label"; "----------"; "1  |     a"; "2  |     b"; "3  |     c"]).
Proof.
  apply (printed_table_is_rectangular t_table). vm_compute. reflexivity.
Defined.

Lemma widths_of_rows_nil (rs : list row) (w : list nat) :
  widths_of_rows rs [] w = Ok w.
Proof. induction rs as [|r rs IH]; [done |]. cbn [widths_of_rows widths_of_row bind]. exact IH. Qed.

Lemma widths_of_rows_raises (rs : list row) (indexes : list nat) (w : list nat) (e : exn) :
  widths_of_rows rs indexes w = Raise e -> e = IndexError.
Proof.
  revert w. induction rs as [|r rs IH]; intros w0; cbn [widths_of_rows];
    [discriminate |].
  destruct (widths_of_row r indexes w0) as [w1|e1] eqn:Hrow; cbn [bind]; [apply IH |].
  intros [= <-]. clear IH. revert w0 Hrow.
  induction indexes as [|i idxs IHi]; intros w0; cbn [widths_of_row]; [discriminate |].
  destruct (py_index r (Z.of_nat i)) eqn:H1; cbn [bind];
    [|intros [= <-]; by eapply py_index_raises].
  destruct (py_index w0 (Z.of_nat i)) eqn:H2; cbn [bind];
    [apply IHi | intros [= <-]; by eapply py_index_raises].
Qed.

Lemma find_col_max_widths_raises (all_rows : list row) (e : exn) :
  find_col_max_widths all_rows = Raise e -> e = IndexError.
Proof.
  unfold find_col_max_widths.
  destruct (py_index all_rows 0) as [first|e0] eqn:Hfirst; cbn [bind].
  - apply widths_of_rows_raises.
  - intros [= <-]. by eapply py_index_raises.
Qed.

Lemma find_col_max_widths_total (header : row) (rs : list row) :
  Forall (fun r : row => length header <= length r) rs ->
  exists w, find_col_max_widths (header :: rs) = Ok w /\ length w = length header.
Proof.
  intros Hrows. unfold find_col_max_widths. rewrite py_index_head. cbn [bind].
  destruct (widths_of_rows_total (header :: rs) (seq 0 (length header))
              (replicate (length header) 0)) as [w Hw].
  { apply Forall_forall. intros i Hi. apply elem_of_seq in Hi.
    rewrite length_replicate. lia. }
  { constructor.
    - apply Forall_forall. intros i Hi. apply elem_of_seq in Hi. lia.
    - eapply Forall_impl; [exact Hrows |]. intros r Hr.
      apply Forall_forall. intros i Hi. apply elem_of_seq in Hi. simpl in Hr. lia. }
  exists w. split; [done |].
  apply widths_of_rows_spec in Hw as [Hlen _]. by rewrite length_replicate in Hlen.
Qed.

Lemma find_col_max_widths_rows (header : row) (rs : list row) (w : list nat) :
  find_col_max_widths (header :: rs) = Ok w ->
  Forall (fun r : row => length header <= length r) rs.
Proof.
  intros Hw.
  destruct (find_col_max_widths_spec _ _ Hw) as (first & Hfirst & Hlen & Hcols).
  cbn [lookup list_lookup] in Hfirst. injection Hfirst as <-.
  apply Forall_forall. intros r Hr.
  destruct (length header) as [|n] eqn:Hn; [lia |].
  destruct (Hcols n) as (wi & _ & Hfit & _); [lia |].
  destruct (Hfit r) as (cell & Hcell & _); [by right |].
  apply lookup_lt_Some in Hcell. lia.
Qed.

Lemma create_col_formatters_total (w : list nat) :
  w <> [] -> exists fs, create_col_formatters w = Ok fs.
Proof.
  intros Hne. unfold create_col_formatters.
  destruct (lookup_lt_is_Some_2 w (length w - 1)) as [last Hlast].
  { destruct w; [done |]. simpl. lia. }
  assert (py_index w (-1) = Ok last) as ->.
  { unfold py_index. cbn [Z.ltb Z.compare].
    destruct (Z.ltb_spec (-1 + Z.of_nat (length w)) 0) as [Hlt | Hge].
    - destruct w; [done |]. simpl in Hlt. lia.
    - replace (Z.to_nat (-1 + Z.of_nat (length w))) with (length w - 1) by lia.
      by rewrite Hlast. }
  cbn [bind]. by eexists.
Qed.

(** The three ways [pretty_print_lines] can go, in the order the printer
    meets them: the shape of the relation is checked by the width pass and
    by the formatters, the cells only when the lines are built. *)
Lemma pretty_print_lines_cases (T : Table) :
  ~ printable_shape T /\ pretty_print_lines T = Raise IndexError
  \/ printable_shape T /\ ~ printable_cells T
     /\ pretty_print_lines T = Raise TypeError
  \/ printable_shape T /\ printable_cells T
     /\ exists lines, pretty_print_lines T = Ok lines.
Proof.
  unfold printable_shape, printable_cells, pretty_print_lines,
    printable_rows_with_column_headers. cbn [fst snd].
  set (header := VStr <$> (name <$> columns T)).
  assert (length header = length (columns T)) as Hheader
    by (unfold header; by rewrite !length_fmap).
  destruct (decide (columns T = [])) as [Hnil | Hne].
  { left. split; [by intros [? _] |].
    unfold header, find_col_max_widths. rewrite Hnil, py_index_head. cbn [bind].
    cbn [fmap list_fmap length seq replicate]. by rewrite widths_of_rows_nil. }
  destruct (decide (Forall (fun r : row => length (columns T) <= length r) (rows T)))
    as [Hrows | Hshort].
  - destruct (find_col_max_widths_total header (rows T)) as (w & -> & Hlen).
    { by rewrite Hheader. }
    cbn [bind].
    destruct (create_col_formatters_total w) as [fs Hfs].
    { intros ->. apply Hne. apply length_zero_iff_nil. by rewrite <- Hheader, <- Hlen. }
    rewrite Hfs. cbn [bind].
    assert (length fs = length (columns T)) as Hfslen.
    { destruct (create_col_formatters_widths _ _ Hfs) as [Hwidths _].
      by rewrite <- Hheader, <- Hlen, <- Hwidths, length_fmap. }
    destruct (stringify_row_spec " | " fs header) as [[_ ->] | [Hbad _]].
    2: { exfalso. by apply (not_formattable_Forall _ Hbad), header_formattable. }
    cbn [bind].
    destruct (stringify_rows_spec " | " fs (rows T)) as [[HF ->] | [HE ->]]; cbn [bind].
    + right. right. rewrite Hfslen in HF. split; [done |]. split; [done |]. by eexists.
    + right. left. split; [done |]. split; [|done].
      rewrite Hfslen in HE. intros HF.
      apply Exists_exists in HE as (r & Hr & Hbad).
      rewrite Forall_forall in HF. by apply (not_formattable_Forall _ Hbad), HF.
  - left. split; [by intros [_ ?] |].
    destruct (find_col_max_widths (header :: rows T)) as [w|e] eqn:Hw; cbn [bind].
    + exfalso. apply Hshort. rewrite <- Hheader.
      by eapply find_col_max_widths_rows.
    + by rewrite (find_col_max_widths_raises _ _ Hw).
Qed.

Lemma pretty_print_table_spec (T : Table) :
  ((exists text, pretty_print_table T = Ok text) <->
   printable_shape T /\ printable_cells T)
  /\ (pretty_print_table T = Raise IndexError <-> ~ printable_shape T)
  /\ (pretty_print_table T = Raise TypeError <->
      printable_shape T /\ ~ printable_cells T)
  /\ (forall e, pretty_print_table T = Raise e -> e = IndexError \/ e = TypeError).
Proof.
  unfold pretty_print_table.
  destruct (pretty_print_lines_cases T)
    as [[Hshape ->] | [(Hshape & Hcells & ->) | (Hshape & Hcells & lines & ->)]];
    cbn [bind].
  - split; [split; [by intros [text ?] | by intros [? _]] |].
    split; [done |]. split; [split; [done | by intros [? _]] |].
    intros e [= <-]. by left.
  - split; [split; [by intros [text ?] | by intros [_ ?]] |].
    split; [split; [done | done] |]. split; [done |].
    intros e [= <-]. by right.
  - split; [split; [done | intros _; by eexists] |].
    split; [split; [done | done] |]. split; [split; [done | by intros [_ ?]] |].
    done.
Qed.

(** When the printer succeeds and how it fails.  It prints a relation
    exactly when the relation has at least one column, every row has a cell
    for each column, and each of these cells is an int or a str.  It fails
    with an IndexError exactly when the shape is wrong (a relation without
    columns, as an empty select list produces, or a row shorter than the
    header), and with a TypeError exactly when the shape is right and one of
    the cells to print is [None], which [from_file] lets through; it fails
    in no other way.  Cells beyond the last column are never looked at. *)
Theorem printer_succeeds_iff (T : Table) :
  ((exists text, pretty_print_table T = Ok text) <->
   printable_shape T /\ printable_cells T)
  /\ (pretty_print_table T = Raise IndexError <-> ~ printable_shape T)
  /\ (pretty_print_table T = Raise TypeError <->
      printable_shape T /\ ~ printable_cells T)
  /\ (forall e, pretty_print_table T = Raise e -> e = IndexError \/ e = TypeError).
Proof. apply pretty_print_table_spec. Qed.

Lemma printer_succeeds_iff_witness :
  (exists text, pretty_print_table t_table = Ok text)
  /\ pretty_print_table short_table = Raise IndexError
  /\ pretty_print_table n_table = Raise TypeError.
Proof.
  split; [|split].
  - destruct (printer_succeeds_iff t_table) as ([_ H] & _).
    apply H. split; [split; [discriminate |] |]; repeat constructor.
  - destruct (printer_succeeds_iff short_table) as (_ & [_ H] & _).
    apply H. intros [_ Hrows].
    apply Forall_cons in Hrows as [_ Hrows]. apply Forall_cons in Hrows as [Hshort _].
    simpl in Hshort. lia.
  - destruct (printer_succeeds_iff n_table) as (_ & _ & [_ H] & _).
    apply H. split; [split; [discriminate |]; repeat constructor |].
    intros Hcells.
    apply Forall_cons in Hcells as [_ Hcells]. apply Forall_cons in Hcells as [Hrow _].
    apply Forall_cons in Hrow as [_ Hrow]. apply Forall_cons in Hrow as [Hnone _].
    discriminate.
Defined.

(** ** Further properties: the query driver *)

Lemma str_in_list_spec (x : string) (xs : list string) :
  str_in_list x xs = true <-> x ∈ xs.
Proof.
  unfold str_in_list. induction xs as [|y xs IH]; simpl.
  - split; [discriminate | intros H; inversion H].
  - rewrite orb_true_iff, IH, String.eqb_eq, elem_of_cons. done.
Qed.

Lemma load_or_get_table_available (files : gmap string file_content) (st : state)
    (table_name : string) :
  available files st table_name ->
  exists T st1,
    load_or_get_table files table_name st = (inr T, st1)
    /\ forall other, available files st other -> available files st1 other.
Proof.
  unfold available, load_or_get_table, load_table_from_file.
  intros [[T HT] | (content & raw & raw_columns & Hfile & -> & Hu)].
  - rewrite HT. exists T, st. split; [done | auto].
  - destruct (table_cache (table_loader st) !! table_name) as [T|] eqn:Hc.
    + exists T, st. split; [done | auto].
    + rewrite Hfile, Hu. eexists _, _. split; [reflexivity |].
      cbn [table_loader table_cache name_to_filename filename_extra].
      intros other [Ho | Ho]; [left | by right].
      destruct (decide (table_name = other)) as [-> | Hne].
      * rewrite lookup_insert_eq. by eexists.
      * by rewrite lookup_insert_ne.
Qed.

Lemma from_loop_duplicate (files : gmap string file_content)
    (pre : list from_query) (dup : from_query) (post : list from_query)
    (tables : list Table) (used : list string) (st : state) :
  Forall (fun q => available files st (source_file q)) (pre ++ [dup]) ->
  NoDup (used ++ (working_name <$> pre)) ->
  working_name dup ∈ used ++ (working_name <$> pre) ->
  exists st',
    from_loop files (pre ++ dup :: post) tables used st
    = (inl (TableAlreadyDeclared (working_name dup)), st').
Proof.
  revert tables used st. induction pre as [|p pre IH]; intros tables used st Hav Hnd Hin.
  - cbn [app fmap list_fmap] in *. rewrite app_nil_r in Hin.
    apply Forall_cons in Hav as [Hav _].
    destruct (load_or_get_table_available files st _ Hav) as (T & st1 & Hload & _).
    cbn [from_loop]. unfold io_bind. rewrite Hload.
    apply str_in_list_spec in Hin. rewrite Hin. by eexists.
  - cbn [app] in Hav. apply Forall_cons in Hav as [Hp Hav].
    destruct (load_or_get_table_available files st _ Hp) as (T & st1 & Hload & Hkeep).
    cbn [app from_loop]. unfold io_bind at 1. rewrite Hload.
    rewrite fmap_cons in Hnd, Hin.
    assert (str_in_list (working_name p) used = false) as ->.
    { apply not_true_iff_false. rewrite str_in_list_spec. intros Hused.
      apply NoDup_app in Hnd as (_ & Hdisj & _). apply (Hdisj _ Hused). by left. }
    apply IH.
    + eapply Forall_impl; [exact Hav |]. intros q Hq. by apply Hkeep.
    + by rewrite <- app_assoc.
    + by rewrite <- app_assoc.
Qed.

(** Two sources may not share a working name: when the sources up to and
    including the offending entry can be loaded, the entries before it have
    distinct working names ([as] if given, else the file's name) and its own
    working name is one of them, [run_query] fails with the
    already-declared error that names it. *)
Theorem run_query_rejects_repeated_name (files : gmap string file_content) (q : raw_query)
    (st : state) (pre : list from_query) (dup : from_query) (post : list from_query) :
  query_from q = pre ++ dup :: post ->
  Forall (fun f => available files st (source_file f)) (pre ++ [dup]) ->
  NoDup (working_name <$> pre) ->
  working_name dup ∈ working_name <$> pre ->
  exists st',
    run_query files q st = (inl (TableAlreadyDeclared (working_name dup)), st').
Proof.
  intros Hfrom Hav Hnd Hin.
  destruct (from_loop_duplicate files pre dup post [] [] st Hav Hnd Hin) as [st' Hloop].
  exists st'. unfold run_query, run_query_table, io_bind. by rewrite Hfrom, Hloop.
Qed.

Lemma run_query_rejects_repeated_name_witness :
  exists st',
    run_query disk twice_t_query initial_state = (inl (TableAlreadyDeclared "t"), st').
Proof.
  apply (run_query_rejects_repeated_name disk twice_t_query initial_state
           [mkFromQuery "t" None] (mkFromQuery "t" (Some "t")) []).
  - reflexivity.
  - apply Forall_cons. split; [|apply Forall_cons; split; [|constructor]];
      right; exists (Json (TableArray t_file)), t_file, [("id", "int"); ("label", "str")];
      (split; [vm_compute; reflexivity | split; reflexivity]).
  - compute_done.
  - compute_done.
Defined.

(** A query without sources is not rejected as a query error: [run_query]
    fails with the IndexError of popping the empty table list, before
    anything is loaded or printed. *)
Theorem run_query_without_sources (files : gmap string file_content)
    (selects : list select_query) (wheres : list raw_where_query) (st : state) :
  run_query files (mkRawQuery [] selects wheres) st = (inl (EngineError IndexError), st).
Proof. reflexivity. Qed.

Lemma run_query_table_inr (files : gmap string file_content) (q : raw_query)
    (st : state) (T : Table) (st' : state) :
  run_query_table files q st = (inr T, st') ->
  exists tables merged filtered,
    from_loop files (query_from q) [] [] st = (inr tables, st')
    /\ merge_all tables = Ok merged
    /\ (exists all_where_queries,
          build_where_queries (query_where q) = Ok all_where_queries
          /\ apply_where_queries merged all_where_queries = Ok filtered)
    /\ apply_select_queries filtered (query_select q) = Ok T.
Proof.
  unfold run_query_table, io_bind. intros H.
  destruct (from_loop files (query_from q) [] [] st) as [[e|tables] st1]; [done |].
  destruct (merge_all tables) as [merged|e] eqn:Hm; cbn [io_lift io_ret io_raise] in H;
    [|done].
  destruct (query_where q) as [|w ws] eqn:Hw.
  - cbn [io_ret] in H.
    destruct (apply_select_queries merged (query_select q)) as [T0|e] eqn:Hs;
      cbn [io_lift io_ret io_raise] in H; [|done].
    injection H as <- <-. exists tables, merged, merged.
    split; [done |]. split; [done |]. split; [by exists [] | done].
  - destruct (build_where_queries (w :: ws)) as [all_where_queries|e] eqn:Hb;
      cbn [io_lift io_ret io_raise] in H; [|done].
    destruct (apply_where_queries merged all_where_queries) as [filtered|e] eqn:Hf;
      cbn [io_lift io_ret io_raise] in H; [|done].
    destruct (apply_select_queries filtered (query_select q)) as [T0|e] eqn:Hs;
      cbn [io_lift io_ret io_raise] in H; [|done].
    injection H as <- <-. exists tables, merged, filtered.
    split; [done |]. split; [done |]. split; [by exists all_where_queries | done].
Qed.

Lemma apply_select_queries_length (R : Table) (qs : list select_query) (R' : Table) :
  apply_select_queries R qs = Ok R' -> length (columns R') = length qs.
Proof.
  unfold apply_select_queries. intros H.
  bind_inv H. destruct x as [found names]. cbn [fst snd] in H.
  bind_inv H. bind_inv H. injection H as <-. cbn [columns].
  apply rename_columns_positions in Hx1 as [-> _].
  apply select_loop_found in Hx as (cs & -> & HF). cbn [app].
  symmetry. exact (Forall2_length _ _ _ HF).
Qed.

(** An empty select list is not rejected either: the sources are loaded,
    merged and filtered, the projection returns a relation without columns,
    and the run then fails in the printer with an IndexError, with only the
    loader's announcements printed. *)
Theorem run_query_with_empty_select (files : gmap string file_content) (q : raw_query)
    (st : state) (T : Table) (st' : state) :
  query_select q = [] ->
  run_query_table files q st = (inr T, st') ->
  columns T = []
  /\ run_query files q st = (inl (EngineError IndexError), st').
Proof.
  intros Hsel Htable.
  assert (columns T = []) as Hcols.
  { destruct (run_query_table_inr _ _ _ _ _ Htable) as (_ & _ & filtered & _ & _ & _ & Hs).
    apply apply_select_queries_length in Hs. rewrite Hsel in Hs.
    by apply length_zero_iff_nil. }
  split; [done |].
  unfold run_query, io_bind. rewrite Htable.
  destruct (pretty_print_table_spec T) as (_ & [_ Hindex] & _).
  rewrite Hindex; [done |]. by intros [Hne _].
Qed.

Lemma run_query_with_empty_select_witness :
  exists T st',
    run_query_table disk empty_select_query initial_state = (inr T, st')
    /\ columns T = []
    /\ run_query disk empty_select_query initial_state
       = (inl (EngineError IndexError), st').
Proof.
  destruct (run_query_table disk empty_select_query initial_state) as [[e|T] st'] eqn:H.
  - vm_compute in H. discriminate.
  - exists T, st'. split; [reflexivity |].
    by apply (run_query_with_empty_select disk empty_select_query initial_state T st').
Defined.

Lemma load_or_get_table_well_formed (files : gmap string file_content)
    (table_name : string) (st : state) (T : Table) (st1 : state) :
  files_ok files -> cache_ok st ->
  load_or_get_table files table_name st = (inr T, st1) ->
  well_formed T /\ cache_ok st1.
Proof.
  intros Hfiles Hcache H.
  apply load_or_get_table_inr in H
    as [[Hc ->] | (_ & content & raw & raw_columns & Hraw & Hload & -> & Hst1 & _)].
  - split; [|done]. by apply (Hcache table_name).
  - assert (well_formed (from_file table_name raw_columns (file_rows raw))) as Hwf.
    { apply (from_file_well_formed table_name content); [|done].
      by apply (Hfiles _ content Hraw). }
    split; [done |]. unfold cache_ok. rewrite Hst1. cbn [table_cache].
    by apply map_Forall_insert_2.
Qed.

Lemma from_loop_well_formed (files : gmap string file_content)
    (raw_from_queries : list from_query) (tables : list Table) (used : list string)
    (st : state) (tables' : list Table) (st' : state) :
  files_ok files -> cache_ok st -> Forall well_formed tables ->
  from_loop files raw_from_queries tables used st = (inr tables', st') ->
  Forall well_formed tables' /\ cache_ok st'
  /\ length tables' = length tables + length raw_from_queries.
Proof.
  intros Hfiles. revert tables used st.
  induction raw_from_queries as [|q rest IH]; intros tables used st Hcache Htables;
    cbn [from_loop].
  - unfold io_ret. intros [= <- <-].
    split; [done |]. split; [done |]. simpl. lia.
  - unfold io_bind at 1.
    destruct (load_or_get_table files (source_file q) st) as [[e|loaded] st1] eqn:Hload;
      [done |].
    destruct (load_or_get_table_well_formed _ _ _ _ _ Hfiles Hcache Hload)
      as [(Hinv & Hty & Hsup) Hcache1].
    destruct (str_in_list _ _); [done |].
    intros H. apply IH in H as (Hall & Hc & Hlen); [| done |].
    + split; [done |]. split; [done |]. rewrite Hlen, length_app. simpl. lia.
    + apply Forall_app. split; [done |]. constructor; [|constructor].
      destruct (negb _); [|by split].
      split; [by apply apply_as_exp_inv |].
      split; [by apply apply_as_exp_well_typed | by apply apply_as_exp_supported].
Qed.

Lemma merge_loop_well_formed (query_table : Table) (tables : list Table) :
  well_formed query_table -> Forall well_formed tables ->
  well_formed (merge_loop query_table tables).
Proof.
  intros HT Hall. revert query_table HT.
  induction Hall as [|t ts (Hinv & Hty & Hsup) _ IH];
    intros query_table (HinvT & HtyT & HsupT); [done |].
  cbn [merge_loop]. apply IH.
  split; [by apply merge_tables_inv |].
  split; [by apply merge_tables_well_typed | by apply merge_tables_supported].
Qed.

Lemma apply_where_queries_well_formed (R : Table) (qs : list where_query) (R' : Table) :
  well_formed R -> apply_where_queries R qs = Ok R' -> well_formed R'.
Proof.
  revert R. induction qs as [|q qs IH]; intros R (Hinv & Hty & Hsup);
    cbn [apply_where_queries].
  - by intros [= <-].
  - intros H. bind_inv H. eapply IH; [|exact H].
    split; [by eapply apply_where_query_inv |].
    split; [by eapply apply_where_query_well_typed | by eapply apply_where_query_supported].
Qed.

(** A query over well-formed files reaches the printer with a well-formed
    relation: whenever the evaluation succeeds, starting from a cache of
    well-formed tables, the relation it produces satisfies the invariant, is
    well typed and has columns of the supported types only, so that all its
    cells are ints and strs; it has one column per select entry, and the
    cache is still well formed; and unless the select list is empty the
    table is then printed and the run succeeds. *)
Theorem run_query_on_well_formed_files (files : gmap string file_content) (q : raw_query)
    (st : state) (T : Table) (st' : state) :
  files_ok files -> cache_ok st ->
  run_query_table files q st = (inr T, st') ->
  Relation_inv T /\ well_typed T /\ supported_types T
  /\ Forall (Forall (fun v => formattable v = true)) (rows T)
  /\ length (columns T) = length (query_select q)
  /\ cache_ok st'
  /\ (query_select q <> [] ->
      exists text,
        pretty_print_table T = Ok text
        /\ run_query files q st
           = (inr tt, mkState (table_loader st') (printed st' ++ [text]))).
Proof.
  intros Hfiles Hcache Htable.
  destruct (run_query_table_inr _ _ _ _ _ Htable)
    as (tables & merged & filtered & Hloop & Hmerge & (wqs & _ & Hwhere) & Hselect).
  apply from_loop_well_formed in Hloop as (Htables & Hcache' & _); [|done..].
  assert (well_formed merged) as Hmerged.
  { destruct tables as [|t ts]; [discriminate |]. injection Hmerge as <-.
    apply Forall_cons in Htables as [Ht Hts]. by apply merge_loop_well_formed. }
  destruct (apply_where_queries_well_formed _ _ _ Hmerged Hwhere) as (Hinv & Hty & Hsup).
  assert (well_formed T) as HT.
  { split; [by eapply apply_select_queries_inv |].
    split; [by eapply (apply_select_queries_well_typed filtered) |].
    by eapply (apply_select_queries_supported filtered). }
  pose proof (well_formed_cells T HT) as Hcells.
  destruct HT as (HinvT & HtyT & HsupT).
  assert (length (columns T) = length (query_select q)) as Hlen
    by (by eapply apply_select_queries_length).
  split; [done |]. split; [done |]. split; [done |]. split; [done |].
  split; [done |]. split; [done |].
  intros Hsel.
  destruct (pretty_print_table_spec T) as ([_ Hsuff] & _).
  destruct Hsuff as [text Htext].
  { split; [split |].
    - intros Hnil. apply Hsel. apply length_zero_iff_nil. by rewrite <- Hlen, Hnil.
    - destruct HinvT as [_ Hrows]. eapply Forall_impl; [exact Hrows |].
      intros r Hr. simpl in Hr. lia.
    - unfold printable_cells. eapply Forall_impl; [exact Hcells |].
      intros r Hr. by apply Forall_take. }
  exists text. split; [done |].
  unfold run_query, io_bind. by rewrite Htable, Htext.
Qed.

Lemma disk_ok : files_ok disk.
Proof.
  unfold files_ok, disk. apply map_Forall_singleton.
  exists t_file, [("id", "int"); ("label", "str")].
  split; [by split |]. split.
  - repeat constructor.
  - repeat constructor.
Qed.

Lemma run_query_on_well_formed_files_witness :
  exists T st' text,
    run_query_table disk self_join_query initial_state = (inr T, st')
    /\ Relation_inv T /\ well_typed T /\ supported_types T
    /\ run_query disk self_join_query initial_state
       = (inr tt, mkState (table_loader st') (printed st' ++ [text])).
Proof.
  destruct (run_query_table disk self_join_query initial_state) as [[e|T] st'] eqn:H.
  - vm_compute in H. discriminate.
  - destruct (run_query_on_well_formed_files disk self_join_query initial_state T st')
      as (Hinv & Hty & Hsup & _ & _ & _ & Hprint).
    + exact disk_ok.
    + unfold cache_ok, initial_state. cbn [table_loader table_cache].
      apply map_Forall_empty.
    + exact H.
    + destruct Hprint as (text & _ & Hrun); [discriminate |].
      exists T, st', text.
      split; [reflexivity |]. split; [exact Hinv |]. split; [exact Hty |].
      split; [exact Hsup | exact Hrun].
Defined.

(** ** Further properties: building where queries, undeclared types, folds *)

Lemma build_one_where_query (op : string) (l r : term) :
  (if key_in "column" l && key_in "column" r
   then Ok (IsColumnToColumnWhere (mkColumnToColumnWhere op l r))
   else let* built := ColumnToLiteralWhere_new op l r in
        Ok (IsColumnToLiteralWhere built))
  = if key_in "column" l
    then Ok (if key_in "column" r
             then IsColumnToColumnWhere (mkColumnToColumnWhere op l r)
             else IsColumnToLiteralWhere (mkColumnToLiteralWhere op l r Left Right))
    else Raise (SquidError MalformedWhere).
Proof. destruct l, r; reflexivity. Qed.

(** [build_where_queries] accepts a where list exactly when every entry has
    a column on its left.  When every entry has one, the list is built entry
    by entry: columns on both sides give a column-to-column query, a literal
    on the right a column-to-literal query with the column on the left, both
    keeping the operator and the terms.  When some entry has a literal on its
    left, whatever is on its right, the whole list is refused with the
    malformed error and nothing is built.  No other error is possible. *)
Theorem build_where_queries_accepts (raw_where_queries : list raw_where_query) :
  (Forall (fun raw => key_in "column" (raw_left raw) = true) raw_where_queries ->
   build_where_queries raw_where_queries
   = Ok ((fun raw =>
            if key_in "column" (raw_right raw)
            then IsColumnToColumnWhere
                   (mkColumnToColumnWhere (raw_op raw) (raw_left raw) (raw_right raw))
            else IsColumnToLiteralWhere
                   (mkColumnToLiteralWhere (raw_op raw) (raw_left raw) (raw_right raw)
                      Left Right))
         <$> raw_where_queries))
  /\ (Exists (fun raw => key_in "column" (raw_left raw) = false) raw_where_queries ->
      build_where_queries raw_where_queries = Raise (SquidError MalformedWhere))
  /\ (forall e, build_where_queries raw_where_queries = Raise e ->
        e = SquidError MalformedWhere
        /\ Exists (fun raw => key_in "column" (raw_left raw) = false) raw_where_queries).
Proof.
  unfold build_where_queries. split; [|split].
  - induction 1 as [|raw raws Hraw _ IH]; [done |].
    cbn [for_each]. rewrite IH, build_one_where_query, Hraw. reflexivity.
  - induction raw_where_queries as [|raw raws IH]; intros Hex;
      [by apply Exists_nil in Hex |].
    cbn [for_each]. rewrite build_one_where_query.
    destruct (key_in "column" (raw_left raw)) eqn:Hl; cbn [bind]; [|done].
    apply Exists_cons in Hex as [Hhead | Htail]; [congruence |].
    by rewrite (IH Htail).
  - induction raw_where_queries as [|raw raws IH]; intros e; cbn [for_each];
      [discriminate |].
    rewrite build_one_where_query.
    destruct (key_in "column" (raw_left raw)) eqn:Hl; cbn [bind].
    + destruct (for_each _ raws) as [built|e'] eqn:Hrest; cbn [bind]; [discriminate |].
      intros [= <-]. destruct (IH e' eq_refl) as [-> Hex]. split; [done | by right].
    + intros [= <-]. split; [done | by left].
Qed.

Lemma build_where_queries_accepts_witness :
  build_where_queries
    [mkRawWhereQuery ">" (TermColumn (unqualified "id")) (TermLitInt 1);
     mkRawWhereQuery "=" (TermColumn (unqualified "id")) (TermColumn (unqualified "id"))]
  = Ok [IsColumnToLiteralWhere
          (mkColumnToLiteralWhere ">" (TermColumn (unqualified "id")) (TermLitInt 1)
             Left Right);
        IsColumnToColumnWhere
          (mkColumnToColumnWhere "=" (TermColumn (unqualified "id"))
             (TermColumn (unqualified "id")))]
  /\ build_where_queries
       [mkRawWhereQuery "=" (TermColumn (unqualified "id")) (TermLitInt 1);
        mkRawWhereQuery "<" (TermLitInt 1) (TermColumn (unqualified "id"))]
     = Raise (SquidError MalformedWhere).
Proof.
  split.
  - destruct (build_where_queries_accepts
                [mkRawWhereQuery ">" (TermColumn (unqualified "id")) (TermLitInt 1);
                 mkRawWhereQuery "=" (TermColumn (unqualified "id"))
                   (TermColumn (unqualified "id"))]) as (H & _ & _).
    apply H. by repeat constructor.
  - destruct (build_where_queries_accepts
                [mkRawWhereQuery "=" (TermColumn (unqualified "id")) (TermLitInt 1);
                 mkRawWhereQuery "<" (TermLitInt 1) (TermColumn (unqualified "id"))])
      as (_ & H & _).
    apply H. right. by left.
Defined.

Lemma getitem_undeclared_type (ty : string) :
  ty ∉ SUPPORTED_COLUMN_TYPES ->
  getitem SUPPORTED_OPS_BY_COLUMN_TYPE ty = Raise KeyError.
Proof.
  unfold SUPPORTED_COLUMN_TYPES. intros Hty. cbn [getitem SUPPORTED_OPS_BY_COLUMN_TYPE].
  destruct (String.eqb_spec "int" ty) as [<- | _]; [exfalso; apply Hty; by left |].
  destruct (String.eqb_spec "str" ty) as [<- | _];
    [exfalso; apply Hty; right; by left | done].
Qed.

Lemma unknown_operator_unsupported (ty op : string) :
  ty ∈ SUPPORTED_COLUMN_TYPES ->
  op ∉ OPERATOR_FUNCS.*1 ->
  exists supported,
    getitem SUPPORTED_OPS_BY_COLUMN_TYPE ty = Ok supported
    /\ str_in_list op supported = false.
Proof.
  intros Hty Hop.
  assert (forall supported, supported ⊆ OPERATOR_FUNCS.*1 ->
            str_in_list op supported = false) as Hsub.
  { intros supported Hs. apply not_true_iff_false. rewrite str_in_list_spec.
    intros Hin. by apply Hop, Hs. }
  unfold SUPPORTED_COLUMN_TYPES in Hty.
  apply elem_of_cons in Hty as [-> | Hty];
    [|apply list_elem_of_singleton in Hty as ->];
    eexists; (split; [reflexivity |]); apply Hsub; intros x Hx;
    repeat (apply elem_of_cons in Hx as [-> | Hx]; [compute_done |]);
    inversion Hx.
Qed.

(** Type names and operators outside the two tables.  The loader accepts any
    type name, and the evaluators meet it differently: comparing two columns
    of one undeclared type raises a KeyError (not a SquidError), while
    comparing such a column with a literal is a type mismatch.  An operator
    that is not one of the six symbols is rejected as unsupported on int and
    str columns alike, before any row is read. *)
Theorem undeclared_types_and_operators (R : Table) :
  (forall q left_ref right_ref left_col right_col,
     ctc_left q = TermColumn left_ref ->
     ctc_right q = TermColumn right_ref ->
     col_config_by_column_ref R left_ref = Ok left_col ->
     col_config_by_column_ref R right_ref = Ok right_col ->
     type left_col = type right_col ->
     type left_col ∉ SUPPORTED_COLUMN_TYPES ->
     apply_where_query R (IsColumnToColumnWhere q) = Raise KeyError)
  /\ (forall q column_ref col_config,
        column_term q = TermColumn column_ref ->
        col_config_by_column_ref R column_ref = Ok col_config ->
        type col_config ∉ SUPPORTED_COLUMN_TYPES ->
        is_Some (literal_type (literal_term q)) ->
        apply_where_query R (IsColumnToLiteralWhere q)
        = Raise (SquidError (TypeMismatchLiteral col_config (literal_term q))))
  /\ (forall q left_ref right_ref left_col right_col,
        ctc_left q = TermColumn left_ref ->
        ctc_right q = TermColumn right_ref ->
        col_config_by_column_ref R left_ref = Ok left_col ->
        col_config_by_column_ref R right_ref = Ok right_col ->
        type left_col = type right_col ->
        type left_col ∈ SUPPORTED_COLUMN_TYPES ->
        ctc_op q ∉ OPERATOR_FUNCS.*1 ->
        apply_where_query R (IsColumnToColumnWhere q)
        = Raise (SquidError (UnsupportedOperator (ctc_op q) (type left_col))))
  /\ (forall q column_ref col_config,
        column_term q = TermColumn column_ref ->
        col_config_by_column_ref R column_ref = Ok col_config ->
        literal_type (literal_term q) = Some (type col_config) ->
        ctl_op q ∉ OPERATOR_FUNCS.*1 ->
        apply_where_query R (IsColumnToLiteralWhere q)
        = Raise (SquidError (UnsupportedOperator (ctl_op q) (type col_config)))).
Proof.
  split; [|split; [|split]].
  - intros q left_ref right_ref left_col right_col Hl Hr Hlc Hrc Heq Hty.
    cbn [apply_where_query]. unfold apply_column_to_column_where_query.
    rewrite Hl, Hr. cbn [term_column bind]. rewrite Hlc. cbn [bind].
    rewrite Hrc. cbn [bind]. rewrite <- Heq, String.eqb_refl. cbn [negb].
    by rewrite getitem_undeclared_type.
  - intros q column_ref col_config Hterm Hcol Hty [ty Hlit].
    cbn [apply_where_query]. unfold apply_column_to_literal_where_query.
    rewrite Hterm. cbn [term_column bind]. rewrite Hcol. cbn [bind].
    rewrite (key_in_literal _ _ _ Hlit).
    assert (String.eqb (type col_config) ty = false) as ->; [|done].
    apply String.eqb_neq. intros Heq. apply Hty. rewrite Heq.
    destruct (literal_term q); simpl in Hlit; [done | |];
      injection Hlit as <-; unfold SUPPORTED_COLUMN_TYPES; set_solver.
  - intros q left_ref right_ref left_col right_col Hl Hr Hlc Hrc Heq Hty Hop.
    cbn [apply_where_query]. unfold apply_column_to_column_where_query.
    rewrite Hl, Hr. cbn [term_column bind]. rewrite Hlc. cbn [bind].
    rewrite Hrc. cbn [bind]. rewrite <- Heq, String.eqb_refl. cbn [negb].
    destruct (unknown_operator_unsupported _ _ Hty Hop) as (supported & -> & Hin).
    cbn [bind]. by rewrite Hin.
  - intros q column_ref col_config Hterm Hcol Hlit Hop.
    cbn [apply_where_query]. unfold apply_column_to_literal_where_query.
    rewrite Hterm. cbn [term_column bind]. rewrite Hcol. cbn [bind].
    rewrite (key_in_literal _ _ _ Hlit), String.eqb_refl. cbn [negb].
    assert (type col_config ∈ SUPPORTED_COLUMN_TYPES) as Hty.
    { destruct (literal_term q); simpl in Hlit; [done | |];
        injection Hlit as <-; unfold SUPPORTED_COLUMN_TYPES; set_solver. }
    destruct (unknown_operator_unsupported _ _ Hty Hop) as (supported & -> & Hin).
    cbn [bind]. by rewrite Hin.
Qed.

Lemma undeclared_types_and_operators_witness :
  apply_where_query f_table (IsColumnToColumnWhere x_eq_y) = Raise KeyError.
Proof.
  destruct (undeclared_types_and_operators f_table) as (H & _).
  apply (H x_eq_y (unqualified "x") (unqualified "y")
           (mkColumnConfig "f" "x" "float" 0) (mkColumnConfig "f" "y" "float" 1));
    try reflexivity.
  compute_done.
Defined.

Lemma merge_loop_sizes (query_table : Table) (tables : list Table) :
  length (columns (merge_loop query_table tables))
  = length (columns query_table) + sum_list ((fun t => length (columns t)) <$> tables)
  /\ length (rows (merge_loop query_table tables))
     = length (rows query_table) * foldr Nat.mul 1 ((fun t => length (rows t)) <$> tables)
  /\ name <$> columns (merge_loop query_table tables)
     = (name <$> columns query_table) ++ (t ← tables; name <$> columns t)
  /\ table <$> columns (merge_loop query_table tables)
     = (table <$> columns query_table) ++ (t ← tables; table <$> columns t).
Proof.
  revert query_table. induction tables as [|t ts IH]; intros query_table.
  - cbn. rewrite !app_nil_r. repeat split; lia.
  - cbn [merge_loop]. destruct (IH (merge_tables query_table t)) as (Hc & Hr & Hn & Ht).
    rewrite Hc, Hr, Hn, Ht. unfold merge_tables at 1 2 3 4. cbn [columns rows].
    rewrite merged_rows_length, length_app, length_fmap, !fmap_app.
    rewrite <- !list_fmap_compose, !fmap_cons, !bind_cons. cbn [sum_list_with foldr].
    unfold id. repeat split; [lia | by rewrite Nat.mul_assoc | by rewrite <- app_assoc..].
Qed.

(** The merge of all the sources: it fails with an IndexError exactly when
    there is no source; otherwise its columns are those of the sources in
    order (names and qualifiers kept), as many as the sources have together,
    and its rows are as many as the product of their row counts. *)
Theorem merge_all_sizes (tables : list Table) :
  (merge_all tables = Raise IndexError <-> tables = [])
  /\ (forall T, merge_all tables = Ok T ->
        length (columns T) = sum_list ((fun t => length (columns t)) <$> tables)
        /\ length (rows T) = foldr Nat.mul 1 ((fun t => length (rows t)) <$> tables)
        /\ name <$> columns T = (t ← tables; name <$> columns t)
        /\ table <$> columns T = (t ← tables; table <$> columns t)).
Proof.
  split.
  - destruct tables; simpl; split; done.
  - intros T H. destruct tables as [|t ts]; [discriminate |]. injection H as <-.
    destruct (merge_loop_sizes t ts) as (Hc & Hr & Hn & Ht).
    rewrite Hc, Hr, Hn, Ht, !fmap_cons, !bind_cons. cbn [sum_list_with foldr].
    by unfold id.
Qed.

Lemma merge_all_sizes_witness :
  length (rows two_ids) = foldr Nat.mul 1 [3; 3].
Proof.
  destruct (merge_all_sizes [apply_as_exp t_table "a"; apply_as_exp t_table "b"])
    as [_ H].
  destruct (H two_ids eq_refl) as (_ & Hr & _). exact Hr.
Defined.

(** ** Further properties: filtering before or after a merge *)

Lemma filter_shifted_columns (column_ref : ColumnRef) (k : Z) (cols : list ColumnConfig) :
  List.filter (ref_matches column_ref) (shift_column k <$> cols)
  = shift_column k <$> List.filter (ref_matches column_ref) cols.
Proof.
  induction cols as [|c cols IH]; [done |].
  rewrite fmap_cons. cbn [List.filter].
  replace (ref_matches column_ref (shift_column k c))
    with (ref_matches column_ref c) by done.
  destruct (ref_matches column_ref c); by rewrite IH.
Qed.

Lemma resolve_on_merge_left (A B : Table) (column_ref : ColumnRef) :
  List.filter (ref_matches column_ref) (columns B) = [] ->
  col_config_by_column_ref (merge_tables A B) column_ref
  = col_config_by_column_ref A column_ref.
Proof.
  intros HB. rewrite !col_config_by_column_ref_resolution, merge_tables_columns.
  by rewrite List.filter_app, filter_shifted_columns, HB, app_nil_r.
Qed.

Lemma where_test_merge_left (A B : Table) (q : where_query) :
  Forall (fun column_ref => List.filter (ref_matches column_ref) (columns B) = [])
         (where_refs q) ->
  where_test (merge_tables A B) q = where_test A q.
Proof.
  intros Hrefs. destruct q as [q|q]; cbn [where_test where_refs] in *.
  - unfold column_to_literal_test.
    destruct (column_term q) as [column_ref|z|s]; cbn [term_column bind]; [|done..].
    cbn [term_refs] in Hrefs. apply Forall_cons in Hrefs as [Href _].
    by rewrite (resolve_on_merge_left A B column_ref Href).
  - unfold column_to_column_test.
    destruct (ctc_left q) as [left_ref|z|s]; cbn [term_column bind]; [|done..].
    cbn [term_refs app] in Hrefs. apply Forall_cons in Hrefs as [Hl Hrefs].
    rewrite (resolve_on_merge_left A B left_ref Hl).
    destruct (col_config_by_column_ref A left_ref) as [left_col|]; cbn [bind]; [|done].
    destruct (ctc_right q) as [right_ref|z|s]; cbn [term_column bind]; [|done..].
    cbn [term_refs] in Hrefs. apply Forall_cons in Hrefs as [Hr _].
    by rewrite (resolve_on_merge_left A B right_ref Hr).
Qed.

Lemma where_test_reads_columns (R : Table) (q : where_query)
    (test : row -> result bool) (r r' : row) :
  where_test R q = Ok test ->
  (forall c, c ∈ columns R -> py_index r (index c) = py_index r' (index c)) ->
  test r = test r'.
Proof.
  intros Htest Hsame. destruct q as [q|q]; cbn [where_test] in Htest.
  - unfold column_to_literal_test in Htest.
    bind_inv Htest. bind_inv Htest. rename x0 into c.
    destruct (negb _); [discriminate |].
    bind_inv Htest. destruct (negb _); [discriminate |].
    bind_inv Htest. bind_inv Htest. injection Htest as <-.
    by rewrite (Hsame c (resolved_in_columns _ _ _ Hx0)).
  - unfold column_to_column_test in Htest.
    bind_inv Htest. bind_inv Htest. rename x0 into lc.
    bind_inv Htest. bind_inv Htest. rename x1 into rc.
    destruct (negb _); [discriminate |].
    bind_inv Htest. destruct (negb _); [discriminate |].
    bind_inv Htest. injection Htest as <-.
    by rewrite (Hsame lc (resolved_in_columns _ _ _ Hx0)),
               (Hsame rc (resolved_in_columns _ _ _ Hx2)).
Qed.

Lemma py_index_app_left (A : Table) (a b : row) (c : ColumnConfig) :
  positions_ok (columns A) -> length a = length (columns A) -> c ∈ columns A ->
  py_index (a ++ b) (index c) = py_index a (index c).
Proof.
  intros Hp Hlen Hc. apply list_elem_of_lookup in Hc as [k Hk].
  destruct (positions_ok_spec _ Hp) as [Hpos _]. rewrite (Hpos k c Hk).
  destruct (lookup_lt_is_Some_2 a k) as [v Hv].
  { rewrite Hlen. by eapply lookup_lt_Some. }
  rewrite (py_index_position a k v Hv).
  apply py_index_position. rewrite lookup_app_l; [done | by eapply lookup_lt_Some].
Qed.

Lemma filter_merged_rows (f g : row -> bool) (ra rb : list row) :
  (forall a b, a ∈ ra -> b ∈ rb -> f (a ++ b) = g a) ->
  List.filter f (a ← ra; b ← rb; [a ++ b])
  = (a ← List.filter g ra; b ← rb; [a ++ b]).
Proof.
  induction ra as [|a ra IH]; intros Hfg; [done |].
  rewrite bind_cons, List.filter_app, IH by (intros; apply Hfg; [by right | done]).
  cbn [List.filter].
  assert (List.filter f (b ← rb; [a ++ b])
          = if g a then (b ← rb; [a ++ b]) else []) as ->.
  { assert (forall b, b ∈ rb -> f (a ++ b) = g a) as Ha
      by (intros; apply Hfg; [by left | done]).
    clear -Ha. induction rb as [|b rb IHb]; [by destruct (g a) |].
    rewrite bind_cons. cbn [app List.filter].
    rewrite (Ha b) by (by left). rewrite IHb by (intros; apply Ha; by right).
    by destruct (g a). }
  destruct (g a); [by rewrite bind_cons | done].
Qed.

(** A filter on the left source can be applied before the merge: when the
    where query succeeds on [A], [A] satisfies the invariant and no column of
    [B] matches a reference of the query, filtering the merge of [A] and [B]
    succeeds and gives the merge of the filtered [A] with [B]. *)
Theorem filter_then_merge (A B : Table) (q : where_query) (A' : Table) :
  Relation_inv A ->
  Forall (fun column_ref => List.filter (ref_matches column_ref) (columns B) = [])
         (where_refs q) ->
  apply_where_query A q = Ok A' ->
  apply_where_query (merge_tables A B) q = Ok (merge_tables A' B).
Proof.
  intros [Hp Hlen] Hrefs HA.
  apply apply_where_query_Ok in HA as (test & Htest & Hall & ->).
  rewrite Forall_forall in Hlen, Hall.
  assert (forall a b, a ∈ rows A -> test (a ++ b) = test a) as Hsame.
  { intros a b Ha. apply (where_test_reads_columns A q test _ _ Htest).
    intros c Hc. apply (py_index_app_left A); auto. }
  apply apply_where_query_Ok. exists test. split; [|split].
  - by rewrite where_test_merge_left.
  - unfold merge_tables. cbn [rows]. apply Forall_forall. intros r Hr.
    apply list_elem_of_bind in Hr as (a & Hr & Ha).
    apply list_elem_of_bind in Hr as (b & Hr & Hb).
    apply list_elem_of_singleton in Hr as ->.
    rewrite Hsame by done. by apply Hall.
  - unfold merge_tables. cbn [columns rows]. f_equal.
    symmetry. apply filter_merged_rows. intros a b Ha _. by rewrite Hsame.
Qed.

Lemma filter_then_merge_witness :
  apply_where_query (merge_tables t_table s_table) id_gt_1
  = Ok (merge_tables
          (mkTable (columns t_table) [ [VInt 2; VStr "b"]; [VInt 3; VStr "c"] ])
          s_table).
Proof.
  apply (filter_then_merge t_table s_table id_gt_1).
  - exact t_table_inv.
  - repeat constructor.
  - vm_compute. reflexivity.
Defined.

(** ** Further properties: the sources of a query and their qualifiers *)

Lemma load_or_get_table_names (files : gmap string file_content) (table_name : string)
    (st : state) (T : Table) (st1 : state) :
  cache_names_ok st ->
  load_or_get_table files table_name st = (inr T, st1) ->
  Forall (fun c => table c = table_name) (columns T) /\ cache_names_ok st1.
Proof.
  intros Hcache H.
  apply load_or_get_table_inr in H
    as [[Hc ->] | (_ & content & raw & raw_columns & Hraw & Hload & -> & Hst1 & _)].
  - split; [|done]. by apply (Hcache table_name).
  - destruct (from_file_spec table_name raw_columns (file_rows raw))
      as (_ & Hnames & _).
    split; [done |]. unfold cache_names_ok. rewrite Hst1. cbn [table_cache].
    by apply map_Forall_insert_2.
Qed.

Lemma from_loop_names (files : gmap string file_content)
    (raw_from_queries : list from_query) (tables : list Table) (used : list string)
    (st : state) (tables' : list Table) (st' : state) :
  cache_names_ok st ->
  from_loop files raw_from_queries tables used st = (inr tables', st') ->
  exists new_tables,
    tables' = tables ++ new_tables
    /\ Forall2 (fun q T => Forall (fun c => table c = working_name q) (columns T))
               raw_from_queries new_tables
    /\ NoDup (working_name <$> raw_from_queries)
    /\ (forall q, q ∈ raw_from_queries -> working_name q ∉ used)
    /\ cache_names_ok st'.
Proof.
  revert tables used st.
  induction raw_from_queries as [|q rest IH]; intros tables used st Hcache;
    cbn [from_loop].
  - unfold io_ret. intros [= <- <-]. exists []. rewrite app_nil_r.
    split; [done |]. split; [constructor |]. split; [constructor |].
    split; [|done]. intros q Hq. inversion Hq.
  - unfold io_bind at 1.
    destruct (load_or_get_table files (source_file q) st) as [[e|loaded] st1] eqn:Hload;
      [done |].
    destruct (load_or_get_table_names _ _ _ _ _ Hcache Hload) as [Hnames Hcache1].
    destruct (str_in_list (working_name q) used) eqn:Hused; [done |].
    intros H. apply IH in H as (new_tables & -> & HF & Hnd & Hfresh & Hc); [|done].
    eexists (_ :: new_tables). rewrite <- app_assoc. split; [reflexivity |].
    assert (working_name q ∉ used) as Hq
      by (rewrite <- str_in_list_spec; by rewrite Hused).
    split; [|split; [|split; [|done]]].
    + constructor; [|done].
      destruct (String.eqb_spec (working_name q) (source_file q)) as [Heq | Hne];
        cbn [negb].
      * by rewrite Heq.
      * unfold apply_as_exp. cbn [columns]. apply Forall_fmap, Forall_true.
        intros c. cbn [table]. unfold working_name in *.
        destruct (truthy (from_as q)); [done | by destruct Hne].
    + rewrite fmap_cons. apply NoDup_cons. split; [|done].
      intros Hin. apply list_elem_of_fmap in Hin as (q' & Heq & Hq').
      apply (Hfresh q' Hq'). rewrite <- Heq. apply elem_of_app. right. by left.
    + intros q' Hq'. apply elem_of_cons in Hq' as [-> | Hq']; [done |].
      intros Hin. apply (Hfresh q' Hq'). apply elem_of_app. by left.
Qed.

(** The sources of a successful query: starting from a cache whose tables
    are qualified by their names, the [from] loop returns one table per
    entry, in order, every column of which is qualified by the entry's
    working name, and the working names are pairwise distinct. *)
Theorem from_loop_qualifies_sources (files : gmap string file_content)
    (raw_from_queries : list from_query) (st : state)
    (tables : list Table) (st' : state) :
  cache_names_ok st ->
  from_loop files raw_from_queries [] [] st = (inr tables, st') ->
  Forall2 (fun q T => Forall (fun c => table c = working_name q) (columns T))
          raw_from_queries tables
  /\ NoDup (working_name <$> raw_from_queries)
  /\ cache_names_ok st'.
Proof.
  intros Hcache H.
  apply from_loop_names in H as (new_tables & -> & HF & Hnd & _ & Hc); [|done].
  by cbn [app].
Qed.

Lemma from_loop_qualifies_sources_witness :
  exists tables st',
    from_loop disk (query_from self_join_query) [] [] initial_state = (inr tables, st')
    /\ NoDup (working_name <$> query_from self_join_query).
Proof.
  destruct (from_loop disk (query_from self_join_query) [] [] initial_state)
    as [[e|tables] st'] eqn:H.
  - vm_compute in H. discriminate.
  - exists tables, st'. split; [reflexivity |].
    destruct (from_loop_qualifies_sources disk (query_from self_join_query)
                initial_state tables st') as (_ & Hnd & _).
    + unfold cache_names_ok, initial_state. cbn [table_loader table_cache].
      apply map_Forall_empty.
    + exact H.
    + exact Hnd.
Defined.

Lemma from_file_catalog_witness : Relation_inv t_table.
Proof.
  destruct (from_file_catalog "t" [("id", "int"); ("label", "str")] (rows t_table))
    as (_ & _ & _ & _ & _ & H).
  apply H. repeat constructor.
Defined.
